(** * duration.js: unit conversion and the concise-representation search

    A shallow embedding of the final revision of the [Duration] class
    (static [convert] and [concise], the constructor, [to], [toString],
    and the helpers [pluralize], [unitRef], [decimalRound]).

    JavaScript numbers are kept abstract behind the class [JSNumber], which
    lists exactly the operations the source applies to them.  Two instances
    are given: [binary64] (IEEE 754 doubles, what an engine computes) and
    [exact] (rationals, arithmetic without rounding or overflow).  The code
    is embedded once, over the class, and read at either instance. *)

From Stdlib Require Import ZArith QArith Qround Qpower Qabs Lqa Lia.
From Stdlib Require Import Bool List String Ascii DecimalString.
From Stdlib Require Import Floats.
Import ListNotations.

Local Close Scope Q_scope.
Local Open Scope string_scope.

(** ** JavaScript values and errors *)

(** The values that reach the modelled functions as unit, precision or
    separator arguments. *)
Inductive value (num : Type) : Type :=
| VUndefined
| VNull
| VBool (b : bool)
| VNum (x : num)
| VStr (s : string).

Arguments VUndefined {num}.
Arguments VNull {num}.
Arguments VBool {num} b.
Arguments VNum {num} x.
Arguments VStr {num} s.

(** A computation either returns or throws a [TypeError] (reading a
    property of [undefined]). *)
Inductive res (A : Type) : Type :=
| Ok (a : A)
| TypeError.

Arguments Ok {A} a.
Arguments TypeError {A}.

Definition bind {A B : Type} (c : res A) (k : A -> res B) : res B :=
  match c with
  | Ok a => k a
  | TypeError => TypeError
  end.

Notation "x <- c ;; k" := (bind c (fun x => k))
  (at level 61, c at next level, right associativity).

(** ** Numbers *)

(** The operations the source uses on numbers: decimal literals, [*], [/],
    [<], [>=] and the truthiness test behind [||]. [decimal m k] is the
    literal with digits [m] and [k] digits after the point; [integer z] is
    the literal without a fractional part. *)
Class JSNumber (num : Type) : Type := {
  decimal : Z -> nat -> num;
  nmul : num -> num -> num;
  ndiv : num -> num -> num;
  nlt : num -> num -> bool;
  nge : num -> num -> bool;
  truthy : num -> bool
}.

Definition integer {num : Type} `{JSNumber num} (z : Z) : num := decimal z 0.

(** *** IEEE 754 binary64 *)

Definition float_of_Z (z : Z) : float :=
  if (z <? 0)%Z then PrimFloat.opp (PrimFloat.of_uint63 (Uint63.of_Z (- z)))
  else PrimFloat.of_uint63 (Uint63.of_Z z).

Definition float_is_nan (x : float) : bool := negb (PrimFloat.eqb x x).

(** A literal with at most 15 significant digits is the correctly rounded
    quotient of two integers that binary64 holds exactly. *)
#[export] Instance binary64 : JSNumber float := {
  decimal m k := PrimFloat.div (float_of_Z m) (float_of_Z (10 ^ Z.of_nat k));
  nmul := PrimFloat.mul;
  ndiv := PrimFloat.div;
  nlt := PrimFloat.ltb;
  nge x y := PrimFloat.leb y x;
  truthy x := negb (PrimFloat.eqb x PrimFloat.zero) && negb (float_is_nan x)
}.

(** *** Exact rationals *)

Definition Qltb (x y : Q) : bool := negb (Qle_bool y x).

#[export] Instance exact : JSNumber Q := {
  decimal m k := (inject_Z m / inject_Z (10 ^ Z.of_nat k))%Q;
  nmul := Qmult;
  ndiv := Qdiv;
  nlt := Qltb;
  nge x y := Qle_bool y x;
  truthy x := negb (Qeq_bool x 0%Q)
}.

(** ** The unit table *)

Record unit_info : Type := { full : string; abbr : string; ref : nat }.

Definition ms  := {| full := "millisecond"; abbr := "ms";  ref := 0 |}.
Definition s   := {| full := "second";      abbr := "s";   ref := 1 |}.
Definition min := {| full := "minute";      abbr := "min"; ref := 2 |}.
Definition hr  := {| full := "hour";        abbr := "hr";  ref := 3 |}.
Definition day := {| full := "day";         abbr := "day"; ref := 4 |}.
Definition wk  := {| full := "week";        abbr := "wk";  ref := 5 |}.
Definition mo  := {| full := "month";       abbr := "mo";  ref := 6 |}.
Definition yr  := {| full := "year";        abbr := "yr";  ref := 7 |}.

(** The own properties of the object literal [units]. *)
Definition units : list (string * unit_info) :=
  [ ("ms", ms); ("s", s); ("min", min); ("hr", hr);
    ("day", day); ("wk", wk); ("mo", mo); ("yr", yr) ].

(** [units] is a plain object, so it inherits the properties of
    [Object.prototype] (ECMAScript 5, 15.2.4, and the accessors of Annex B);
    none of their values has a [ref], [abbr] or [full] property. *)
Definition Object_prototype : list string :=
  [ "constructor"; "toString"; "toLocaleString"; "valueOf";
    "hasOwnProperty"; "isPrototypeOf"; "propertyIsEnumerable";
    "__proto__"; "__defineGetter__"; "__defineSetter__";
    "__lookupGetter__"; "__lookupSetter__" ].

(** What a property read [units[k]] yields. *)
Inductive units_property : Type :=
| OwnUnit (u : unit_info)
| Inherited
| Missing.

Fixpoint assoc {A : Type} (k : string) (l : list (string * A)) : option A :=
  match l with
  | [] => None
  | (k', a) :: l' => if String.eqb k k' then Some a else assoc k l'
  end.

Definition units_get (k : string) : units_property :=
  match assoc k units with
  | Some u => OwnUnit u
  | None =>
      if existsb (String.eqb k) Object_prototype then Inherited else Missing
  end.

(** [k in units]: true for own and for inherited properties alike. *)
Definition in_units (k : string) : bool :=
  match units_get k with
  | Missing => false
  | _ => true
  end.

(** A rank as the code holds it: a number, or [undefined] ([None]). *)
Definition rank : Type := option nat.

(** [units[s]['ref']] as called by the source, on strings only. The [ref]
    of an inherited function is [undefined]. *)
Definition unitRef (k : string) : res rank :=
  match units_get k with
  | OwnUnit u => Ok (Some (ref u))
  | Inherited => Ok None
  | Missing => TypeError
  end.

(** Relational operators on ranks: a comparison with [undefined] is false. *)
Definition rank_lt (a b : rank) : bool :=
  match a, b with
  | Some x, Some y => Nat.ltb x y
  | _, _ => false
  end.

Definition rank_le (a b : rank) : bool :=
  match a, b with
  | Some x, Some y => Nat.leb x y
  | _, _ => false
  end.

(** [pluralize]: [s.substr(-1)] is the last character, or the empty string. *)
Fixpoint substr_last (t : string) : string :=
  match t with
  | EmptyString => EmptyString
  | String c EmptyString => String c EmptyString
  | String _ t' => substr_last t'
  end.

Definition pluralize (t : string) : string :=
  if String.eqb (substr_last t) "s" then t else t ++ "s".

(** ** The class, over any number model *)

Section Duration.

Context {num : Type} `{JSNumber num}.

(** An entry of [unitRefs]; [next] is [null] ([None]) for the last one. *)
Record unitRefs_entry : Type := { unit : string; next : option num }.

Definition unitRefs : list unitRefs_entry :=
  [ {| unit := "ms";  next := Some (integer 1000) |};
    {| unit := "s";   next := Some (integer 60) |};
    {| unit := "min"; next := Some (integer 60) |};
    {| unit := "hr";  next := Some (integer 24) |};
    {| unit := "day"; next := Some (integer 7) |};
    {| unit := "wk";  next := Some (decimal 4345238 6) |};
    {| unit := "mo";  next := Some (integer 12) |};
    {| unit := "yr";  next := None |} ].

(** [unitRefs[r]], followed by a property read: the read throws when the
    index is [undefined] or past the end. *)
Definition unitRefs_at (r : rank) : res unitRefs_entry :=
  match r with
  | Some i =>
      match nth_error unitRefs i with
      | Some e => Ok e
      | None => TypeError
      end
  | None => TypeError
  end.

(** [null] used as a number is [+0]. *)
Definition ToNumber (x : option num) : num :=
  match x with
  | Some f => f
  | None => integer 0
  end.

(** ToBoolean, for the operand of [||]. *)
Definition ToBoolean (v : value num) : bool :=
  match v with
  | VUndefined | VNull => false
  | VBool b => b
  | VNum x => truthy x
  | VStr t => negb (String.eqb t "")
  end.

(** [b in units ? b : 'hr'] for an arbitrary value: the key is its string
    form, and no string form of [undefined], [null], a boolean or a number
    names a property of [units]. *)
Definition unit_or_hr (b : value num) : string :=
  match b with
  | VStr k => if in_units k then k else "hr"
  | _ => "hr"
  end.

Definition options_precision : num := integer 2.
Definition options_abbr : bool := true.

Record Duration : Type := {
  _duration : num;
  _unit : string;
  _precision : num;
  _abbr : bool
}.

(** The [opts] argument: each property is absent ([None]) or present with
    a value. *)
Record opts : Type := {
  opts_precision : option (value num);
  opts_abbr : option (value num)
}.

Definition precision_only (p : value num) : option opts :=
  Some {| opts_precision := Some p; opts_abbr := None |}.

(** [new Duration(n, b, opts)]. *)
Definition new_Duration (n : value num) (b : value num) (o : option opts)
  : Duration :=
  {| _duration := match n with VNum x => x | _ => integer 1 end;
     _unit := unit_or_hr b;
     _precision :=
       match o with
       | Some {| opts_precision := Some (VNum p) |} => p
       | _ => options_precision
       end;
     _abbr :=
       match o with
       | Some {| opts_abbr := Some (VBool a) |} => a
       | _ => options_abbr
       end |}.

(** The rank the static functions give a unit argument. *)
Definition rank_of (u : value num) : res rank :=
  match u with
  | VStr k => if in_units k then unitRef k else unitRef "hr"
  | _ => unitRef "hr"
  end.

(** [while(du < cu) { cu--; n *= unitRefs[cu]['next']; }] *)
Fixpoint walk_down (du cu : nat) (n : num) : res num :=
  match cu with
  | O => Ok n
  | S cu' =>
      if Nat.ltb du cu then
        e <- unitRefs_at (Some cu') ;;
        walk_down du cu' (nmul n (ToNumber (next e)))
      else Ok n
  end.

(** [while(du > cu) { n /= unitRefs[cu]['next']; cu++; }]; [gap] is
    [du - cu], the number of iterations left. *)
Fixpoint walk_up (gap : nat) (cu : nat) (n : num) : res num :=
  match gap with
  | O => Ok n
  | S gap' =>
      e <- unitRefs_at (Some cu) ;;
      walk_up gap' (S cu) (ndiv n (ToNumber (next e)))
  end.

Definition walk (cu du : rank) (n : num) : res num :=
  if rank_lt du cu then
    match du, cu with
    | Some d, Some c => walk_down d c n
    | _, _ => Ok n
    end
  else if rank_lt cu du then
    match du, cu with
    | Some d, Some c => walk_up (d - c) c n
    | _, _ => Ok n
    end
  else Ok n.

(** [Duration.convert] *)
Definition Duration_convert (n : num) (from to precision : value num)
  : res Duration :=
  let precision := if ToBoolean precision then precision else VNum (integer 2) in
  cu <- rank_of from ;;
  du <- rank_of to ;;
  n' <- walk cu du n ;;
  e <- unitRefs_at du ;;
  Ok (new_Duration (VNum n') (VStr (unit e)) (precision_only precision)).

(** The getters [duration()] and [unit()]. *)
Definition Duration_prototype_duration (d : Duration) : num := _duration d.
Definition Duration_prototype_unit (d : Duration) : value num :=
  VStr (_unit d).

(** One activation of [Duration.concise]: it returns a [Duration], or
    calls itself in tail position with new arguments. *)
Inductive concise_next : Type :=
| Return (d : Duration)
| Recurse (n : num) (u p : value num).

Definition concise_step (n : num) (u p : value num) : res concise_next :=
  r <- rank_of u ;;
  e <- unitRefs_at r ;;
  let max := next e in
  if nlt n (integer 1) then
    if rank_le r (Some 0) then Ok (Return (new_Duration (VNum n) u (precision_only p)))
    else
      e' <- unitRefs_at (option_map Nat.pred r) ;;
      prev <- Duration_convert n u (VStr (unit e')) p ;;
      Ok (Recurse (Duration_prototype_duration prev)
                  (Duration_prototype_unit prev) p)
  else if nge n (ToNumber max) then
    if rank_le (Some (List.length unitRefs - 1)) r
    then Ok (Return (new_Duration (VNum n) u (precision_only p)))
    else
      e' <- unitRefs_at (option_map S r) ;;
      nxt <- Duration_convert n u (VStr (unit e')) p ;;
      Ok (Recurse (Duration_prototype_duration nxt)
                  (Duration_prototype_unit nxt) VUndefined)
  else Ok (Return (new_Duration (VNum n) u (precision_only p))).

(** [Duration.concise]; [fuel] bounds the number of activations, and
    [None] means the bound was reached. *)
Fixpoint Duration_concise (fuel : nat) (n : num) (u p : value num)
  : option (res Duration) :=
  match fuel with
  | O => None
  | S fuel' =>
      match concise_step n u p with
      | TypeError => Some TypeError
      | Ok (Return d) => Some (Ok d)
      | Ok (Recurse n' u' p') => Duration_concise fuel' n' u' p'
      end
  end.

End Duration.

Arguments unitRefs_entry num : clear implicits.
Arguments Duration num : clear implicits.
Arguments opts num : clear implicits.
Arguments concise_next num : clear implicits.

(** ** Instance methods *)

Section Methods.

Context {num : Type} `{JSNumber num}.

(** Number-to-string conversion, as [+] applies it to a number next to a
    string (ECMAScript's Number::toString); it is not modelled here and is
    taken as given. *)
Variable NumberToString : num -> string.

(** [abbr(o)] called with a boolean: the setter, returning [this]. *)
Definition Duration_prototype_abbr (d : Duration num) (o : bool)
  : Duration num :=
  {| _duration := _duration d;
     _unit := _unit d;
     _precision := _precision d;
     _abbr := negb (negb o) |}.

(** [to(u)] *)
Definition Duration_prototype_to (d : Duration num) (u : value num)
  : res (Duration num) :=
  c <- Duration_convert (_duration d) (VStr (_unit d)) u (VNum (_precision d)) ;;
  Ok (Duration_prototype_abbr c (_abbr d)).

(** The instance method [concise()]. *)
Definition Duration_prototype_concise (fuel : nat) (d : Duration num)
  : option (res (Duration num)) :=
  match Duration_concise fuel (_duration d) (VStr (_unit d)) (VNum (_precision d)) with
  | Some (Ok c) => Some (Ok (Duration_prototype_abbr c (_abbr d)))
  | other => other
  end.

(** [toString(sep)]: [units[this._unit]] must be a unit record for its
    [abbr] or [full] to be a string; [pluralize] on [undefined] throws. *)
Definition Duration_prototype_toString (d : Duration num) (sep : value num)
  : res string :=
  let sep := match sep with VStr t => t | _ => " " end in
  match units_get (_unit d) with
  | OwnUnit u =>
      let u := if _abbr d then abbr u else full u in
      Ok (NumberToString (_duration d) ++ sep ++ pluralize u)
  | Inherited => TypeError
  | Missing => TypeError
  end.

End Methods.

(** ** The accessors, with any argument

    [unit], [duration] and [abbr] read a field when called as a getter;
    called with an argument they may write the field, and return [this].
    A call is modelled by the object as the call leaves it, paired with
    what the call returns. *)

Inductive returned (A : Type) : Type :=
| Got (a : A)
| This.

Arguments Got {A} a.
Arguments This {A}.

Section Accessors.

Context {num : Type} `{JSNumber num}.

(** [unit(s)]: a falsy [s] makes the call a getter; otherwise [s] is
    stored when it is [in units].  The string form of a boolean or of a
    number names no property of [units]. *)
Definition Duration_prototype_unit_call (this : Duration num) (s : value num)
  : Duration num * returned string :=
  if negb (ToBoolean s) then (this, Got (_unit this))
  else
    match s with
    | VStr k =>
        if in_units k
        then ({| _duration := _duration this; _unit := k;
                 _precision := _precision this; _abbr := _abbr this |}, This)
        else (this, This)
    | _ => (this, This)
    end.

(** [duration(d)]: a getter on [undefined]; a number is stored; anything
    else is ignored. *)
Definition Duration_prototype_duration_call (this : Duration num)
    (d : value num) : Duration num * returned num :=
  match d with
  | VUndefined => (this, Got (_duration this))
  | VNum x =>
      ({| _duration := x; _unit := _unit this;
          _precision := _precision this; _abbr := _abbr this |}, This)
  | _ => (this, This)
  end.

(** [abbr(o)]: a getter on [undefined]; otherwise [!!o] is stored. *)
Definition Duration_prototype_abbr_call (this : Duration num) (o : value num)
  : Duration num * returned bool :=
  match o with
  | VUndefined => (this, Got (_abbr this))
  | _ =>
      ({| _duration := _duration this; _unit := _unit this;
          _precision := _precision this;
          _abbr := negb (negb (ToBoolean o)) |}, This)
  end.

(** The instance method [convert(u)]: [return this.to(u)]. *)
Definition Duration_prototype_convert (this : Duration num) (u : value num)
  : res (Duration num) :=
  Duration_prototype_to this u.

End Accessors.

(** ** Numbers and strings

    [decimalRound] prints a number, edits the exponent in the string and
    reads the string back.  Printing is Number::toString (ECMAScript 5,
    9.8.1): the shortest decimal that reads back as the number, the
    closest one if there are several.  Reading is ToNumber on strings
    (9.3.1): the decimal literal rounded to the nearest double, ties to
    even. *)

(** The double nearest to [a / b], or to its opposite. *)
Definition nearest_double (negative : bool) (a b : positive) : spec_float :=
  SFdiv prec emax (S754_finite negative a 0) (S754_finite false b 0).

(** The double nearest to [s * 10^q] for [s >= 0]. *)
Definition decimal_value (negative : bool) (s q : Z) : spec_float :=
  match s with
  | Zpos a =>
      match q with
      | Z0 => nearest_double negative a 1
      | Zpos _ => nearest_double negative (a * Z.to_pos (10 ^ q)) 1
      | Zneg _ => nearest_double negative a (Z.to_pos (10 ^ (- q)))
      end
  | _ => S754_zero negative
  end.

(** [floor (log10 (a / b))] for positive [a] and [b]. *)
Fixpoint exponent_up (fuel : nat) (a b e : Z) : Z :=
  match fuel with
  | O => e
  | S fuel' =>
      if (10 * b <=? a)%Z then exponent_up fuel' a (10 * b)%Z (e + 1)%Z else e
  end.

Fixpoint exponent_down (fuel : nat) (a b e : Z) : Z :=
  match fuel with
  | O => e
  | S fuel' =>
      if (a <? b)%Z then exponent_down fuel' (10 * a)%Z b (e - 1)%Z else e
  end.

Definition decimal_exponent (a b : Z) : Z :=
  if (b <=? a)%Z then exponent_up 400 a b 0 else exponent_down 400 a b 0.

(** [floor (a / (b * 10^q))] *)
Definition scaled_floor (a b q : Z) : Z :=
  if (0 <=? q)%Z then (a / (b * 10 ^ q))%Z else (a * 10 ^ (- q) / b)%Z.

(** How [a / b] compares with the middle of [s * 10^q] and
    [(s + 1) * 10^q]. *)
Definition against_middle (a b s q : Z) : comparison :=
  if (0 <=? q)%Z then (2 * a ?= (2 * s + 1) * 10 ^ q * b)%Z
  else (2 * a * 10 ^ (- q) ?= (2 * s + 1) * b)%Z.

Definition SF_eqb (x y : spec_float) : bool :=
  match x, y with
  | S754_zero s, S754_zero s' => Bool.eqb s s'
  | S754_infinity s, S754_infinity s' => Bool.eqb s s'
  | S754_nan, S754_nan => true
  | S754_finite s m e, S754_finite s' m' e' =>
      Bool.eqb s s' && Pos.eqb m m' && Z.eqb e e'
  | _, _ => false
  end.

(** The [k]-digit decimals next to the positive double [m * 2^e], below
    and above, as pairs of digits [s] and position of the decimal point
    [n]: the value is [s * 10^(n - k)]. *)
Definition neighbours (a b n0 k : Z) : (Z * Z) * (Z * Z) :=
  let s := scaled_floor a b (n0 - k) in
  ((s, n0),
   if (s + 1 <? 10 ^ k)%Z then (s + 1, n0)%Z else (10 ^ (k - 1), n0 + 1)%Z).

(** Step 5 of 9.8.1: the least [k], and for it the digits closest to the
    number among those that read back as the number. *)
Fixpoint shortest (fuel : nat) (m : positive) (e : Z) (a b n0 k : Z)
  : Z * Z * Z :=
  let '((s1, n1), (s2, n2)) := neighbours a b n0 k in
  let reads sn :=
    SF_eqb (decimal_value false (fst sn) (snd sn - k)) (S754_finite false m e) in
  let below := reads (s1, n1) in
  let above := reads (s2, n2) in
  let found :=
    if below && above then
      match against_middle a b s1 (n0 - k) with
      | Lt => Some (s1, n1)
      | Gt => Some (s2, n2)
      | Eq => if Z.even s1 then Some (s1, n1) else Some (s2, n2)
      end
    else if below then Some (s1, n1)
    else if above then Some (s2, n2)
    else None in
  match found, fuel with
  | Some (s, n), _ => (s, n, k)
  | None, O => (s1, n1, k)
  | None, S fuel' => shortest fuel' m e a b n0 (k + 1)
  end.

Fixpoint zeros (n : nat) : string :=
  match n with
  | O => ""
  | S n' => String "0" (zeros n')
  end.

Definition digits (z : Z) : string := NilZero.string_of_int (Z.to_int z).

(** Steps 6 to 10 of 9.8.1. *)
Definition layout (ds : string) (k n : Z) : string :=
  if (k <=? n)%Z && (n <=? 21)%Z then ds ++ zeros (Z.to_nat (n - k))
  else if (0 <? n)%Z && (n <=? 21)%Z then
    substring 0 (Z.to_nat n) ds ++ "." ++ substring (Z.to_nat n) (Z.to_nat (k - n)) ds
  else if (-6 <? n)%Z && (n <=? 0)%Z then "0." ++ zeros (Z.to_nat (- n)) ++ ds
  else
    let e := (n - 1)%Z in
    let es := (if (e <? 0)%Z then "-" else "+") ++ digits (Z.abs e) in
    if (k =? 1)%Z then ds ++ "e" ++ es
    else substring 0 1 ds ++ "." ++ substring 1 (Z.to_nat (k - 1)) ds ++ "e" ++ es.

Definition Number_toString (x : float) : string :=
  match Prim2SF x with
  | S754_nan => "NaN"
  | S754_zero _ => "0"
  | S754_infinity s => if s then "-Infinity" else "Infinity"
  | S754_finite s m e =>
      let a := if (0 <=? e)%Z then (Z.pos m * 2 ^ e)%Z else Z.pos m in
      let b := if (0 <=? e)%Z then 1%Z else (2 ^ (- e))%Z in
      let n0 := (decimal_exponent a b + 1)%Z in
      let '(s', n, k) := shortest 16 m e a b n0 1 in
      (if s then "-" else "") ++ layout (digits s') k n
  end.

(** ** Reading a string as a number *)

Definition digit_value (c : ascii) : option Z :=
  let n := nat_of_ascii c in
  if (48 <=? n)%nat && (n <=? 57)%nat then Some (Z.of_nat (n - 48)) else None.

(** The longest prefix of digits: its value, its length, and the rest. *)
Fixpoint read_digits (t : string) (acc : Z) (count : nat) : Z * nat * string :=
  match t with
  | String c t' =>
      match digit_value c with
      | Some d => read_digits t' (10 * acc + d)%Z (S count)
      | None => (acc, count, t)
      end
  | EmptyString => (acc, count, t)
  end.

Definition read_sign (t : string) : bool * string :=
  match t with
  | String "-" t' => (true, t')
  | String "+" t' => (false, t')
  | _ => (false, t)
  end.

(** ExponentPart, optional: [e] or [E], an optional sign, digits. *)
Definition read_exponent (t : string) : option Z :=
  match t with
  | EmptyString => Some 0%Z
  | String c t' =>
      if Ascii.eqb c "e" || Ascii.eqb c "E" then
        let '(negative, t'') := read_sign t' in
        match read_digits t'' 0 0 with
        | (_, O, _) => None
        | (x, S _, EmptyString) => Some (if negative then (- x)%Z else x)
        | _ => None
        end
      else None
  end.

(** ToNumber on a string without white space around it and not in
    hexadecimal; the empty string is 0. *)
Definition StringToNumber (t : string) : float :=
  match t with
  | EmptyString => 0%float
  | _ =>
      let '(negative, t1) := read_sign t in
      if String.eqb t1 "Infinity" then
        (if negative then neg_infinity else infinity)
      else
        let '(ip, ni, t2) := read_digits t1 0 0 in
        let '(fp, nf, t3) :=
          match t2 with
          | String "." t2' => read_digits t2' ip 0
          | _ => (ip, O, t2)
          end in
        match ni, nf with
        | O, O => nan
        | _, _ =>
            match read_exponent t3 with
            | Some x =>
                SF2Prim (decimal_value negative fp (x - Z.of_nat nf))
            | None => nan
            end
        end
  end.

(** [s.split('e')] *)
Fixpoint split_e (t : string) (acc : string) : list string :=
  match t with
  | EmptyString => [acc]
  | String c t' =>
      if Ascii.eqb c "e" then acc :: split_e t' ""
      else split_e t' (acc ++ String c "")
  end.

(** [Math.round] (15.8.2.15): the integer closest to [x], the larger one
    on a tie; a result of zero has the sign of [x]. *)
Definition Math_round (x : float) : float :=
  match Prim2SF x with
  | S754_finite s m e =>
      if (0 <=? e)%Z then x
      else
        let k := (((if s then - Z.pos m else Z.pos m) * 2 + 2 ^ (- e))
                  / 2 ^ (- e + 1))%Z in
        if (k =? 0)%Z then (if s then (-0)%float else 0%float)
        else float_of_Z k
  | _ => x
  end.

(** [v[0] + 'e' + (v[1] ? (+v[1] + d) : d)] read as a number, for the
    parts [v] of a split string. *)
Definition shifted (parts : list string) (d : float) : float :=
  let mantissa := match parts with m :: _ => m | [] => "undefined" end in
  let exponent :=
    match parts with
    | _ :: e :: _ =>
        if String.eqb e "" then d else PrimFloat.add (StringToNumber e) d
    | _ => d
    end in
  StringToNumber (mantissa ++ "e" ++ Number_toString exponent).

Definition decimalRound (v x : float) : float :=
  if negb (truthy x) then Math_round v
  else
    let v1 := Math_round (shifted (split_e (Number_toString v) "") x) in
    match split_e (Number_toString v1) "" with
    | m :: e :: _ =>
        let exponent :=
          if String.eqb e "" then PrimFloat.opp x
          else PrimFloat.sub (StringToNumber e) x in
        StringToNumber (m ++ "e" ++ Number_toString exponent)
    | m :: [] => StringToNumber (m ++ "e" ++ Number_toString (PrimFloat.opp x))
    | [] => nan
    end.

(** ** Reference descriptions used in the statements *)

(** The rank of a recognized unit identifier. *)
Definition unit_rank (u : string) : option nat :=
  option_map ref (assoc u units).

(** The unit identifier stored at rank [r] of the scale table. *)
Definition unit_name (r : nat) : string :=
  nth r ["ms"; "s"; "min"; "hr"; "day"; "wk"; "mo"; "yr"] "".

Section Reference.

Context {num : Type} `{JSNumber num}.

(** The scale-table factor stored at rank [r]. *)
Definition factor (r : nat) : num :=
  match nth_error unitRefs r with
  | Some e => ToNumber (next e)
  | None => integer 0
  end.

(** Ranks [cu-1], [cu-2], ..., [du], in the order a downward walk meets them. *)
Definition ranks_down (cu du : nat) : list nat := rev (seq du (cu - du)).

(** Ranks [cu], [cu+1], ..., [du-1], in the order an upward walk meets them. *)
Definition ranks_up (cu du : nat) : list nat := seq cu (du - cu).

(** The walk between two ranks as a sequence of multiplications or of
    divisions by the factors met on the way. *)
Definition rescale (cu du : nat) (n : num) : num :=
  if Nat.ltb du cu then
    fold_left (fun a r => nmul a (factor r)) (ranks_down cu du) n
  else if Nat.ltb cu du then
    fold_left (fun a r => ndiv a (factor r)) (ranks_up cu du) n
  else n.

(** [convert(convert(n, u1, u2).duration(), u2, u1).duration()] *)
Definition roundtrip (n : num) (u1 u2 p : value num) : res num :=
  d1 <- Duration_convert n u1 u2 p ;;
  d2 <- Duration_convert (Duration_prototype_duration d1) u2 u1 p ;;
  Ok (Duration_prototype_duration d2).

(** Whether a unit argument is a string that names a property of [units],
    its own or an inherited one. *)
Definition names_property (u : value num) : bool :=
  match u with
  | VStr k => in_units k
  | _ => false
  end.

(** The outcome of a search that made exactly [k] recursive calls: [k + 1]
    activations return [d], and [k] do not. *)
Definition took (k : nat) (n : num) (u : string) (p : value num)
    (d : Duration num) : Prop :=
  Duration_concise (S k) n (VStr u) p = Some (Ok d)
  /\ Duration_concise k n (VStr u) p = None.

(** The search from rank [r] goes finer at each of its [r] recursive calls
    and returns, in milliseconds, [n] multiplied by the factors of the
    ranks [r-1], ..., [0], in this order. *)
Definition carried_to_ms (n : num) (u : string) (p : value num) (r : nat)
  : Prop :=
  exists d : Duration num,
    Duration_concise 8 n (VStr u) p = Some (Ok d)
    /\ took r n u p d
    /\ _unit d = "ms"
    /\ _duration d
       = fold_left (fun a i => nmul a (factor i)) (rev (seq 0 r)) n.

(** The search from rank [r] returns after exactly [k] recursive calls for
    some [k <= 7], and ends [k] ranks finer or [k] ranks coarser than it
    started. *)
Definition ends_one_way (n : num) (u : string) (p : value num) (r : nat)
  : Prop :=
  exists (k : nat) (d : Duration num),
    k <= 7
    /\ (forall fuel : nat,
           k < fuel -> Duration_concise fuel n (VStr u) p = Some (Ok d))
    /\ (forall fuel : nat,
           fuel <= k -> Duration_concise fuel n (VStr u) p = None)
    /\ ((k <= r /\ unit_rank (_unit d) = Some (r - k))
        \/ unit_rank (_unit d) = Some (r + k)).

(** The precision the constructor records for [{ precision: p }]. *)
Definition constructed_precision (p : value num) : num :=
  match p with
  | VNum x => x
  | _ => integer 2
  end.

(** The precision a call of [convert] ends up recording. *)
Definition recorded_precision (p : value num) : num :=
  match p with
  | VNum x => if truthy x then x else integer 2
  | _ => integer 2
  end.

End Reference.

(** The binary64 values with the sign bit set, NaN apart: [-0], the
    negative finite numbers and [-Infinity]. *)
Definition sign_set (x : spec_float) : Prop :=
  match x with
  | S754_zero true | S754_infinity true | S754_finite true _ _ => True
  | _ => False
  end.

(** A binary64 value that is not NaN. *)
Definition is_number (x : spec_float) : Prop :=
  match x with
  | S754_nan => False
  | _ => True
  end.

(** The greatest binary64 value below 1. *)
Definition below_one : float := 0x1.fffffffffffffp-1%float.

(** The number of bits [shr_fexp] shifts out of a mantissa. *)
Definition shift_count (m e : Z) : Z :=
  Z.max 0 (fexp prec emax (Zdigits2 m + e) - e)%Z.

(** The second, renormalizing shift of [binary_round_aux] and the packing
    of its result. *)
Definition renorm (t e : Z) : Z * Z :=
  (t / 2 ^ shift_count t e, e + shift_count t e)%Z.

Definition pack (s : bool) (me : Z * Z) : spec_float :=
  match fst me with
  | Z0 => S754_zero s
  | Zpos m =>
      if (snd me <=? emax - prec)%Z then S754_finite s m (snd me)
      else S754_infinity s
  | Zneg _ => S754_nan
  end.

(** Whether the last character of [t] is an ["s"]. *)
Definition ends_in_s (t : string) : bool :=
  match rev (list_ascii_of_string t) with
  | c :: _ => Ascii.eqb c "s"
  | [] => false
  end.

(** The integer a binary64 value denotes, when it denotes one. *)
Definition integral_value (x : float) : option Z :=
  match Prim2SF x with
  | S754_zero _ => Some 0%Z
  | S754_finite sign m e =>
      let magnitude :=
        if (0 <=? e)%Z then Some (Z.pos m * 2 ^ e)%Z
        else if (Z.pos m mod 2 ^ (- e) =? 0)%Z then Some (Z.pos m / 2 ^ (- e))%Z
        else None in
      option_map (fun z => if sign then (- z)%Z else z) magnitude
  | _ => None
  end.

(** Number-to-string conversion on the integers of magnitude below 10^21,
    which print as their decimal numeral; other values are left out. *)
Definition NumberToString_integral (x : float) : string :=
  match integral_value x with
  | Some z =>
      if (Z.abs z <? 10 ^ 21)%Z then NilZero.string_of_int (Z.to_int z) else ""
  | None => ""
  end.



(** The product of the factors at the ranks of [l]. *)
Definition factor_product (l : list nat) : Q :=
  fold_right (fun r acc => (factor r * acc)%Q) 1%Q l.

(** Whether a unit argument is a string naming a property that [units]
    inherits and does not own. *)
Definition inherited_name {num : Type} (u : value num) : bool :=
  match u with
  | VStr k =>
      match units_get k with
      | Inherited => true
      | _ => false
      end
  | _ => false
  end.

(** The unit a unit argument stands for: itself when it is one of the eight
    identifiers of the table, ['hr'] otherwise. *)
Definition unit_or_default {num : Type} (u : value num) : string :=
  match u with
  | VStr k =>
      match assoc k units with
      | Some _ => k
      | None => "hr"
      end
  | _ => "hr"
  end.

(** The sign bit of a binary64 value; NaN has none. *)
Definition sign_bit (x : spec_float) : option bool :=
  match x with
  | S754_zero b | S754_infinity b | S754_finite b _ _ => Some b
  | S754_nan => None
  end.

(** The rational number a finite binary64 value denotes; 0 for the others. *)
Definition SF2Q (x : spec_float) : Q :=
  match x with
  | S754_finite s m e =>
      ((if s then -1 else 1) * (inject_Z (Z.pos m) * 2 ^ e))%Q
  | _ => 0%Q
  end.

Definition B2Q (x : float) : Q := SF2Q (Prim2SF x).

(** The doubles a walk along the table keeps well inside the normal range:
    zero, and the finite ones whose exponent lies between -900 and 800,
    that is those of magnitude from [2^-848] up to [2^853]. *)
Definition safe_magnitude (x : spec_float) : Prop :=
  match x with
  | S754_zero _ => True
  | S754_finite _ _ e => (-900 <= e <= 800)%Z
  | _ => False
  end.

(** The relative error of one rounded operation, [2^-52], and what [j]
    operations can add up to: [a] is within [j] roundings of [b] when
    [|a - b| <= ((1 + 2^-52)^j - 1) * |b|]. *)
Definition unit_roundoff : Q := (1 # 4503599627370496)%Q.

Fixpoint slack (j : nat) : Q :=
  match j with
  | O => 1%Q
  | S j' => ((1 + unit_roundoff) * slack j')%Q
  end.

Definition within (j : nat) (a b : Q) : Prop :=
  (Qabs (a - b) <= (slack j - 1) * Qabs b)%Q.

(** The value of the binary64 factor at rank [r], the product of the
    values at the ranks of [l], and the length of the unit of rank [r] in
    milliseconds as the binary64 table has it. *)
Definition factor_value (r : nat) : Q := B2Q (factor (num := float) r).

Definition value_product (l : list nat) : Q :=
  fold_right (fun r acc => (factor_value r * acc)%Q) 1%Q l.

Definition unit_length (r : nat) : Q := value_product (seq 0 r).



(** ** Facts about the tables *)

Lemma unit_rank_cases (u : string) (r : nat) :
  unit_rank u = Some r ->
  In (u, r) [("ms", 0); ("s", 1); ("min", 2); ("hr", 3);
             ("day", 4); ("wk", 5); ("mo", 6); ("yr", 7)].
Proof.
  unfold unit_rank, units. cbn [assoc].
  repeat match goal with
         | |- context [String.eqb u ?k] =>
             destruct (String.eqb_spec u k) as [-> | _];
             [ cbn; intros [= <-]; cbn; tauto | ]
         end.
  discriminate.
Qed.

Lemma unit_rank_le (u : string) (r : nat) : unit_rank u = Some r -> r <= 7.
Proof.
  intros Hu. apply unit_rank_cases in Hu. cbn in Hu.
  repeat (destruct Hu as [[= _ <-] | Hu]; [lia | ]). contradiction.
Qed.

Lemma unit_name_rank (u : string) (r : nat) :
  unit_rank u = Some r -> unit_name r = u.
Proof.
  intros Hu. apply unit_rank_cases in Hu. cbn in Hu.
  repeat (destruct Hu as [[= <- <-] | Hu]; [reflexivity | ]). contradiction.
Qed.

(** The binary64 reading of the literal [4.345238] is the double nearest
    to it, the one an engine parses. *)
Lemma binary64_weeks_per_month :
  decimal (num := float) 4345238 6 = 0x1.1618611fd5886p+2%float.
Proof. vm_compute. reflexivity. Qed.

Section TableFacts.

Context {num : Type} `{JSNumber num}.

Lemma rank_of_unit (u : string) (r : nat) :
  unit_rank u = Some r -> rank_of (VStr u : value num) = Ok (Some r).
Proof.
  intros Hu. apply unit_rank_cases in Hu. cbn in Hu.
  repeat (destruct Hu as [[= <- <-] | Hu]; [reflexivity | ]). contradiction.
Qed.

Lemma unitRefs_at_unit (u : string) (r : nat) :
  unit_rank u = Some r ->
  exists e, nth_error unitRefs r = Some e /\ unit e = u.
Proof.
  intros Hu. apply unit_rank_cases in Hu. cbn in Hu.
  repeat (destruct Hu as [[= <- <-] | Hu]; [cbn; eauto | ]). contradiction.
Qed.

Lemma unitRefs_lookup (r : nat) :
  r <= 7 -> exists e, nth_error unitRefs r = Some e /\ unit_rank (unit e) = Some r.
Proof.
  intros Hr.
  do 8 (destruct r as [ | r]; [cbn; eauto | ]). lia.
Qed.

Lemma unit_or_hr_unit (u : string) (r : nat) :
  unit_rank u = Some r -> unit_or_hr (VStr u : value num) = u.
Proof.
  intros Hu. apply unit_rank_cases in Hu. cbn in Hu.
  repeat (destruct Hu as [[= <- <-] | Hu]; [reflexivity | ]). contradiction.
Qed.

Lemma factor_at (r : nat) (e : unitRefs_entry num) :
  nth_error unitRefs r = Some e -> ToNumber (next e) = factor r.
Proof. intros He. unfold factor. rewrite He. reflexivity. Qed.

(** The loops of [convert] never read past the table, and compute the
    folds of [rescale]. *)
Lemma walk_down_fold (du cu : nat) (n : num) :
  cu <= 8 ->
  walk_down du cu n
  = Ok (fold_left (fun a r => nmul a (factor r)) (ranks_down cu du) n).
Proof.
  revert n. induction cu as [ | cu IH]; intros n Hcu.
  - reflexivity.
  - cbn [walk_down]. destruct (Nat.ltb_spec du (S cu)) as [Hlt | Hge].
    + destruct (unitRefs_lookup cu) as (e & He & _); [lia | ].
      unfold unitRefs_at. rewrite He. cbn [bind].
      rewrite (factor_at _ _ He), IH by lia. unfold ranks_down.
      replace (S cu - du) with (S (cu - du)) by lia.
      rewrite seq_S, rev_app_distr. cbn [rev app fold_left].
      replace (du + (cu - du)) with cu by lia. reflexivity.
    + unfold ranks_down. replace (S cu - du) with 0 by lia. reflexivity.
Qed.

Lemma walk_up_fold (gap cu : nat) (n : num) :
  cu + gap <= 8 ->
  walk_up gap cu n
  = Ok (fold_left (fun a r => ndiv a (factor r)) (seq cu gap) n).
Proof.
  revert cu n. induction gap as [ | gap IH]; intros cu n Hb.
  - reflexivity.
  - cbn [walk_up seq fold_left].
    destruct (unitRefs_lookup cu) as (e & He & _); [lia | ].
    unfold unitRefs_at. rewrite He. cbn [bind].
    rewrite (factor_at _ _ He), IH by lia. reflexivity.
Qed.

Lemma walk_rescale (cu du : nat) (n : num) :
  cu <= 7 -> du <= 7 -> walk (Some cu) (Some du) n = Ok (rescale cu du n).
Proof.
  intros Hcu Hdu. unfold walk, rescale, rank_lt.
  destruct (Nat.ltb_spec du cu).
  - apply walk_down_fold. lia.
  - destruct (Nat.ltb_spec cu du).
    + unfold ranks_up. apply walk_up_fold. lia.
    + reflexivity.
Qed.

(** [convert] between two recognized units. *)
Lemma convert_units (n : num) (from to : string) (p : value num) (cu du : nat) :
  unit_rank from = Some cu ->
  unit_rank to = Some du ->
  Duration_convert n (VStr from) (VStr to) p
  = Ok {| _duration := rescale cu du n;
          _unit := to;
          _precision := recorded_precision p;
          _abbr := true |}.
Proof.
  intros Hf Ht. unfold Duration_convert.
  rewrite (rank_of_unit _ _ Hf), (rank_of_unit _ _ Ht). cbn [bind].
  rewrite walk_rescale by eauto using unit_rank_le. cbn [bind].
  destruct (unitRefs_at_unit _ _ Ht) as (e & He & Hue).
  unfold unitRefs_at. rewrite He. cbn [bind]. rewrite Hue.
  unfold new_Duration, precision_only. cbn.
  f_equal. f_equal.
  - apply (unit_or_hr_unit _ _ Ht).
  - unfold recorded_precision, ToBoolean.
    destruct p as [ | | b | x | t]; try reflexivity.
    + destruct b; reflexivity.
    + destruct (truthy x); reflexivity.
    + destruct (negb (t =? "")); reflexivity.
Qed.

End TableFacts.

(** ** Conversion walks the scale table *)

(** C1. For recognized units of ranks [cu] and [du], [convert] returns a
    [Duration] in the target unit whose magnitude is [n] multiplied by the
    factors at ranks [cu-1], ..., [du] when [du < cu], divided by the
    factors at ranks [cu], ..., [du-1] when [du > cu], and [n] itself when
    the ranks are equal; in binary64, [convert(1000, 'ms', 's')] is 1 s. *)
Theorem convert_walks_scale_table :
  (forall (num : Type) (N : JSNumber num) (n : num) (from to : string)
          (p : value num) (cu du : nat),
      unit_rank from = Some cu ->
      unit_rank to = Some du ->
      exists d : Duration num,
        Duration_convert n (VStr from) (VStr to) p = Ok d
        /\ _unit d = to
        /\ _duration d
           = if Nat.ltb du cu then
               fold_left (fun a r => nmul a (factor r)) (ranks_down cu du) n
             else if Nat.ltb cu du then
               fold_left (fun a r => ndiv a (factor r)) (ranks_up cu du) n
             else n)
  /\ Duration_convert 1000%float (VStr "ms") (VStr "s") VUndefined
     = Ok {| _duration := 1%float; _unit := "s";
             _precision := 2%float; _abbr := true |}.
Proof.
  split.
  - intros num N n from to p cu du Hf Ht.
    eexists. split; [apply (convert_units n from to p cu du Hf Ht) | ].
    split; reflexivity.
  - vm_compute. reflexivity.
Qed.

Lemma convert_walks_scale_table_witness :
  unit_rank "day" = Some 4 /\ unit_rank "hr" = Some 3
  /\ exists d : Duration float,
       Duration_convert 1%float (VStr "day") (VStr "hr") VUndefined = Ok d
       /\ _unit d = "hr"
       /\ _duration d
          =fold_left (fun a r => nmul a (factor r)) (ranks_down 4 3) 1%float.
Proof.
  split; [reflexivity | split; [reflexivity | ]].
  exact (proj1 convert_walks_scale_table float binary64 1%float "day" "hr"
               VUndefined 4 3 eq_refl eq_refl).
Defined.

(** ** One activation of the search *)

Section StepFacts.

Context {num : Type} `{JSNumber num}.

Lemma unit_rank_name (r : nat) : r <= 7 -> unit_rank (unit_name r) = Some r.
Proof.
  intros Hr. do 8 (destruct r as [ | r]; [reflexivity | ]). lia.
Qed.

Lemma rescale_same (r : nat) (n : num) : rescale r r n = n.
Proof. unfold rescale. rewrite Nat.ltb_irrefl. reflexivity. Qed.

Lemma rescale_to_ms (r : nat) (n : num) :
  rescale r 0 n = fold_left (fun a i => nmul a (factor i)) (rev (seq 0 r)) n.
Proof.
  unfold rescale, ranks_down. destruct r as [ | r]; [reflexivity | ].
  cbn [Nat.ltb Nat.leb]. rewrite Nat.sub_0_r. reflexivity.
Qed.

Lemma rescale_finer (r : nat) (n : num) :
  rescale (S r) r n = nmul n (factor r).
Proof.
  unfold rescale, ranks_down.
  replace (Nat.ltb r (S r)) with true by (symmetry; apply Nat.ltb_lt; lia).
  replace (S r - r) with 1 by lia. reflexivity.
Qed.

Lemma rescale_coarser (r : nat) (n : num) :
  rescale r (S r) n = ndiv n (factor r).
Proof.
  unfold rescale, ranks_up.
  replace (Nat.ltb (S r) r) with false by (symmetry; apply Nat.ltb_ge; lia).
  replace (Nat.ltb r (S r)) with true by (symmetry; apply Nat.ltb_lt; lia).
  replace (S r - r) with 1 by lia. reflexivity.
Qed.

(** What one activation does on a recognized unit of rank [r]. *)
Lemma concise_step_unit (n : num) (u : string) (p : value num) (r : nat) :
  unit_rank u = Some r ->
  concise_step n (VStr u) p
  = let here := {| _duration := n; _unit := u;
                   _precision := constructed_precision p; _abbr := true |} in
    if nlt n (integer 1) then
      match r with
      | O => Ok (Return here)
      | S r' => Ok (Recurse (nmul n (factor r')) (VStr (unit_name r')) p)
      end
    else if nge n (factor r) then
      if Nat.leb 7 r then Ok (Return here)
      else Ok (Recurse (ndiv n (factor r)) (VStr (unit_name (S r))) VUndefined)
    else Ok (Return here).
Proof.
  intros Hu.
  assert (Hnew : new_Duration (VNum n) (VStr u) (precision_only p)
                 = {| _duration := n; _unit := u;
                      _precision := constructed_precision p; _abbr := true |}).
  { unfold new_Duration, precision_only.
    rewrite (unit_or_hr_unit (num := num) _ _ Hu).
    destruct p; reflexivity. }
  pose proof (unit_rank_le _ _ Hu) as Hr.
  destruct (unitRefs_lookup (num := num) r Hr) as (e & He & Hname).
  unfold concise_step. rewrite (rank_of_unit _ _ Hu). cbn [bind].
  unfold unitRefs_at at 1. rewrite He. cbn [bind].
  rewrite (factor_at _ _ He), Hnew. cbv zeta.
  destruct (nlt n (integer 1)).
  - destruct r as [ | r']; [reflexivity | ].
    cbn [rank_le Nat.leb option_map Nat.pred].
    destruct (unitRefs_lookup r') as (e' & He' & Hname'); [lia | ].
    unfold unitRefs_at. rewrite He'. cbn [bind].
    rewrite (convert_units n u (unit e') p (S r') r' Hu Hname'). cbn [bind].
    unfold Duration_prototype_duration, Duration_prototype_unit. cbn.
    rewrite rescale_finer. do 3 f_equal.
    clear - He' Hr. do 7 (destruct r' as [ | r']; [now inversion He' | ]). lia.
  - destruct (nge n (factor r)); [ | reflexivity].
    change (List.length unitRefs - 1) with 7. cbn [rank_le].
    destruct (Nat.leb_spec 7 r) as [Hge | Hlt]; [reflexivity | ].
    cbn [option_map].
    destruct (unitRefs_lookup (S r)) as (e' & He' & Hname'); [lia | ].
    unfold unitRefs_at. rewrite He'. cbn [bind].
    rewrite (convert_units n u (unit e') p r (S r) Hu Hname'). cbn [bind].
    unfold Duration_prototype_duration, Duration_prototype_unit. cbn.
    rewrite rescale_coarser. do 3 f_equal.
    clear - He' Hlt.
    do 7 (destruct r as [ | r]; [now inversion He' | ]). lia.
Qed.

Lemma rescale_finer_step (r du : nat) (n : num) :
  du <= r -> rescale (S r) du n = rescale r du (nmul n (factor r)).
Proof.
  intros Hd. unfold rescale at 1.
  replace (Nat.ltb du (S r)) with true by (symmetry; apply Nat.ltb_lt; lia).
  unfold ranks_down. replace (S r - du) with (S (r - du)) by lia.
  rewrite seq_S, rev_app_distr. cbn [rev app fold_left].
  replace (du + (r - du)) with r by lia.
  unfold rescale. destruct (Nat.ltb_spec du r) as [Hlt | Hge]; [reflexivity | ].
  replace (Nat.ltb r du) with false by (symmetry; apply Nat.ltb_ge; lia).
  replace (r - du) with 0 by lia. reflexivity.
Qed.

Lemma rescale_coarser_step (r k : nat) (n : num) :
  rescale r (r + S k) n = rescale (S r) (S r + k) (ndiv n (factor r)).
Proof.
  unfold rescale at 1.
  replace (Nat.ltb (r + S k) r) with false by (symmetry; apply Nat.ltb_ge; lia).
  replace (Nat.ltb r (r + S k)) with true by (symmetry; apply Nat.ltb_lt; lia).
  unfold ranks_up. replace (r + S k - r) with (S k) by lia.
  cbn [seq fold_left]. unfold rescale.
  replace (Nat.ltb (S r + k) (S r)) with false by (symmetry; apply Nat.ltb_ge; lia).
  destruct k as [ | k].
  - replace (Nat.ltb (S r) (S r + 0)) with false by (symmetry; apply Nat.ltb_ge; lia).
    reflexivity.
  - replace (Nat.ltb (S r) (S r + S k)) with true by (symmetry; apply Nat.ltb_lt; lia).
    unfold ranks_up. replace (S r + S k - S r) with (S k) by lia. reflexivity.
Qed.

Lemma took_recurse {k : nat} {n n' : num} {u u' : string} {p p' : value num}
    {d : Duration num} :
  concise_step n (VStr u) p = Ok (Recurse n' (VStr u') p') ->
  took k n' u' p' d -> took (S k) n u p d.
Proof.
  intros Hstep [Hsome Hnone]. split.
  - change (Duration_concise (S (S k)) n (VStr u) p)
      with (match concise_step n (VStr u) p with
            | TypeError => Some TypeError
            | Ok (Return d) => Some (Ok d)
            | Ok (Recurse n' u' p') => Duration_concise (S k) n' u' p'
            end).
    rewrite Hstep. exact Hsome.
  - cbn [Duration_concise]. rewrite Hstep. exact Hnone.
Qed.

Lemma took_return (n : num) (u : string) (p : value num) (d : Duration num) :
  concise_step n (VStr u) p = Ok (Return d) -> took 0 n u p d.
Proof.
  intros Hstep. split; [ | reflexivity].
  cbn [Duration_concise]. rewrite Hstep. reflexivity.
Qed.

Lemma concise_more_fuel (fuel extra : nat) (n : num) (u p : value num)
    (x : res (Duration num)) :
  Duration_concise fuel n u p = Some x ->
  Duration_concise (fuel + extra) n u p = Some x.
Proof.
  revert n u p. induction fuel as [ | fuel IH]; intros n u p; [discriminate | ].
  cbn [Duration_concise Nat.add].
  destruct (concise_step n u p) as [[d | n' u' p'] | ]; auto.
Qed.

Lemma concise_less_fuel (fuel less : nat) (n : num) (u p : value num) :
  Duration_concise fuel n u p = None -> (less <= fuel) ->
  Duration_concise less n u p = None.
Proof.
  intros Hnone Hle.
  destruct (Duration_concise less n u p) as [x | ] eqn:Hless; [ | reflexivity].
  apply concise_more_fuel with (extra := (fuel - less)) in Hless.
  replace (less + (fuel - less)) with fuel in Hless by lia. congruence.
Qed.

Lemma took_fuel {k : nat} {n : num} {u : string} {p : value num} {d : Duration num} :
  took k n u p d ->
  forall fuel : nat,
    (k < fuel) -> Duration_concise fuel n (VStr u) p = Some (Ok d).
Proof.
  intros [Hsome _] fuel Hlt.
  replace fuel with (S k + (fuel - S k)) by lia.
  apply concise_more_fuel. exact Hsome.
Qed.

End StepFacts.


(** ** A search that only moves finer

    Any class of numbers that lies below 1 and is closed under
    multiplication by the scale factors is carried down to milliseconds,
    one rank per recursive call. *)

Section FinerOnly.

Context {num : Type} `{JSNumber num}.

Variable below : num -> Prop.

Hypothesis below_lt_1 : forall x : num, below x -> nlt x (integer 1) = true.

Hypothesis below_times :
  forall (x : num) (r : nat), r < 7 -> below x -> below (nmul x (factor r)).

Lemma search_finer_only (r : nat) :
  forall (u : string) (n : num) (p : value num),
    unit_rank u = Some r -> below n ->
    took r n u p {| _duration := rescale r 0 n; _unit := "ms";
                    _precision := constructed_precision p; _abbr := true |}.
Proof.
  induction r as [ | r IH]; intros u n p Hu Hn.
  - apply took_return. rewrite (concise_step_unit n u p 0 Hu). cbv zeta.
    rewrite (below_lt_1 n Hn), rescale_same.
    rewrite <- (unit_name_rank _ _ Hu). reflexivity.
  - pose proof (unit_rank_le _ _ Hu) as Hr.
    assert (Hname : unit_rank (unit_name r) = Some r)
      by (apply unit_rank_name; lia).
    rewrite rescale_finer_step by lia.
    refine (took_recurse _ (IH (unit_name r) (nmul n (factor r)) p Hname _)).
    + rewrite (concise_step_unit n u p (S r) Hu). cbv zeta.
      rewrite (below_lt_1 n Hn). reflexivity.
    + apply below_times; [lia | exact Hn].
Qed.

End FinerOnly.

(** ** A search in both directions

    The search never turns back in any arithmetic where a value below 1,
    multiplied by a factor, stays below that factor, and a value that is
    at least a factor, divided by it, is not below 1. *)

Section TwoWaySearch.

Context {num : Type} `{JSNumber num}.

Hypothesis finer_stays_below :
  forall (x : num) (r : nat),
    r < 7 -> nlt x (integer 1) = true ->
    nge (nmul x (factor r)) (factor r) = false.

Hypothesis coarser_stays_above :
  forall (x : num) (r : nat),
    r < 7 -> nge x (factor r) = true ->
    nlt (ndiv x (factor r)) (integer 1) = false.

(** Below 1 the search only ever moves to finer units. *)
Lemma search_finer (r : nat) :
  forall (u : string) (n : num) (p : value num),
    unit_rank u = Some r -> nlt n (integer 1) = true ->
    exists (k : nat) (d : Duration num),
      k <= r /\ took k n u p d
      /\ _unit d = unit_name (r - k)
      /\ _duration d = rescale r (r - k) n
      /\ _precision d = constructed_precision p
      /\ ((k = r /\ nlt (_duration d) (integer 1) = true)
          \/ (nlt (_duration d) (integer 1) = false
              /\ nge (_duration d) (factor (r - k)) = false)).
Proof.
  induction r as [ | r IH]; intros u n p Hu Hn.
  - exists 0. eexists. split; [lia | ]. split.
    + apply took_return. rewrite (concise_step_unit n u p 0 Hu). cbv zeta.
      rewrite Hn. reflexivity.
    + cbn [_unit _duration _precision]. change (0 - 0) with 0.
      rewrite (unit_name_rank _ _ Hu), rescale_same.
      repeat split; try reflexivity. left. split; [reflexivity | exact Hn].
  - pose proof (unit_rank_le _ _ Hu) as Hr.
    assert (Hstep : concise_step n (VStr u) p
                    = Ok (Recurse (nmul n (factor r)) (VStr (unit_name r)) p)).
    { rewrite (concise_step_unit n u p (S r) Hu). cbv zeta.
      rewrite Hn. reflexivity. }
    assert (Hname : unit_rank (unit_name r) = Some r)
      by (apply unit_rank_name; lia).
    destruct (nlt (nmul n (factor r)) (integer 1)) eqn:Hlt.
    + destruct (IH (unit_name r) (nmul n (factor r)) p Hname Hlt)
        as (k & d & Hk & Htook & Hud & Hdd & Hpd & Hend).
      exists (S k), d. split; [lia | ].
      split; [exact (took_recurse Hstep Htook) | ].
      replace (S r - S k) with (r - k) by lia.
      repeat split; try assumption.
      * rewrite Hdd. symmetry. apply rescale_finer_step. lia.
      * destruct Hend as [[-> Hd] | Hd]; [left | right]; auto.
    + exists 1. eexists. split; [lia | ]. split.
      * apply (took_recurse Hstep). apply took_return.
        rewrite (concise_step_unit _ _ p r Hname). cbv zeta.
        rewrite Hlt, (finer_stays_below n r ltac:(lia) Hn). reflexivity.
      * cbn [_unit _duration _precision]. replace (S r - 1) with r by lia.
        repeat split; try reflexivity.
        -- rewrite rescale_finer_step, rescale_same by lia. reflexivity.
        -- right. split; [exact Hlt | ].
           apply finer_stays_below; [lia | exact Hn].
Qed.

(** From 1 upward the search only ever moves to coarser units, and drops
    the caller's precision as soon as it moves. *)
Lemma search_coarser (m : nat) :
  forall (r : nat) (u : string) (n : num) (p : value num),
    r + m = 7 -> unit_rank u = Some r -> nlt n (integer 1) = false ->
    exists (k : nat) (d : Duration num),
      k <= m /\ took k n u p d
      /\ _unit d = unit_name (r + k)
      /\ _duration d = rescale r (r + k) n
      /\ _precision d
         = match k with O => constructed_precision p | S _ => integer 2 end
      /\ nlt (_duration d) (integer 1) = false
      /\ (r + k < 7 -> nge (_duration d) (factor (r + k)) = false).
Proof.
  induction m as [ | m IH]; intros r u n p Hrm Hu Hn.
  - assert (r = 7) as -> by lia.
    exists 0. eexists. split; [lia | ]. split.
    + apply took_return. rewrite (concise_step_unit n u p 7 Hu). cbv zeta.
      rewrite Hn. cbn [Nat.leb]. destruct (nge n (factor 7)); reflexivity.
    + cbn [_unit _duration _precision]. change (7 + 0) with 7.
      rewrite (unit_name_rank _ _ Hu), rescale_same.
      repeat split; try reflexivity; [assumption | lia].
  - destruct (nge n (factor r)) eqn:Hge.
    + assert (Hstep : concise_step n (VStr u) p
                      = Ok (Recurse (ndiv n (factor r))
                                    (VStr (unit_name (S r))) VUndefined)).
      { rewrite (concise_step_unit n u p r Hu). cbv zeta. rewrite Hn, Hge.
        replace (Nat.leb 7 r) with false by (symmetry; apply Nat.leb_gt; lia).
        reflexivity. }
      assert (Hname : unit_rank (unit_name (S r)) = Some (S r))
        by (apply unit_rank_name; lia).
      destruct (IH (S r) (unit_name (S r)) (ndiv n (factor r)) VUndefined
                   ltac:(lia) Hname
                   (coarser_stays_above n r ltac:(lia) Hge))
        as (k & d & Hk & Htook & Hud & Hdd & Hpd & Hlow & Hbound).
      exists (S k), d. split; [lia | ].
      split; [exact (took_recurse Hstep Htook) | ].
      replace (r + S k) with (S r + k) by lia.
      repeat split; try assumption.
      * rewrite Hdd. symmetry.
        replace (rescale r (S r + k) n) with (rescale r (r + S k) n)
          by (f_equal; lia).
        apply rescale_coarser_step.
      * rewrite Hpd. destruct k; reflexivity.
    + exists 0. eexists. split; [lia | ]. split.
      * apply took_return. rewrite (concise_step_unit n u p r Hu). cbv zeta.
        rewrite Hn, Hge. reflexivity.
      * cbn [_unit _duration _precision]. replace (r + 0) with r by lia.
        rewrite (unit_name_rank _ _ Hu), rescale_same.
        repeat split; try reflexivity; try assumption.
        intros _. assumption.
Qed.

(** Where any search ends. *)
Lemma search_outcome (n : num) (u : string) (p : value num) (r : nat) :
  unit_rank u = Some r ->
  exists (k : nat) (d : Duration num) (r' : nat),
    k <= 7 /\ took k n u p d
    /\ unit_rank (_unit d) = Some r'
    /\ ((k <= r /\ r' = r - k) \/ r' = r + k)
    /\ _duration d = rescale r r' n
    /\ (r' = 0 \/ r' = 7
        \/ (nlt (_duration d) (integer 1) = false
            /\ nge (_duration d) (factor r') = false)).
Proof.
  intros Hu. pose proof (unit_rank_le _ _ Hu) as Hr.
  destruct (nlt n (integer 1)) eqn:Hn.
  - destruct (search_finer r u n p Hu Hn)
      as (k & d & Hk & Htook & Hud & Hdd & _ & Hend).
    exists k, d, (r - k). split; [lia | ]. split; [exact Htook | ].
    split; [rewrite Hud; apply unit_rank_name; lia | ].
    split; [left; split; [exact Hk | reflexivity] | ].
    split; [exact Hdd | ].
    destruct Hend as [[-> _] | Hd]; [left; lia | right; right; exact Hd].
  - destruct (search_coarser (7 - r) r u n p ltac:(lia) Hu Hn)
      as (k & d & Hk & Htook & Hud & Hdd & _ & Hlow & Hbound).
    exists k, d, (r + k). split; [lia | ]. split; [exact Htook | ].
    split; [rewrite Hud; apply unit_rank_name; lia | ].
    split; [right; reflexivity | ].
    split; [exact Hdd | ].
    destruct (Nat.eq_dec (r + k) 7) as [Heq | Hne]; [right; left; exact Heq | ].
    right; right. split; [exact Hlow | apply Hbound; lia].
Qed.

Lemma search_ends_one_way (n : num) (u : string) (p : value num) (r : nat) :
  unit_rank u = Some r -> ends_one_way n u p r.
Proof.
  intros Hu.
  destruct (search_outcome n u p r Hu)
    as (k & d & r' & Hk & Htook & Hud & Hway & _).
  exists k, d. split; [exact Hk | ]. split; [exact (took_fuel Htook) | ].
  split; [intros fuel; apply (concise_less_fuel _ _ _ _ _ (proj2 Htook)) | ].
  destruct Hway as [[Hkr ->] | ->]; [left; split | right]; assumption.
Qed.

(** One move to a coarser unit is enough to lose the caller's precision;
    moves to finer units keep it. *)
Lemma concise_precision_coarser (n : num) (u : string) (p : value num)
    (r : nat) :
  unit_rank u = Some r -> r < 7 ->
  nlt n (integer 1) = false -> nge n (factor r) = true ->
  exists d : Duration num,
    Duration_concise 8 n (VStr u) p = Some (Ok d)
    /\ _precision d = integer 2.
Proof.
  intros Hu Hr Hn1 Hn.
  destruct (search_coarser (7 - r) r u n p ltac:(lia) Hu Hn1)
    as (k & d & Hk & Htook & _ & Hdd & Hpd & _ & Hbound).
  exists d. split; [apply (took_fuel Htook); lia | ].
  destruct k as [ | k]; [ | exact Hpd]. exfalso.
  replace (r + 0) with r in * by lia. rewrite rescale_same in Hdd.
  rewrite Hdd, Hn in Hbound. specialize (Hbound Hr). discriminate.
Qed.

Lemma concise_precision_finer (n : num) (u : string) (p : value num)
    (r : nat) :
  unit_rank u = Some r -> nlt n (integer 1) = true ->
  exists d : Duration num,
    Duration_concise 8 n (VStr u) p = Some (Ok d)
    /\ _precision d = constructed_precision p.
Proof.
  intros Hu Hn. pose proof (unit_rank_le _ _ Hu) as Hr.
  destruct (search_finer r u n p Hu Hn)
    as (k & d & Hk & Htook & _ & _ & Hpd & _).
  exists d. split; [apply (took_fuel Htook); lia | exact Hpd].
Qed.

End TwoWaySearch.

(** ** Exact arithmetic *)

Section Exact.

Local Open Scope Q_scope.

Lemma Qltb_lt (x y : Q) : Qltb x y = true <-> x < y.
Proof.
  unfold Qltb. rewrite negb_true_iff, <- not_true_iff_false, Qle_bool_iff.
  split; [apply Qnot_le_lt | apply Qlt_not_le].
Qed.

Lemma Qltb_ge (x y : Q) : Qltb x y = false <-> y <= x.
Proof.
  unfold Qltb. rewrite negb_false_iff, Qle_bool_iff. reflexivity.
Qed.

Lemma Qle_bool_lt (x y : Q) : Qle_bool x y = false <-> y < x.
Proof.
  rewrite <- not_true_iff_false, Qle_bool_iff.
  split; [apply Qnot_le_lt | apply Qlt_not_le].
Qed.

Lemma factor_exact_gt_1 (r : nat) : (r < 7)%nat -> 1 < factor (num := Q) r.
Proof.
  intros Hr. do 7 (destruct r as [ | r]; [reflexivity | ]). lia.
Qed.

Lemma factor_exact_pos (r : nat) : (r < 7)%nat -> 0 < factor (num := Q) r.
Proof.
  intros Hr. apply Qlt_trans with (y := 1); [reflexivity | ].
  apply factor_exact_gt_1, Hr.
Qed.

Lemma exact_finer_stays_below (x : Q) (r : nat) :
  (r < 7)%nat -> nlt x (integer 1) = true ->
  nge (nmul x (factor r)) (factor r) = false.
Proof.
  intros Hr Hx. apply (proj1 (Qltb_lt x 1)) in Hx.
  apply (proj2 (Qle_bool_lt (factor r) (x * factor r))).
  setoid_replace (factor (num := Q) r) with (1 * factor r) at 2 by ring.
  apply Qmult_lt_compat_r; [apply factor_exact_pos, Hr | exact Hx].
Qed.

Lemma exact_coarser_stays_above (x : Q) (r : nat) :
  (r < 7)%nat -> nge x (factor r) = true ->
  nlt (ndiv x (factor r)) (integer 1) = false.
Proof.
  intros Hr Hx. apply (proj1 (Qle_bool_iff (factor r) x)) in Hx.
  apply (proj2 (Qltb_ge (x / factor r) 1)).
  apply Qle_shift_div_l; [apply factor_exact_pos, Hr | ].
  rewrite Qmult_1_l. exact Hx.
Qed.

Lemma search_negative_exact (n : Q) (u : string) (p : value Q) (r : nat) :
  n < 0 -> unit_rank u = Some r -> carried_to_ms n u p r.
Proof.
  intros Hn Hu. pose proof (unit_rank_le _ _ Hu) as Hr.
  assert (Htook : took r n u p
                    {| _duration := rescale r 0 n; _unit := "ms";
                       _precision := constructed_precision p; _abbr := true |}).
  { apply (search_finer_only (fun x : Q => x < 0)).
    - intros x Hx. apply (proj2 (Qltb_lt x 1)).
      apply Qlt_trans with (1 := Hx). reflexivity.
    - intros x r' Hr' Hx.
      setoid_replace 0 with (0 * factor (num := Q) r') by ring.
      apply Qmult_lt_compat_r; [apply factor_exact_pos, Hr' | exact Hx].
    - exact Hu.
    - exact Hn. }
  eexists.
  split; [apply (took_fuel Htook); lia | ].
  split; [exact Htook | ].
  split; [reflexivity | ].
  apply rescale_to_ms.
Qed.

End Exact.

(** ** Rounding in binary64

    [binary_round_aux] truncates a mantissa to the precision of the format,
    rounds it by at most one unit and renormalizes it.  From that: a
    product never changes sign, a value below 1 times a factor rounds
    below the factor, and a value that is at least a factor, divided by
    it, rounds to at least 1. *)

Section Binary64.

Local Open Scope Z_scope.

(** *** Digits and shifts *)
Lemma digits2_pos_size (m : positive) : digits2_pos m = Pos.size m.
Proof. induction m as [m IH | m IH | ]; cbn; congruence. Qed.

Lemma Zdigits2_log2 (m : Z) : 0 < m -> Zdigits2 m = Z.log2 m + 1.
Proof.
  destruct m as [ | p | p]; try lia. intros _. cbn [Zdigits2].
  rewrite digits2_pos_size. destruct p as [p | p | ]; cbn; lia.
Qed.

Lemma Zdigits2_bounds (m : Z) :
  0 < m -> 2 ^ (Zdigits2 m - 1) <= m < 2 ^ Zdigits2 m.
Proof.
  intros Hm. rewrite (Zdigits2_log2 m Hm).
  replace (Z.log2 m + 1 - 1) with (Z.log2 m) by lia.
  pose proof (Z.log2_spec m Hm). lia.
Qed.

Lemma Zdigits2_unique (m d : Z) :
  0 < m -> 2 ^ (d - 1) <= m < 2 ^ d -> Zdigits2 m = d.
Proof.
  intros Hm Hd. rewrite (Zdigits2_log2 m Hm).
  assert (0 < d).
  { destruct (Z.ltb_spec 0 d) as [ | Hle]; [assumption | ].
    destruct (Z.eq_dec d 0) as [-> | ]; [cbn in Hd; lia | ].
    rewrite (Z.pow_neg_r 2 d) in Hd by lia. lia. }
  assert (Z.log2 m = d - 1); [ | lia].
  apply Z.log2_unique; [lia | ]. replace (Z.succ (d - 1)) with d by lia. exact Hd.
Qed.

Lemma Zdigits2_pos (m : Z) : 0 < m -> 0 < Zdigits2 m.
Proof. intros Hm. rewrite Zdigits2_log2 by assumption. pose proof (Z.log2_nonneg m). lia. Qed.

Lemma Zdigits2_div_pow2 (m n : Z) :
  0 < m -> 0 <= n < Zdigits2 m ->
  0 < m / 2 ^ n /\ Zdigits2 (m / 2 ^ n) = Zdigits2 m - n.
Proof.
  intros Hm Hn. pose proof (Zdigits2_bounds m Hm) as Hb.
  set (d := Zdigits2 m) in *.
  assert (Hp : 0 < 2 ^ n) by (apply Z.pow_pos_nonneg; lia).
  assert (Hlo : 2 ^ (d - n - 1) <= m / 2 ^ n).
  { apply Z.div_le_lower_bound; [lia | ].
    rewrite <- Z.pow_add_r by lia. replace (n + (d - n - 1)) with (d - 1) by lia. lia. }
  assert (Hhi : m / 2 ^ n < 2 ^ (d - n)).
  { apply Z.div_lt_upper_bound; [lia | ].
    rewrite <- Z.pow_add_r by lia. replace (n + (d - n)) with d by lia. lia. }
  assert (0 < 2 ^ (d - n - 1)) by (apply Z.pow_pos_nonneg; lia).
  split; [lia | ]. apply Zdigits2_unique; lia.
Qed.


Lemma shr_1_m (mrs : shr_record) :
  0 <= shr_m mrs -> shr_m (shr_1 mrs) = shr_m mrs / 2.
Proof.
  destruct mrs as [m r s]. cbn [shr_m]. intros Hm.
  destruct m as [ | [q | q | ] | q]; try lia; cbn [shr_1 shr_m].
  - reflexivity.
  - rewrite Pos2Z.inj_xI. apply Z.div_unique with (r := 1); lia.
  - rewrite Pos2Z.inj_xO. apply Z.div_unique with (r := 0); lia.
  - reflexivity.
Qed.

Lemma shr_1_exact (mrs : shr_record) :
  0 <= shr_m mrs -> shr_r mrs = false -> shr_s mrs = false ->
  shr_m mrs mod 2 = 0 ->
  shr_r (shr_1 mrs) = false /\ shr_s (shr_1 mrs) = false.
Proof.
  destruct mrs as [m r s]. cbn [shr_m shr_r shr_s]. intros Hm -> -> Hev.
  destruct m as [ | [q | q | ] | q]; try lia; cbn [shr_1 shr_r shr_s orb];
    try (split; reflexivity).
  - rewrite Pos2Z.inj_xI in Hev.
    replace (2 * Z.pos q + 1) with (1 + Z.pos q * 2) in Hev by lia.
    rewrite Z.mod_add in Hev by lia. cbn in Hev. lia.
  - cbn in Hev. lia.
Qed.

Lemma pow2_xO (p : positive) : 2 ^ Z.pos p~0 = 2 ^ Z.pos p * 2 ^ Z.pos p.
Proof. rewrite <- Z.pow_add_r by lia. f_equal. lia. Qed.

Lemma pow2_xI (p : positive) : 2 ^ Z.pos p~1 = 2 * (2 ^ Z.pos p * 2 ^ Z.pos p).
Proof.
  rewrite <- Z.pow_add_r, <- Z.pow_succ_r by lia. f_equal. lia.
Qed.

Lemma iter_pos_shr_1_m (p : positive) :
  forall mrs : shr_record,
    0 <= shr_m mrs ->
    shr_m (iter_pos shr_1 p mrs) = shr_m mrs / 2 ^ Z.pos p.
Proof.
  induction p as [p IH | p IH | ]; intros mrs Hm; cbn [iter_pos].
  - assert (H1 : 0 <= shr_m (shr_1 mrs)) by (rewrite shr_1_m by lia; apply Z.div_pos; lia).
    assert (H2 : 0 <= shr_m (iter_pos shr_1 p (shr_1 mrs)))
      by (rewrite IH by lia; apply Z.div_pos; [lia | apply Z.pow_pos_nonneg; lia]).
    rewrite IH, IH, shr_1_m by lia.
    rewrite !Z.div_div by (try lia; apply Z.pow_pos_nonneg; lia).
    rewrite pow2_xI. reflexivity.
  - assert (H2 : 0 <= shr_m (iter_pos shr_1 p mrs))
      by (rewrite IH by lia; apply Z.div_pos; [lia | apply Z.pow_pos_nonneg; lia]).
    rewrite IH, IH by lia.
    rewrite !Z.div_div by (try lia; apply Z.pow_pos_nonneg; lia).
    rewrite pow2_xO. reflexivity.
  - rewrite shr_1_m by lia. reflexivity.
Qed.

Lemma iter_pos_shr_1_exact (p : positive) :
  forall mrs : shr_record,
    0 <= shr_m mrs -> shr_r mrs = false -> shr_s mrs = false ->
    (2 ^ Z.pos p | shr_m mrs) ->
    shr_r (iter_pos shr_1 p mrs) = false /\ shr_s (iter_pos shr_1 p mrs) = false.
Proof.
  induction p as [p IH | p IH | ]; intros mrs Hm Hr Hs [k Hk]; cbn [iter_pos].
  - rewrite pow2_xI in Hk.
    assert (Hp : 0 < 2 ^ Z.pos p) by (apply Z.pow_pos_nonneg; lia).
    destruct (shr_1_exact mrs Hm Hr Hs) as [Hr1 Hs1].
    { rewrite Hk. replace (k * (2 * (2 ^ Z.pos p * 2 ^ Z.pos p)))
        with (k * 2 ^ Z.pos p * 2 ^ Z.pos p * 2) by lia.
      apply Z.mod_mul. lia. }
    assert (Hm1 : shr_m (shr_1 mrs) = k * 2 ^ Z.pos p * 2 ^ Z.pos p).
    { rewrite shr_1_m by lia. rewrite Hk.
      replace (k * (2 * (2 ^ Z.pos p * 2 ^ Z.pos p)))
        with (k * 2 ^ Z.pos p * 2 ^ Z.pos p * 2) by lia.
      apply Z.div_mul. lia. }
    assert (Hk0 : 0 <= k) by nia.
    destruct (IH (shr_1 mrs)) as [Hr2 Hs2]; try assumption.
    { rewrite Hm1. nia. }
    { exists (k * 2 ^ Z.pos p). exact Hm1. }
    apply IH; try assumption.
    + rewrite iter_pos_shr_1_m, Hm1 by (rewrite Hm1; nia).
      rewrite Z.div_mul by lia. nia.
    + rewrite iter_pos_shr_1_m, Hm1 by (rewrite Hm1; nia).
      rewrite Z.div_mul by lia. exists k. reflexivity.
  - rewrite pow2_xO in Hk.
    assert (Hp : 0 < 2 ^ Z.pos p) by (apply Z.pow_pos_nonneg; lia).
    assert (Hk0 : 0 <= k) by nia.
    destruct (IH mrs) as [Hr2 Hs2]; try assumption.
    { exists (k * 2 ^ Z.pos p). lia. }
    apply IH; try assumption.
    + rewrite iter_pos_shr_1_m by lia. apply Z.div_pos; lia.
    + rewrite iter_pos_shr_1_m, Hk by lia.
      replace (k * (2 ^ Z.pos p * 2 ^ Z.pos p)) with (k * 2 ^ Z.pos p * 2 ^ Z.pos p) by lia.
      rewrite Z.div_mul by lia. exists k. reflexivity.
  - apply shr_1_exact; try assumption.
    change (2 ^ 1) with 2 in Hk. rewrite Hk. apply Z.mod_mul. lia.
Qed.


Lemma shr_fexp_spec (m e : Z) (l : location) :
  0 <= m ->
  shr_m (fst (shr_fexp prec emax m e l)) = m / 2 ^ shift_count m e
  /\ snd (shr_fexp prec emax m e l) = e + shift_count m e
  /\ (l = loc_Exact -> (2 ^ shift_count m e | m) ->
      loc_of_shr_record (fst (shr_fexp prec emax m e l)) = loc_Exact).
Proof.
  intros Hm. unfold shr_fexp, shr, shift_count.
  assert (H0 : shr_m (shr_record_of_loc m l) = m)
    by (destruct l as [ | [ | | ]]; reflexivity).
  destruct (fexp prec emax (Zdigits2 m + e) - e) as [ | p | p] eqn:Hn;
    cbn [fst snd].
  - rewrite H0. change (Z.max 0 0) with 0. rewrite Z.div_1_r.
    repeat split; [lia | ]. intros -> _. reflexivity.
  - replace (Z.max 0 (Z.pos p)) with (Z.pos p) by lia.
    rewrite iter_pos_shr_1_m, H0 by lia.
    repeat split. intros -> Hdiv.
    destruct (iter_pos_shr_1_exact p (shr_record_of_loc m loc_Exact))
      as [Hr Hs]; try reflexivity; try assumption.
    destruct (iter_pos shr_1 p (shr_record_of_loc m loc_Exact)) as [m' r' s'].
    cbn [shr_r shr_s] in Hr, Hs. subst. reflexivity.
  - rewrite H0. replace (Z.max 0 (Z.neg p)) with 0 by lia. rewrite Z.div_1_r.
    repeat split; [lia | ]. intros -> _. reflexivity.
Qed.

Lemma round_nearest_even_range (m : Z) (l : location) :
  m <= round_nearest_even m l <= m + 1
  /\ (l = loc_Exact -> round_nearest_even m l = m).
Proof.
  split; [ | intros ->; reflexivity].
  destruct l as [ | [ | | ]]; cbn [round_nearest_even]; try lia.
  destruct (Z.even m); lia.
Qed.


Lemma binary_round_aux_spec (s : bool) (mx ex : Z) (lx : location) :
  0 <= mx ->
  exists t' : Z,
    mx / 2 ^ shift_count mx ex <= t' <= mx / 2 ^ shift_count mx ex + 1
    /\ (lx = loc_Exact -> (2 ^ shift_count mx ex | mx) ->
        t' = mx / 2 ^ shift_count mx ex)
    /\ binary_round_aux prec emax s mx ex lx
       = pack s (renorm t' (ex + shift_count mx ex)).
Proof.
  intros Hm. unfold binary_round_aux.
  destruct (shr_fexp_spec mx ex lx Hm) as (H1m & H1e & H1x).
  destruct (shr_fexp prec emax mx ex lx) as [mrs' e']. cbn [fst snd] in *.
  destruct (round_nearest_even_range (shr_m mrs') (loc_of_shr_record mrs'))
    as [Hrange Hexact].
  exists (round_nearest_even (shr_m mrs') (loc_of_shr_record mrs')).
  rewrite <- H1m. split; [exact Hrange | ].
  split; [intros Hl Hd; apply Hexact, H1x; assumption | ].
  assert (Ht : 0 <= round_nearest_even (shr_m mrs') (loc_of_shr_record mrs')).
  { assert (0 <= shr_m mrs'); [ | lia]. rewrite H1m. apply Z.div_pos; [lia | ].
    apply Z.pow_pos_nonneg; unfold shift_count; lia. }
  destruct (shr_fexp_spec _ e' loc_Exact Ht) as (H2m & H2e & _).
  destruct (shr_fexp prec emax
              (round_nearest_even (shr_m mrs') (loc_of_shr_record mrs'))
              e' loc_Exact) as [mrs'' e''].
  cbn [fst snd] in *. unfold pack, renorm. cbn [fst snd].
  rewrite <- H1e, <- H2m, <- H2e. reflexivity.
Qed.

Lemma fexp_binary64 (k : Z) : fexp prec emax k = Z.max (k - 53) (-1074).
Proof. reflexivity. Qed.

Lemma pow2_succ (d : Z) : 0 <= d -> 2 ^ (d + 1) = 2 * 2 ^ d.
Proof. intros Hd. rewrite Z.pow_add_r by lia. change (2 ^ 1) with 2. lia. Qed.

(** Renormalizing a rounded mantissa [t'] next to a canonical [(t, e)]. *)
Lemma renorm_spec (t e t' : Z) :
  0 < t ->
  fexp prec emax (Zdigits2 t + e) = e ->
  t <= t' <= t + 1 ->
  exists m2 e2 : Z,
    renorm t' e = (m2, e2)
    /\ 0 < m2 < 2 ^ 53
    /\ ((m2 = t' /\ e2 = e) \/ (t' = 2 ^ 53 /\ m2 = 2 ^ 52 /\ e2 = e + 1)).
Proof.
  intros Ht Hc Ht'. pose proof (Zdigits2_bounds t Ht) as Hb.
  pose proof (Zdigits2_pos t Ht) as Hd.
  set (d := Zdigits2 t) in *. rewrite fexp_binary64 in Hc.
  assert (Hd53 : d <= 53) by lia.
  assert (Hpow : 2 ^ d <= 2 ^ 53) by (apply Z.pow_le_mono_r; lia).
  unfold renorm, shift_count.
  destruct (Z.ltb_spec t' (2 ^ d)) as [Hlt | Hge].
  - assert (Hd' : Zdigits2 t' = d) by (apply Zdigits2_unique; lia).
    rewrite Hd', fexp_binary64.
    replace (Z.max 0 (Z.max (d + e - 53) (-1074) - e)) with 0 by lia.
    rewrite Z.div_1_r. exists t', e.
    split; [f_equal; lia | ]. split; [lia | left; split; reflexivity].
  - assert (Heq : t' = 2 ^ d) by lia.
    assert (Hd' : Zdigits2 t' = d + 1).
    { apply Zdigits2_unique; [lia | ].
      replace (d + 1 - 1) with d by lia. rewrite pow2_succ by lia. lia. }
    rewrite Hd', fexp_binary64.
    destruct (Z.eq_dec d 53) as [H53 | Hn53].
    + replace (Z.max 0 (Z.max (d + 1 + e - 53) (-1074) - e)) with 1 by lia.
      exists (2 ^ 52), (e + 1). rewrite Heq, H53.
      split; [reflexivity | ]. split; [lia | right; repeat split].
    + replace (Z.max 0 (Z.max (d + 1 + e - 53) (-1074) - e)) with 0 by lia.
      rewrite Z.div_1_r. exists t', e.
      split; [f_equal; lia | ].
      assert (2 ^ d < 2 ^ 53) by (apply Z.pow_lt_mono_r; lia).
      split; [lia | left; split; reflexivity].
Qed.

(** Truncation of a mantissa by the first shift, when there is one. *)
Lemma first_shift_canonical (mx ex : Z) :
  0 < mx ->
  ex <= fexp prec emax (Zdigits2 mx + ex) ->
  fexp prec emax (Zdigits2 mx + ex) - ex < Zdigits2 mx ->
  let n := shift_count mx ex in
  0 <= n
  /\ 0 < mx / 2 ^ n
  /\ fexp prec emax (Zdigits2 (mx / 2 ^ n) + (ex + n)) = ex + n.
Proof.
  intros Hm H1 H2 n. unfold shift_count in n.
  assert (Hn : n = fexp prec emax (Zdigits2 mx + ex) - ex) by (subst n; lia).
  destruct (Zdigits2_div_pow2 mx n Hm) as [Hpos Hdig]; [lia | ].
  split; [lia | ]. split; [exact Hpos | ].
  rewrite Hdig. replace (Zdigits2 mx - n + (ex + n)) with (Zdigits2 mx + ex) by lia.
  lia.
Qed.

Lemma pow2_lt_inv (a b : Z) : 0 <= b -> 2 ^ a < 2 ^ b -> a < b.
Proof.
  intros Hb Hlt. destruct (Z.ltb_spec a b) as [ | Hge]; [assumption | ].
  assert (2 ^ b <= 2 ^ a) by (apply Z.pow_le_mono_r; lia). lia.
Qed.

Lemma pack_finite (s : bool) (m2 e2 : Z) :
  0 < m2 -> e2 <= 971 ->
  exists p : positive, Z.pos p = m2 /\ pack s (m2, e2) = S754_finite s p e2.
Proof.
  intros Hm He. destruct m2 as [ | p | p]; try lia.
  exists p. split; [reflexivity | ]. unfold pack. cbn [fst snd].
  replace (e2 <=? emax - prec) with true; [reflexivity | ].
  symmetry. apply Z.leb_le. exact He.
Qed.

(** The product of a value at most [1 - 2^-52] and a normal number [f]
    rounds to a number below [f]. *)
Lemma mul_below (m mf : positive) (e ef : Z) :
  fexp prec emax (Z.pos (digits2_pos m) + e) = e ->
  e <= -53 ->
  Z.pos m + 2 ^ (- e - 52) <= 2 ^ (- e) ->
  2 ^ 52 <= Z.pos mf < 2 ^ 53 ->
  -52 <= ef <= 971 ->
  exists (m2 : positive) (e2 : Z),
    binary_round_aux prec emax false (Z.pos (m * mf)) (e + ef) loc_Exact
    = S754_finite false m2 e2
    /\ (e2 < ef \/ (e2 = ef /\ Z.pos m2 < Z.pos mf)).
Proof.
  intros Hc He Hm Hmf Hef.
  set (a := - e) in *.
  change (Z.pos (digits2_pos m)) with (Zdigits2 (Z.pos m)) in Hc.
  pose proof (Zdigits2_bounds (Z.pos m) ltac:(lia)) as Hbm.
  pose proof (Zdigits2_pos (Z.pos m) ltac:(lia)) as Hdm0.
  set (dm := Zdigits2 (Z.pos m)) in *.
  rewrite fexp_binary64 in Hc.
  assert (Hdm53 : dm <= 53) by lia.
  assert (He1074 : -1074 <= e) by lia.
  assert (Hpa : 0 < 2 ^ (a - 52)) by (apply Z.pow_pos_nonneg; lia).
  assert (Hdma : dm <= a).
  { assert (dm - 1 < a); [ | lia]. apply pow2_lt_inv; lia. }
  rewrite Pos2Z.inj_mul.
  set (P := Z.pos m * Z.pos mf).
  assert (HP0 : 0 < P) by (subst P; lia).
  pose proof (Zdigits2_bounds P HP0) as HbP.
  pose proof (Zdigits2_pos P HP0) as HdP0.
  set (dP := Zdigits2 P) in *.
  assert (Hplo : 0 < 2 ^ (dm - 1)) by (apply Z.pow_pos_nonneg; lia).
  assert (HdPlo : dm + 52 <= dP).
  { assert (dm + 51 < dP); [ | lia]. apply pow2_lt_inv; [lia | ].
    replace (dm + 51) with (dm - 1 + 52) by lia. rewrite Z.pow_add_r by lia.
    subst P. nia. }
  assert (HdPhi : dP <= dm + 53).
  { assert (dP - 1 < dm + 53); [ | lia]. apply pow2_lt_inv; [lia | ].
    rewrite Z.pow_add_r by lia. subst P.
    assert (0 < 2 ^ dm) by (apply Z.pow_pos_nonneg; lia). nia. }
  set (E := e + ef) in *.
  assert (H1 : E <= fexp prec emax (dP + E)) by (rewrite fexp_binary64; lia).
  assert (H2 : fexp prec emax (dP + E) - E < dP)
    by (rewrite fexp_binary64; subst E a; lia).
  destruct (first_shift_canonical P E HP0 H1 H2) as (Hn0 & Ht0 & Hcan).
  fold dP in Hcan.
  assert (Hn : shift_count P E = fexp prec emax (dP + E) - E)
    by (unfold shift_count; fold dP; lia).
  set (n := shift_count P E) in *.
  set (e1 := E + n) in *.
  assert (He1 : e1 <= ef) by (subst e1; rewrite Hn, fexp_binary64; subst E a; lia).
  destruct (binary_round_aux_spec false P E loc_Exact ltac:(lia))
    as (t' & Hrange & Hexact & HR).
  fold n in Hrange, Hexact, HR. fold e1 in HR.
  set (t := P / 2 ^ n) in *.
  assert (Hpn : 0 < 2 ^ n) by (apply Z.pow_pos_nonneg; lia).
  assert (Hpk : 0 < 2 ^ (ef - e1)) by (apply Z.pow_pos_nonneg; lia).
  assert (Ha : 2 ^ a = 2 ^ (ef - e1) * 2 ^ n).
  { rewrite <- Z.pow_add_r by lia. f_equal. subst e1 E a. lia. }
  assert (Ha52 : 2 ^ a = 2 ^ (a - 52) * 2 ^ 52).
  { rewrite <- Z.pow_add_r by lia. f_equal. lia. }
  assert (HPK : P <= (Z.pos mf - 1) * 2 ^ (ef - e1) * 2 ^ n).
  { subst P. nia. }
  assert (Ht'K : t' <= (Z.pos mf - 1) * 2 ^ (ef - e1)).
  { assert (HtK : t <= (Z.pos mf - 1) * 2 ^ (ef - e1)).
    { subst t. apply Z.div_le_upper_bound; lia. }
    destruct (Z.eq_dec t ((Z.pos mf - 1) * 2 ^ (ef - e1))) as [Heq | Hne];
      [ | lia].
    assert (Hexact' : t' = t); [ | lia].
    apply Hexact; [reflexivity | ].
    exists t.
    pose proof (Z.mul_div_le P (2 ^ n) Hpn) as Hle. fold t in Hle.
    rewrite Heq in *. lia. }
  destruct (renorm_spec t e1 t' Ht0 Hcan Hrange)
    as (m2 & e2 & Hren & Hm2 & Hcases).
  rewrite HR, Hren.
  assert (He2 : e2 <= ef).
  { destruct Hcases as [[_ ->] | (Ht53 & _ & ->)]; [exact He1 | ].
    destruct (Z.eq_dec e1 ef) as [Heq | Hne]; [ | lia].
    rewrite Heq, Z.sub_diag in Ht'K. change (2 ^ 0) with 1 in Ht'K. lia. }
  destruct (pack_finite false m2 e2 ltac:(lia) ltac:(lia)) as (p & Hp & Hpack).
  exists p, e2. split; [exact Hpack | ].
  destruct (Z.eq_dec e2 ef) as [Heq | Hne]; [right | left; lia].
  split; [exact Heq | ]. rewrite Hp.
  destruct Hcases as [[-> He2e1] | (Ht53 & -> & He2e1)].
  - assert (e1 = ef) by lia. subst e1.
    replace (ef - (E + n)) with 0 in Ht'K by lia.
    change (2 ^ 0) with 1 in Ht'K. lia.
  - replace (ef - e1) with 1 in Ht'K by lia. change (2 ^ 1) with 2 in Ht'K.
    lia.
Qed.

Lemma pack_finite_or_infinity (s : bool) (m2 e2 : Z) :
  0 < m2 ->
  pack s (m2, e2) = S754_infinity s
  \/ exists p : positive, Z.pos p = m2 /\ pack s (m2, e2) = S754_finite s p e2.
Proof.
  intros Hm. destruct m2 as [ | p | p]; try lia. unfold pack. cbn [fst snd].
  destruct (e2 <=? emax - prec); [right | left; reflexivity].
  exists p. split; reflexivity.
Qed.

(** The quotient of a normal number by a smaller or equal normal number
    rounds to a number that is at least 1. *)
Lemma div_above (mx mf : positive) (ex ef : Z) :
  2 ^ 52 <= Z.pos mx < 2 ^ 53 ->
  2 ^ 52 <= Z.pos mf < 2 ^ 53 ->
  ef < ex \/ (ef = ex /\ Z.pos mf <= Z.pos mx) ->
  let '(mz, ez, lz) := SFdiv_core_binary prec emax (Z.pos mx) ex (Z.pos mf) ef in
  binary_round_aux prec emax false mz ez lz = S754_infinity false
  \/ exists (m2 : positive) (e2 : Z),
       binary_round_aux prec emax false mz ez lz = S754_finite false m2 e2
       /\ (-52 < e2 \/ (e2 = -52 /\ 2 ^ 52 <= Z.pos m2)).
Proof.
  intros Hmx Hmf Hord.
  assert (Hdx : Zdigits2 (Z.pos mx) = 53) by (apply Zdigits2_unique; lia).
  assert (Hdf : Zdigits2 (Z.pos mf) = 53) by (apply Zdigits2_unique; lia).
  unfold SFdiv_core_binary. rewrite Hdx, Hdf, fexp_binary64.
  set (delta := ex - ef) in *.
  assert (Hdelta : 0 <= delta) by (subst delta; lia).
  replace (53 + ex - (53 + ef)) with delta by (subst delta; lia).
  replace (Z.min (Z.max (delta - 53) (-1074)) delta) with (delta - 53) by lia.
  replace (delta - (delta - 53)) with 53 by lia.
  rewrite Z.shiftl_mul_pow2 by lia.
  set (N := Z.pos mx * 2 ^ 53).
  pose proof (Z_div_mod N (Z.pos mf) ltac:(lia)) as Hdm.
  unfold Z.div, Z.modulo in *.
  destruct (Z.div_eucl N (Z.pos mf)) as [q r] eqn:Hqr.
  destruct Hdm as [HN Hr].
  assert (Hq52 : 2 ^ 52 <= q) by (subst N; nia).
  assert (Hq54 : q < 2 ^ 54) by (subst N; nia).
  assert (Hq0 : 0 < q) by lia.
  pose proof (Zdigits2_bounds q Hq0) as Hbq.
  pose proof (Zdigits2_pos q Hq0) as Hdq0.
  set (dq := Zdigits2 q) in *.
  assert (Hdq : dq = 53 \/ dq = 54).
  { assert (52 < dq) by (apply pow2_lt_inv; lia).
    assert (dq - 1 < 54) by (apply pow2_lt_inv; lia). lia. }
  set (E := delta - 53) in *.
  assert (H1 : E <= fexp prec emax (dq + E)) by (rewrite fexp_binary64; lia).
  assert (H2 : fexp prec emax (dq + E) - E < dq) by (rewrite fexp_binary64; lia).
  destruct (first_shift_canonical q E Hq0 H1 H2) as (Hn0 & Ht0 & Hcan).
  assert (Hn : shift_count q E = dq - 53)
    by (unfold shift_count; fold dq; rewrite fexp_binary64; lia).
  rewrite Hn in *.
  set (t := q / 2 ^ (dq - 53)) in *.
  set (e1 := E + (dq - 53)) in *.
  assert (Ht52 : 2 ^ 52 <= t).
  { subst t. destruct Hdq as [-> | ->].
    - change (2 ^ (53 - 53)) with 1. rewrite Z.div_1_r. exact Hq52.
    - change (2 ^ (54 - 53)) with 2.
      apply Z.div_le_lower_bound; [lia | ].
      change (2 ^ (54 - 1)) with (2 ^ 53) in Hbq. lia. }
  assert (He1 : -52 <= e1).
  { subst e1 E. destruct Hdq as [Hd | Hd]; [ | lia].
    destruct (Z.eq_dec delta 0) as [Hz | ]; [ | lia].
    exfalso. assert (Z.pos mf <= Z.pos mx) by (subst delta; lia).
    assert (2 ^ 53 <= q) by (subst N; nia).
    rewrite Hd in Hbq. lia. }
  destruct (binary_round_aux_spec false q E (new_location (Z.pos mf) r)
              ltac:(lia)) as (t' & Hrange & _ & HR).
  rewrite Hn in *. fold t in Hrange. fold e1 in HR.
  destruct (renorm_spec t e1 t' Ht0 Hcan Hrange)
    as (m2 & e2 & Hren & Hm2 & Hcases).
  rewrite HR, Hren.
  destruct (pack_finite_or_infinity false m2 e2 ltac:(lia))
    as [Hinf | (p & Hp & Hfin)]; [left; exact Hinf | right].
  exists p, e2. split; [exact Hfin | ]. rewrite Hp.
  destruct Hcases as [[-> ->] | (_ & -> & ->)]; lia.
Qed.

(** *** From the specification to the primitive operations *)

Lemma canonical_of_valid (s : bool) (m : positive) (e : Z) :
  valid_binary (S754_finite s m e) = true ->
  fexp prec emax (Z.pos (digits2_pos m) + e) = e.
Proof.
  cbn [SpecFloat.valid_binary]. unfold bounded, canonical_mantissa.
  intros H. apply andb_prop in H. destruct H as [H _]. apply Z.eqb_eq, H.
Qed.

Lemma normal_of_canonical (m : positive) (e : Z) :
  fexp prec emax (Z.pos (digits2_pos m) + e) = e ->
  -1074 < e -> 2 ^ 52 <= Z.pos m < 2 ^ 53.
Proof.
  intros Hc He. change (Z.pos (digits2_pos m)) with (Zdigits2 (Z.pos m)) in Hc.
  rewrite fexp_binary64 in Hc.
  pose proof (Zdigits2_bounds (Z.pos m) ltac:(lia)) as Hb.
  replace (Zdigits2 (Z.pos m)) with 53 in Hb by lia. exact Hb.
Qed.

Lemma mantissa_of_canonical (m : positive) (e : Z) :
  fexp prec emax (Z.pos (digits2_pos m) + e) = e -> Z.pos m < 2 ^ 53.
Proof.
  intros Hc. change (Z.pos (digits2_pos m)) with (Zdigits2 (Z.pos m)) in Hc.
  rewrite fexp_binary64 in Hc.
  pose proof (Zdigits2_bounds (Z.pos m) ltac:(lia)) as Hb.
  pose proof (Zdigits2_pos (Z.pos m) ltac:(lia)) as Hd.
  assert (2 ^ Zdigits2 (Z.pos m) <= 2 ^ 53) by (apply Z.pow_le_mono_r; lia).
  lia.
Qed.


Lemma binary_round_aux_sign (sx : bool) (mx ex : Z) (lx : location) :
  0 <= mx ->
  match binary_round_aux prec emax sx mx ex lx with
  | S754_zero s | S754_infinity s | S754_finite s _ _ => s = sx
  | S754_nan => False
  end.
Proof.
  intros Hm.
  destruct (binary_round_aux_spec sx mx ex lx Hm) as (t' & Hrange & _ & ->).
  assert (Ht : 0 <= t').
  { assert (0 <= mx / 2 ^ shift_count mx ex); [ | lia].
    apply Z.div_pos; [lia | ]. apply Z.pow_pos_nonneg; unfold shift_count; lia. }
  unfold pack, renorm. cbn [fst snd].
  assert (Hq : 0 <= t' / 2 ^ shift_count t' (ex + shift_count mx ex)).
  { apply Z.div_pos; [lia | ]. apply Z.pow_pos_nonneg; unfold shift_count; lia. }
  destruct (t' / 2 ^ shift_count t' (ex + shift_count mx ex)) as [ | p | p];
    [reflexivity | | lia].
  destruct (_ <=? _); reflexivity.
Qed.


(** Multiplying a value below 1 by a normal number [f] gives a value
    below [f], provided that holds for the greatest value below 1. *)
Lemma mul_stays_below (x f : float) (mf : positive) (ef : Z) :
  Prim2SF f = S754_finite false mf ef ->
  2 ^ 52 <= Z.pos mf < 2 ^ 53 ->
  -52 <= ef <= 971 ->
  (f <=? below_one * f)%float = false ->
  (x <? 1)%float = true ->
  (f <=? x * f)%float = false.
Proof.
  intros Hf Hmf Hef Hedge Hx.
  destruct (Prim2SF x) as [s | s | | s m e] eqn:HSx.
  - rewrite leb_spec, mul_spec, Hf, HSx. destruct s; reflexivity.
  - rewrite ltb_spec, HSx in Hx.
    change (Prim2SF 1) with (S754_finite false 4503599627370496 (-52)) in Hx.
    destruct s; [ | discriminate Hx].
    rewrite leb_spec, mul_spec, Hf, HSx. reflexivity.
  - rewrite ltb_spec, HSx in Hx. discriminate Hx.
  - destruct s.
    + rewrite leb_spec, mul_spec, Hf, HSx. unfold SF64mul. cbn [SFmul xorb].
      pose proof (binary_round_aux_sign true (Z.pos (m * mf)) (e + ef) loc_Exact
                    ltac:(lia)) as Hs.
      destruct (binary_round_aux prec emax true (Z.pos (m * mf)) (e + ef) loc_Exact)
        as [s | s | | s m' e']; try contradiction Hs; subst s; reflexivity.
    + pose proof (Prim2SF_valid x) as Hv. rewrite HSx in Hv.
      pose proof (canonical_of_valid _ _ _ Hv) as Hc.
      pose proof (mantissa_of_canonical _ _ Hc) as Hm53.
      assert (He : e <= -53).
      { rewrite ltb_spec, HSx in Hx.
        change (Prim2SF 1) with (S754_finite false 4503599627370496 (-52)) in Hx.
        unfold SFltb in Hx. cbn [SFcompare] in Hx.
        destruct (Z.compare_spec e (-52)) as [Heq | Hlt | Hgt];
          [ | lia | discriminate Hx].
        exfalso. subst e.
        pose proof (normal_of_canonical _ _ Hc ltac:(lia)) as Hn.
        destruct (Pos.compare_cont Eq m 4503599627370496) eqn:Hcmp;
          try discriminate Hx.
        assert (Hlt : (m < 4503599627370496)%positive) by exact Hcmp.
        apply Pos2Z.pos_lt_pos in Hlt. clear - Hlt Hn.
        change (2 ^ 52) with 4503599627370496 in Hn. lia. }
      destruct (Z.eq_dec e (-53)) as [He53 | He53];
        [destruct (Z.eq_dec (Z.pos m) 9007199254740991) as [Hmax | Hmax] | ].
      * assert (x = below_one) as ->; [ | exact Hedge].
        apply Prim2SF_inj. rewrite HSx, He53. injection Hmax as ->. reflexivity.
      * destruct (mul_below m mf e ef Hc He) as (m2 & e2 & HR & Hlt);
          try assumption.
        { subst e. change (2 ^ (- -53 - 52)) with 2.
          change (2 ^ (- -53)) with 9007199254740992.
          change (2 ^ 53) with 9007199254740992 in Hm53.
          clear - Hm53 Hmax. lia. }
        rewrite leb_spec, mul_spec, Hf, HSx. unfold SF64mul. cbn [SFmul xorb].
        rewrite HR. unfold SFleb. cbn [SFcompare].
        destruct Hlt as [Hlt | [-> Hlt]].
        -- replace (ef ?= e2) with Gt by (symmetry; apply Z.compare_gt_iff; lia).
           reflexivity.
        -- rewrite Z.compare_refl.
           replace (Pos.compare_cont Eq mf m2) with Gt; [reflexivity | ].
           symmetry. apply Pos.compare_gt_iff. lia.
      * destruct (mul_below m mf e ef Hc He) as (m2 & e2 & HR & Hlt);
          try assumption.
        { assert (Hp : 2 ^ (- e) = 2 ^ (- e - 52) * 2 ^ 52).
          { rewrite <- Z.pow_add_r by lia. f_equal. lia. }
          assert (4 <= 2 ^ (- e - 52)).
          { change 4 with (2 ^ 2). apply Z.pow_le_mono_r; lia. }
          change (2 ^ 53) with 9007199254740992 in Hm53.
          change (2 ^ 52) with 4503599627370496 in Hp.
          clear - Hp H Hm53. nia. }
        rewrite leb_spec, mul_spec, Hf, HSx. unfold SF64mul. cbn [SFmul xorb].
        rewrite HR. unfold SFleb. cbn [SFcompare].
        destruct Hlt as [Hlt | [-> Hlt]].
        -- replace (ef ?= e2) with Gt by (symmetry; apply Z.compare_gt_iff; lia).
           reflexivity.
        -- rewrite Z.compare_refl.
           replace (Pos.compare_cont Eq mf m2) with Gt; [reflexivity | ].
           symmetry. apply Pos.compare_gt_iff. lia.
Qed.

(** Dividing a value that is at least a normal number [f] by [f] gives a
    value that is not below 1. *)
Lemma div_stays_above (x f : float) (mf : positive) (ef : Z) :
  Prim2SF f = S754_finite false mf ef ->
  2 ^ 52 <= Z.pos mf < 2 ^ 53 ->
  -52 <= ef ->
  (f <=? x)%float = true ->
  (x / f <? 1)%float = false.
Proof.
  intros Hf Hmf Hef Hx.
  rewrite leb_spec, Hf in Hx. rewrite ltb_spec, div_spec, Hf.
  change (Prim2SF 1) with (S754_finite false 4503599627370496 (-52)).
  pose proof (Prim2SF_valid x) as Hv.
  destruct (Prim2SF x) as [s | s | | s mx ex]; try discriminate Hx.
  - destruct s; [discriminate Hx | reflexivity].
  - destruct s; [discriminate Hx | ].
    pose proof (canonical_of_valid _ _ _ Hv) as Hc.
    unfold SFleb in Hx. cbn [SFcompare] in Hx.
    assert (Hord : ef < ex \/ (ef = ex /\ Z.pos mf <= Z.pos mx)).
    { destruct (Z.compare_spec ef ex) as [Heq | Hlt | Hgt];
        [right | left; exact Hlt | discriminate Hx].
      split; [exact Heq | ].
      destruct (Pos.compare_cont Eq mf mx) eqn:Hcmp; try discriminate Hx.
      - assert (Heqm : (mf ?= mx)%positive = Eq) by exact Hcmp.
        apply Pos.compare_eq in Heqm. subst. lia.
      - assert (Hlt : (mf < mx)%positive) by exact Hcmp.
        apply Pos2Z.pos_lt_pos in Hlt. lia. }
    assert (Hmx : 2 ^ 52 <= Z.pos mx < 2 ^ 53)
      by (apply (normal_of_canonical mx ex Hc); lia).
    pose proof (div_above mx mf ex ef Hmx Hmf Hord) as Hdiv.
    unfold SF64div. cbn [SFdiv xorb].
    destruct (SFdiv_core_binary prec emax (Z.pos mx) ex (Z.pos mf) ef)
      as [[mz ez] lz].
    destruct Hdiv as [-> | (m2 & e2 & -> & Hge)]; [reflexivity | ].
    unfold SFltb. cbn [SFcompare].
    destruct Hge as [Hgt | [-> Hm2]].
    + replace (e2 ?= -52) with Gt by (symmetry; apply Z.compare_gt_iff; lia).
      reflexivity.
    + cbn [Z.compare Pos.compare]. rewrite Pos.compare_refl.
      destruct (Pos.compare_cont Eq m2 4503599627370496) eqn:Hcmp;
        try reflexivity.
      exfalso. assert (Hlt : (m2 < 4503599627370496)%positive) by exact Hcmp.
      apply Pos2Z.pos_lt_pos in Hlt. clear - Hlt Hm2.
      change (2 ^ 52) with 4503599627370496 in Hm2. lia.
Qed.


Lemma mul_is_number (x f : float) (mf : positive) (ef : Z) :
  Prim2SF f = S754_finite false mf ef ->
  is_number (Prim2SF x) -> is_number (Prim2SF (x * f)).
Proof.
  intros Hf Hx. rewrite mul_spec, Hf. unfold SF64mul.
  destruct (Prim2SF x) as [s | s | | s m e]; try contradiction Hx;
    cbn [SFmul]; try exact I.
  pose proof (binary_round_aux_sign (xorb s false) (Z.pos (m * mf)) (e + ef)
                loc_Exact ltac:(lia)) as Hs.
  destruct (binary_round_aux prec emax (xorb s false) (Z.pos (m * mf)) (e + ef)
              loc_Exact); try contradiction Hs; exact I.
Qed.

Lemma div_is_number (x f : float) (mf : positive) (ef : Z) :
  Prim2SF f = S754_finite false mf ef ->
  is_number (Prim2SF x) -> is_number (Prim2SF (x / f)).
Proof.
  intros Hf Hx. rewrite div_spec, Hf. unfold SF64div.
  destruct (Prim2SF x) as [s | s | | s m e]; try contradiction Hx;
    cbn [SFdiv]; try exact I.
  unfold SFdiv_core_binary.
  set (e' := Z.min _ _).
  set (m' := match e - ef - e' with
             | 0 => Z.pos m
             | Z.pos _ => _
             | Z.neg _ => 0
             end).
  assert (Hm' : 0 <= m').
  { subst m'. destruct (e - ef - e') as [ | p | p]; try lia.
    change (0 <= Z.shiftl (Z.pos m) (Z.pos p)).
    rewrite Z.shiftl_mul_pow2 by lia.
    assert (0 < 2 ^ Z.pos p) by (apply Z.pow_pos_nonneg; lia). lia. }
  change (IntDef.Z.div_eucl m' (Z.pos mf)) with (Z.div_eucl m' (Z.pos mf)).
  pose proof (Z_div_mod m' (Z.pos mf) ltac:(lia)) as Hdm.
  destruct (Z.div_eucl m' (Z.pos mf)) as [q r]. destruct Hdm as [Hq Hr].
  assert (Hq0 : 0 <= q) by nia.
  pose proof (binary_round_aux_sign (xorb s false) q e'
                (new_location (Z.pos mf) r) Hq0) as Hs.
  destruct (binary_round_aux prec emax (xorb s false) q e'
              (new_location (Z.pos mf) r)); try contradiction Hs; exact I.
Qed.

Lemma SFcompare_antisym (x y : spec_float) :
  SFcompare y x = option_map CompOpp (SFcompare x y).
Proof.
  destruct x as [[ | ] | [ | ] | | [ | ] mx ex],
           y as [[ | ] | [ | ] | | [ | ] my ey];
    try reflexivity; cbn [SFcompare option_map];
    rewrite (Z.compare_antisym ex ey);
    destruct (ex ?= ey); cbn [CompOpp]; try reflexivity;
    change (PosDef.Pos.compare_cont Eq mx my) with (Pos.compare_cont Eq mx my);
    rewrite (Pos.compare_cont_antisym mx my Eq); reflexivity.
Qed.

Lemma SFcompare_numbers (x y : spec_float) :
  is_number x -> is_number y -> SFcompare x y <> None.
Proof.
  destruct x as [s | s | | s mx ex], y as [s' | s' | | s' my ey];
    cbn; try contradiction; intros _ _; discriminate.
Qed.

Lemma ltb_false_leb (x y : float) :
  is_number (Prim2SF x) -> is_number (Prim2SF y) ->
  (x <? y)%float = false -> (y <=? x)%float = true.
Proof.
  intros Hx Hy. rewrite ltb_spec, leb_spec. unfold SFltb, SFleb.
  rewrite (SFcompare_antisym (Prim2SF x) (Prim2SF y)).
  pose proof (SFcompare_numbers _ _ Hx Hy) as Hn.
  destruct (SFcompare (Prim2SF x) (Prim2SF y)) as [[ | | ] | ];
    cbn; congruence.
Qed.

Lemma leb_false_ltb (x y : float) :
  is_number (Prim2SF x) -> is_number (Prim2SF y) ->
  (x <=? y)%float = false -> (y <? x)%float = true.
Proof.
  intros Hx Hy. rewrite ltb_spec, leb_spec. unfold SFltb, SFleb.
  rewrite (SFcompare_antisym (Prim2SF x) (Prim2SF y)).
  pose proof (SFcompare_numbers _ _ Hx Hy) as Hn.
  destruct (SFcompare (Prim2SF x) (Prim2SF y)) as [[ | | ] | ];
    cbn; congruence.
Qed.

Lemma eqb_refl_is_number (x : float) :
  (x =? x)%float = true -> is_number (Prim2SF x).
Proof.
  rewrite eqb_spec. destruct (Prim2SF x); cbn; try discriminate; intros _; exact I.
Qed.

(** *** The scale factors *)

Lemma factor_binary64_normal (r : nat) :
  (r < 7)%nat ->
  exists (mf : positive) (ef : Z),
    Prim2SF (factor (num := float) r) = S754_finite false mf ef
    /\ 2 ^ 52 <= Z.pos mf < 2 ^ 53
    /\ -52 <= ef <= 971
    /\ (factor r <=? below_one * factor r)%float = false.
Proof.
  intros Hr.
  do 7 (destruct r as [ | r];
        [do 2 eexists; split; [vm_compute; reflexivity | ];
         split; [split; [apply Z.leb_le | apply Z.ltb_lt]; vm_compute; reflexivity | ];
         split; [split; apply Z.leb_le; vm_compute; reflexivity | ];
         vm_compute; reflexivity | ]).
  lia.
Qed.

Lemma binary64_finer_stays_below (x : float) (r : nat) :
  (r < 7)%nat -> nlt x (integer 1) = true ->
  nge (nmul x (factor r)) (factor r) = false.
Proof.
  intros Hr Hx.
  destruct (factor_binary64_normal r Hr) as (mf & ef & Hf & Hmf & Hef & Hedge).
  exact (mul_stays_below x (factor r) mf ef Hf Hmf Hef Hedge Hx).
Qed.

Lemma binary64_coarser_stays_above (x : float) (r : nat) :
  (r < 7)%nat -> nge x (factor r) = true ->
  nlt (ndiv x (factor r)) (integer 1) = false.
Proof.
  intros Hr Hx.
  destruct (factor_binary64_normal r Hr) as (mf & ef & Hf & Hmf & Hef & _).
  exact (div_stays_above x (factor r) mf ef Hf Hmf (proj1 Hef) Hx).
Qed.

Lemma rescale_is_number (cu du : nat) (n : float) :
  (cu <= 7)%nat -> (du <= 7)%nat ->
  is_number (Prim2SF n) -> is_number (Prim2SF (rescale cu du n)).
Proof.
  intros Hcu Hdu. unfold rescale.
  assert (Hdown : forall (l : list nat) (x : float),
             (forall r, In r l -> (r < 7)%nat) -> is_number (Prim2SF x) ->
             is_number (Prim2SF (fold_left (fun a r => nmul a (factor r)) l x))).
  { induction l as [ | r l IH]; intros x Hl Hx; [exact Hx | ].
    cbn [fold_left]. apply IH; [intros r' Hr'; apply Hl; right; exact Hr' | ].
    destruct (factor_binary64_normal r (Hl r (or_introl eq_refl)))
      as (mf & ef & Hf & _).
    exact (mul_is_number x _ mf ef Hf Hx). }
  assert (Hup : forall (l : list nat) (x : float),
             (forall r, In r l -> (r < 7)%nat) -> is_number (Prim2SF x) ->
             is_number (Prim2SF (fold_left (fun a r => ndiv a (factor r)) l x))).
  { induction l as [ | r l IH]; intros x Hl Hx; [exact Hx | ].
    cbn [fold_left]. apply IH; [intros r' Hr'; apply Hl; right; exact Hr' | ].
    destruct (factor_binary64_normal r (Hl r (or_introl eq_refl)))
      as (mf & ef & Hf & _).
    exact (div_is_number x _ mf ef Hf Hx). }
  intros Hn. destruct (Nat.ltb du cu); [ | destruct (Nat.ltb cu du)].
  - apply Hdown; [ | exact Hn]. unfold ranks_down. intros r Hin.
    apply in_rev, in_seq in Hin. lia.
  - apply Hup; [ | exact Hn]. unfold ranks_up. intros r Hin.
    apply in_seq in Hin. lia.
  - exact Hn.
Qed.

(** *** Negative magnitudes *)

Lemma mul_sign_set (x f : float) (mf : positive) (ef : Z) :
  Prim2SF f = S754_finite false mf ef ->
  sign_set (Prim2SF x) -> sign_set (Prim2SF (x * f)).
Proof.
  intros Hf Hx. rewrite mul_spec, Hf. unfold SF64mul.
  destruct (Prim2SF x) as [[ | ] | [ | ] | | [ | ] m e]; try contradiction Hx;
    cbn [SFmul xorb]; try exact I.
  pose proof (binary_round_aux_sign true (Z.pos (m * mf)) (e + ef) loc_Exact
                ltac:(lia)) as Hs.
  destruct (binary_round_aux prec emax true (Z.pos (m * mf)) (e + ef) loc_Exact)
    as [s | s | | s m' e']; try contradiction Hs; subst s; exact I.
Qed.

Lemma sign_set_lt_1 (x : float) :
  sign_set (Prim2SF x) -> (x <? 1)%float = true.
Proof.
  intros Hx. rewrite ltb_spec.
  change (Prim2SF 1) with (S754_finite false 4503599627370496 (-52)).
  destruct (Prim2SF x) as [[ | ] | [ | ] | | [ | ] m e]; try contradiction Hx;
    reflexivity.
Qed.

Lemma lt_0_sign_set (x : float) :
  (x <? 0)%float = true -> sign_set (Prim2SF x).
Proof.
  rewrite ltb_spec. change (Prim2SF 0) with (S754_zero false).
  destruct (Prim2SF x) as [[ | ] | [ | ] | | [ | ] m e]; cbn; try discriminate;
    intros _; exact I.
Qed.

Lemma search_negative_binary64 (n : float) (u : string) (p : value float)
    (r : nat) :
  (n <? 0)%float = true -> unit_rank u = Some r -> carried_to_ms n u p r.
Proof.
  intros Hn Hu. pose proof (unit_rank_le _ _ Hu) as Hr.
  assert (Htook : took r n u p
                    {| _duration := rescale r 0 n; _unit := "ms";
                       _precision := constructed_precision p; _abbr := true |}).
  { apply (search_finer_only (fun x => sign_set (Prim2SF x))).
    - intros x Hx. exact (sign_set_lt_1 x Hx).
    - intros x r' Hr' Hx.
      destruct (factor_binary64_normal r' Hr') as (mf & ef & Hf & _).
      exact (mul_sign_set x _ mf ef Hf Hx).
    - exact Hu.
    - apply lt_0_sign_set, Hn. }
  eexists.
  split; [apply (took_fuel Htook); lia | ].
  split; [exact Htook | ].
  split; [reflexivity | ].
  apply rescale_to_ms.
Qed.

(** *** Rounding into the normal range *)

Lemma round_normal (s : bool) (P E : Z) (l : location) :
  0 < P ->
  53 <= Zdigits2 P ->
  -1074 <= Zdigits2 P + E - 53 ->
  Zdigits2 P + E - 53 < 971 ->
  exists (m' : positive) (e' t' : Z),
    binary_round_aux prec emax s P E l = S754_finite s m' e'
    /\ 2 ^ 52 <= Z.pos m' < 2 ^ 53
    /\ Zdigits2 P + E - 53 <= e' <= Zdigits2 P + E - 52
    /\ P / 2 ^ (Zdigits2 P - 53) <= t' <= P / 2 ^ (Zdigits2 P - 53) + 1
    /\ Z.pos m' * 2 ^ (e' - E) = t' * 2 ^ (Zdigits2 P - 53).
Proof.
  intros HP Hd Hlo Hhi.
  pose proof (Zdigits2_bounds P HP) as Hb.
  set (d := Zdigits2 P) in *.
  assert (H1 : E <= fexp prec emax (d + E)) by (rewrite fexp_binary64; lia).
  assert (H2 : fexp prec emax (d + E) - E < d) by (rewrite fexp_binary64; lia).
  destruct (first_shift_canonical P E HP H1 H2) as (Hn0 & Ht0 & Hcan).
  assert (Hn : shift_count P E = d - 53)
    by (unfold shift_count; fold d; rewrite fexp_binary64; lia).
  rewrite Hn in *.
  set (n := d - 53) in *.
  set (t := P / 2 ^ n) in *.
  assert (Hpn : 0 < 2 ^ n) by (apply Z.pow_pos_nonneg; lia).
  assert (Ht52 : 2 ^ 52 <= t).
  { subst t. apply Z.div_le_lower_bound; [lia | ].
    rewrite Z.mul_comm, <- Z.pow_add_r by lia.
    replace (52 + n) with (d - 1) by lia. lia. }
  destruct (binary_round_aux_spec s P E l ltac:(lia)) as (t' & Hrange & _ & HR).
  rewrite Hn in *. fold n in Hrange, HR. fold t in Hrange.
  set (e1 := E + n) in *.
  destruct (renorm_spec t e1 t' Ht0 Hcan Hrange)
    as (m2 & e2 & Hren & Hm2 & Hcases).
  rewrite HR, Hren.
  assert (He2 : e2 <= 971) by (destruct Hcases as [[_ ->] | (_ & _ & ->)]; lia).
  destruct (pack_finite s m2 e2 ltac:(lia) He2) as (p & Hp & Hpack).
  exists p, e2, t'. split; [exact Hpack | ]. rewrite Hp.
  destruct Hcases as [[-> ->] | (Ht53 & -> & ->)].
  - repeat split; try lia. f_equal. f_equal. lia.
  - repeat split; try lia.
    replace (e1 + 1 - E) with (1 + n) by lia.
    rewrite Z.pow_add_r by lia. rewrite Ht53.
    change (2 ^ 53) with (2 ^ 52 * 2 ^ 1). lia.
Qed.

End Binary64.

(** ** The rounding error of a walk in binary64

    Inside the normal range every multiplication and every division by a
    factor of the table returns the exact result up to a relative error
    of [2^-52], and moves the exponent by 11 at most; the errors of the
    operations of a walk add up as [within] counts them. *)

Section RoundingError.

Local Open Scope Q_scope.

Lemma two_power_pos (e : Z) : 0 < 2 ^ e.
Proof. apply Qpower_0_lt. reflexivity. Qed.

Lemma two_power_plus (a b : Z) : 2 ^ (a + b) == 2 ^ a * 2 ^ b.
Proof. apply Qpower_plus. discriminate. Qed.

Lemma two_power_inject (k : Z) : (0 <= k)%Z -> inject_Z (2 ^ k) == 2 ^ k.
Proof. intros Hk. rewrite Zpower_Qpower by exact Hk. reflexivity. Qed.

Lemma sign_abs (s : bool) (x : Q) :
  Qabs ((if s then -1 else 1) * x) == Qabs x.
Proof.
  destruct s.
  - setoid_replace (-1 * x) with (- x) by ring. apply Qabs_opp.
  - setoid_replace (1 * x) with x by ring. reflexivity.
Qed.

(** An integer mantissa [T] that misses the quotient [A / B] by at most
    [2^-52] of it, at any scale and sign. *)
Lemma scaled_error (s : bool) (T A B E : Z) :
  (0 < A)%Z -> (0 < B)%Z ->
  (Z.abs (T * B - A) * 2 ^ 52 <= A)%Z ->
  Qabs ((if s then -1 else 1) * (inject_Z T * 2 ^ E)
        - (if s then -1 else 1) * (inject_Z A / inject_Z B * 2 ^ E))
  <= unit_roundoff * Qabs ((if s then -1 else 1) * (inject_Z A / inject_Z B * 2 ^ E)).
Proof.
  intros HA HB Herr.
  setoid_replace ((if s then -1 else 1) * (inject_Z T * 2 ^ E)
                  - (if s then -1 else 1) * (inject_Z A / inject_Z B * 2 ^ E))
    with ((if s then -1 else 1)
          * ((inject_Z T - inject_Z A / inject_Z B) * 2 ^ E)) by ring.
  rewrite !sign_abs.
  pose proof (two_power_pos E) as Hw.
  assert (Ha : 0 < inject_Z A) by (rewrite <- (Zlt_Qlt 0); exact HA).
  assert (Hb : 0 < inject_Z B) by (rewrite <- (Zlt_Qlt 0); exact HB).
  set (a := inject_Z A) in *. set (b := inject_Z B) in *.
  set (t := inject_Z T) in *. set (w := 2 ^ E) in *.
  assert (Hr : 0 < a / b) by (apply Qlt_shift_div_l; lra).
  rewrite (Qabs_pos (a / b * w)) by nra.
  rewrite Qabs_Qmult, (Qabs_pos w) by lra.
  assert (Hkey : Qabs (t - a / b) <= unit_roundoff * (a / b)).
  { apply Qabs_Qle_condition.
    assert (Hz1 : (A * 2 ^ 52 <= T * B * 2 ^ 52 + A)%Z) by lia.
    assert (Hz2 : (T * B * 2 ^ 52 <= A * 2 ^ 52 + A)%Z) by lia.
    rewrite Zle_Qle in Hz1, Hz2.
    rewrite !inject_Z_plus, !inject_Z_mult in Hz1, Hz2.
    change (inject_Z (2 ^ 52)) with (4503599627370496 # 1) in Hz1, Hz2.
    fold a b t in Hz1, Hz2.
    assert (Hab : a == a / b * b) by (field; lra).
    set (r := a / b) in *.
    assert (H1 : b * (r * (4503599627370496 # 1))
                 <= b * (t * (4503599627370496 # 1) + r)).
    { setoid_replace (b * (r * (4503599627370496 # 1)))
        with (r * b * (4503599627370496 # 1)) by ring.
      setoid_replace (b * (t * (4503599627370496 # 1) + r))
        with (t * b * (4503599627370496 # 1) + r * b) by ring.
      rewrite <- Hab. exact Hz1. }
    assert (H2 : b * (t * (4503599627370496 # 1))
                 <= b * (r * (4503599627370496 # 1) + r)).
    { setoid_replace (b * (t * (4503599627370496 # 1)))
        with (t * b * (4503599627370496 # 1)) by ring.
      setoid_replace (b * (r * (4503599627370496 # 1) + r))
        with (r * b * (4503599627370496 # 1) + r * b) by ring.
      rewrite <- Hab. exact Hz2. }
    apply Qmult_le_l in H1; [ | exact Hb].
    apply Qmult_le_l in H2; [ | exact Hb].
    unfold unit_roundoff. split; lra. }
  setoid_replace (unit_roundoff * (a / b * w)) with (unit_roundoff * (a / b) * w)
    by ring.
  apply Qmult_le_compat_r; [exact Hkey | lra].
Qed.

Lemma finite_value_shift (s : bool) (m : positive) (e E T : Z) :
  (E <= e)%Z -> (Z.pos m * 2 ^ (e - E) = T)%Z ->
  SF2Q (S754_finite s m e) == (if s then -1 else 1) * (inject_Z T * 2 ^ E).
Proof.
  intros HE <-. cbn [SF2Q].
  rewrite inject_Z_mult, two_power_inject by lia.
  replace e with ((e - E) + E)%Z at 1 by lia.
  rewrite two_power_plus. ring.
Qed.

Lemma mul_error (x f : float) (s : bool) (mx mf : positive) (ex ef : Z) :
  Prim2SF x = S754_finite s mx ex ->
  (2 ^ 52 <= Z.pos mx < 2 ^ 53)%Z ->
  Prim2SF f = S754_finite false mf ef ->
  (2 ^ 52 <= Z.pos mf < 2 ^ 53)%Z ->
  (-1126 <= ex + ef < 917)%Z ->
  exists (m' : positive) (e' : Z),
    Prim2SF (x * f) = S754_finite s m' e'
    /\ (2 ^ 52 <= Z.pos m' < 2 ^ 53)%Z
    /\ (ex + ef + 52 <= e' <= ex + ef + 54)%Z
    /\ Qabs (B2Q (x * f) - B2Q x * B2Q f)
       <= unit_roundoff * Qabs (B2Q x * B2Q f).
Proof.
  intros Hx Hmx Hf Hmf Hrange.
  unfold B2Q. rewrite mul_spec, Hx, Hf. unfold SF64mul. cbn [SFmul].
  rewrite xorb_false_r. rewrite Pos2Z.inj_mul.
  set (P := (Z.pos mx * Z.pos mf)%Z).
  set (E := (ex + ef)%Z) in *.
  assert (HP0 : (0 < P)%Z) by (subst P; lia).
  assert (HPlo : (2 ^ 104 <= P)%Z).
  { change (2 ^ 104)%Z with (2 ^ 52 * 2 ^ 52)%Z. subst P. nia. }
  assert (HPhi : (P < 2 ^ 106)%Z).
  { change (2 ^ 106)%Z with (2 ^ 53 * 2 ^ 53)%Z. subst P. nia. }
  pose proof (Zdigits2_bounds P HP0) as HbP.
  pose proof (Zdigits2_pos P HP0) as HdP0.
  assert (Hd : (Zdigits2 P = 105 \/ Zdigits2 P = 106)%Z).
  { assert (104 < Zdigits2 P)%Z by (apply pow2_lt_inv; lia).
    assert (Zdigits2 P - 1 < 106)%Z by (apply pow2_lt_inv; lia). lia. }
  destruct (round_normal s P E loc_Exact HP0 ltac:(lia) ltac:(lia) ltac:(lia))
    as (m' & e' & t' & HR & Hm' & He' & Ht' & Hval).
  exists m', e'. rewrite HR.
  split; [reflexivity | ]. split; [exact Hm' | ]. split; [lia | ].
  set (n := (Zdigits2 P - 53)%Z) in *.
  assert (Hpn : (0 < 2 ^ n)%Z) by (apply Z.pow_pos_nonneg; lia).
  assert (HPn : (2 ^ 52 * 2 ^ n <= P)%Z).
  { rewrite <- Z.pow_add_r by lia.
    replace (52 + n)%Z with (Zdigits2 P - 1)%Z by lia. lia. }
  pose proof (Z.mul_div_le P (2 ^ n) Hpn) as Hdiv1.
  pose proof (Z.mul_succ_div_gt P (2 ^ n) Hpn) as Hdiv2.
  assert (HEe : (E <= e')%Z) by (clear - He' Hd; lia).
  rewrite (finite_value_shift s m' e' E (t' * 2 ^ n) HEe Hval).
  assert (Hexact : SF2Q (S754_finite s mx ex) * SF2Q (S754_finite false mf ef)
                   == (if s then -1 else 1)
                      * (inject_Z P / inject_Z 1 * 2 ^ E)).
  { cbn [SF2Q]. subst P E. rewrite inject_Z_mult, two_power_plus.
    change (inject_Z 1) with 1. field. }
  rewrite Hexact.
  apply scaled_error; try lia.
  rewrite Z.mul_1_r. nia.
Qed.

Lemma div_error (x f : float) (s : bool) (mx mf : positive) (ex ef : Z) :
  Prim2SF x = S754_finite s mx ex ->
  (2 ^ 52 <= Z.pos mx < 2 ^ 53)%Z ->
  Prim2SF f = S754_finite false mf ef ->
  (2 ^ 52 <= Z.pos mf < 2 ^ 53)%Z ->
  (-1021 <= ex - ef < 1020)%Z ->
  exists (m' : positive) (e' : Z),
    Prim2SF (x / f) = S754_finite s m' e'
    /\ (2 ^ 52 <= Z.pos m' < 2 ^ 53)%Z
    /\ (ex - ef - 53 <= e' <= ex - ef - 51)%Z
    /\ Qabs (B2Q (x / f) - B2Q x / B2Q f)
       <= unit_roundoff * Qabs (B2Q x / B2Q f).
Proof.
  intros Hx Hmx Hf Hmf Hrange.
  unfold B2Q. rewrite div_spec, Hx, Hf. unfold SF64div. cbn [SFdiv].
  rewrite xorb_false_r.
  assert (Hdx : Zdigits2 (Z.pos mx) = 53%Z) by (apply Zdigits2_unique; lia).
  assert (Hdf : Zdigits2 (Z.pos mf) = 53%Z) by (apply Zdigits2_unique; lia).
  unfold SFdiv_core_binary. rewrite Hdx, Hdf, fexp_binary64.
  set (delta := (ex - ef)%Z) in *.
  replace (53 + ex - (53 + ef))%Z with delta by (subst delta; lia).
  replace (Z.min (Z.max (delta - 53) (-1074)) delta) with (delta - 53)%Z by lia.
  replace (delta - (delta - 53))%Z with 53%Z by lia.
  rewrite Z.shiftl_mul_pow2 by lia.
  set (N := (Z.pos mx * 2 ^ 53)%Z).
  pose proof (Z_div_mod N (Z.pos mf) ltac:(lia)) as Hdm.
  unfold Z.div, Z.modulo in *.
  destruct (Z.div_eucl N (Z.pos mf)) as [q r] eqn:Hqr.
  destruct Hdm as [HN Hr].
  assert (Hq52 : (2 ^ 52 <= q)%Z) by (subst N; nia).
  assert (Hq54 : (q < 2 ^ 54)%Z) by (subst N; nia).
  assert (Hq0 : (0 < q)%Z) by lia.
  pose proof (Zdigits2_bounds q Hq0) as Hbq.
  pose proof (Zdigits2_pos q Hq0) as Hdq0.
  assert (Hdq : (Zdigits2 q = 53 \/ Zdigits2 q = 54)%Z).
  { assert (52 < Zdigits2 q)%Z by (apply pow2_lt_inv; lia).
    assert (Zdigits2 q - 1 < 54)%Z by (apply pow2_lt_inv; lia). lia. }
  set (E := (delta - 53)%Z) in *.
  destruct (round_normal s q E (new_location (Z.pos mf) r) Hq0
              ltac:(lia) ltac:(lia) ltac:(lia))
    as (m' & e' & t' & HR & Hm' & He' & Ht' & Hval).
  exists m', e'. rewrite HR.
  split; [reflexivity | ]. split; [exact Hm' | ]. split; [lia | ].
  set (n := (Zdigits2 q - 53)%Z) in *.
  assert (Hpn : (0 < 2 ^ n)%Z) by (apply Z.pow_pos_nonneg; lia).
  assert (Hqn : (2 ^ 52 * 2 ^ n <= q)%Z).
  { rewrite <- Z.pow_add_r by lia.
    replace (52 + n)%Z with (Zdigits2 q - 1)%Z by lia. lia. }
  pose proof (Z.mul_div_le q (2 ^ n) Hpn) as Hdiv1.
  pose proof (Z.mul_succ_div_gt q (2 ^ n) Hpn) as Hdiv2.
  assert (HEe : (E <= e')%Z) by (clear - He' Hdq; lia).
  rewrite (finite_value_shift s m' e' E (t' * 2 ^ n) HEe Hval).
  assert (Hexact : SF2Q (S754_finite s mx ex) / SF2Q (S754_finite false mf ef)
                   == (if s then -1 else 1)
                      * (inject_Z N / inject_Z (Z.pos mf) * 2 ^ E)).
  { cbn [SF2Q]. subst N E delta. rewrite inject_Z_mult.
    replace (ex - ef - 53)%Z with (ex + (- ef + - (53)))%Z by lia.
    rewrite !two_power_plus, !Qpower_opp.
    change (inject_Z (2 ^ 53)) with (2 ^ 53).
    pose proof (two_power_pos ef). pose proof (two_power_pos 53).
    assert (0 < inject_Z (Z.pos mf)) by (rewrite <- (Zlt_Qlt 0); lia).
    field. repeat split; lra. }
  rewrite Hexact.
  apply scaled_error; try lia.
  set (T := (t' * 2 ^ n)%Z) in *. set (t := (q / 2 ^ n)%Z) in *.
  assert (HT : (t * 2 ^ n <= T <= (t + 1) * 2 ^ n)%Z) by (subst T; nia).
  assert (Hlow : (- (2 ^ n * Z.pos mf) <= T * Z.pos mf - N)%Z) by nia.
  assert (Hhigh : (T * Z.pos mf - N <= 2 ^ n * Z.pos mf)%Z) by nia.
  assert (HNlow : (2 ^ 52 * (2 ^ n * Z.pos mf) <= N)%Z) by nia.
  lia.
Qed.

Lemma slack_ge_1 (j : nat) : 1 <= slack j.
Proof.
  induction j as [ | j IH]; [discriminate | ].
  cbn [slack]. unfold unit_roundoff in *. nra.
Qed.

Lemma slack_mono (j k : nat) : (j <= k)%nat -> slack j <= slack k.
Proof.
  induction 1 as [ | k Hjk IH]; [apply Qle_refl | ].
  cbn [slack]. pose proof (slack_ge_1 k). unfold unit_roundoff in *. nra.
Qed.

Lemma within_mono (j k : nat) (a b : Q) :
  (j <= k)%nat -> within j a b -> within k a b.
Proof.
  unfold within. intros Hjk Hj. pose proof (slack_mono j k Hjk).
  pose proof (Qabs_nonneg b). nra.
Qed.

Lemma within_refl (a : Q) : within 0 a a.
Proof.
  unfold within. cbn [slack].
  setoid_replace (a - a) with 0 by ring. cbn. lra.
Qed.

Lemma within_step (j : nat) (a b a' c : Q) :
  within j a b ->
  Qabs (a' - a * c) <= unit_roundoff * Qabs (a * c) ->
  within (S j) a' (b * c).
Proof.
  unfold within. intros Hab Hstep. cbn [slack].
  pose proof (slack_ge_1 j) as Hs.
  assert (H1 : Qabs (a' - b * c) <= Qabs (a' - a * c) + Qabs (a - b) * Qabs c).
  { setoid_replace (a' - b * c) with ((a' - a * c) + (a - b) * c) by ring.
    rewrite <- Qabs_Qmult. apply Qabs_triangle. }
  assert (H2 : Qabs (a * c) <= Qabs (b * c) + Qabs (a - b) * Qabs c).
  { setoid_replace (a * c) with (b * c + (a - b) * c) at 1 by ring.
    rewrite <- (Qabs_Qmult (a - b) c). apply Qabs_triangle. }
  rewrite (Qabs_Qmult b c) in H2 |- *.
  pose proof (Qabs_nonneg b). pose proof (Qabs_nonneg c).
  set (A := Qabs (a' - b * c)) in *. set (B := Qabs (a' - a * c)) in *.
  set (C := Qabs (a - b)) in *. set (D := Qabs (a * c)) in *.
  set (x := Qabs b) in *. set (y := Qabs c) in *. set (sl := slack j) in *.
  unfold unit_roundoff in *.
  assert (Hxy : 0 <= x * y) by nra.
  assert (Hcy : C * y <= (sl - 1) * (x * y)) by nra.
  set (xy := x * y) in *. set (cy := C * y) in *.
  clearbody xy cy A B C D.
  nra.
Qed.

Lemma factor_binary64_exponent (r : nat) :
  (r < 7)%nat ->
  exists (mf : positive) (ef : Z),
    Prim2SF (factor (num := float) r) = S754_finite false mf ef
    /\ (2 ^ 52 <= Z.pos mf < 2 ^ 53)%Z
    /\ (-50 <= ef <= -43)%Z.
Proof.
  intros Hr.
  do 7 (destruct r as [ | r];
        [do 2 eexists; split; [vm_compute; reflexivity | ];
         split; (split; [apply Z.leb_le | first [apply Z.ltb_lt | apply Z.leb_le]];
                 vm_compute; reflexivity) | ]).
  lia.
Qed.

Lemma valid_normal (x : float) (s : bool) (m : positive) (e : Z) :
  Prim2SF x = S754_finite s m e -> (-1074 < e)%Z ->
  (2 ^ 52 <= Z.pos m < 2 ^ 53)%Z.
Proof.
  intros Hx He. pose proof (Prim2SF_valid x) as Hv. rewrite Hx in Hv.
  apply normal_of_canonical with (e := e); [ | exact He].
  apply (canonical_of_valid s), Hv.
Qed.

Section Walks.

Variable op : float -> nat -> float.
Variable c : nat -> Q.

Hypothesis op_step :
  forall (x : float) (r : nat) (s : bool) (m : positive) (e : Z),
    (r < 7)%nat ->
    Prim2SF x = S754_finite s m e ->
    (-1060 <= e <= 959)%Z ->
    exists (m' : positive) (e' : Z),
      Prim2SF (op x r) = S754_finite s m' e'
      /\ (e - 11 <= e' <= e + 11)%Z
      /\ Qabs (B2Q (op x r) - B2Q x * c r)
         <= unit_roundoff * Qabs (B2Q x * c r).

Hypothesis op_zero :
  forall (x : float) (r : nat) (s : bool),
    (r < 7)%nat -> Prim2SF x = S754_zero s -> Prim2SF (op x r) = S754_zero s.

Lemma fold_error (l : list nat) :
  forall (x : float) (b : Q) (j : nat) (s : bool) (m : positive) (e : Z),
    (forall r, In r l -> (r < 7)%nat) ->
    Prim2SF x = S754_finite s m e ->
    (-1060 + 11 * Z.of_nat (List.length l) <= e
     <= 959 - 11 * Z.of_nat (List.length l))%Z ->
    within j (B2Q x) b ->
    exists (m' : positive) (e' : Z),
      Prim2SF (fold_left op l x) = S754_finite s m' e'
      /\ (e - 11 * Z.of_nat (List.length l) <= e'
          <= e + 11 * Z.of_nat (List.length l))%Z
      /\ within (j + List.length l) (B2Q (fold_left op l x))
           (fold_left (fun q r => q * c r) l b).
Proof.
  induction l as [ | r l IH]; intros x b j s m e Hl Hx He Hw.
  - exists m, e. cbn [fold_left List.length]. rewrite Nat.add_0_r.
    split; [exact Hx | ]. split; [lia | exact Hw].
  - cbn [List.length] in He. rewrite Nat2Z.inj_succ in He.
    destruct (op_step x r s m e (Hl r (or_introl eq_refl)) Hx ltac:(lia))
      as (m1 & e1 & Hx1 & He1 & Herr).
    destruct (IH (op x r) (b * c r) (S j) s m1 e1
                (fun r' Hr' => Hl r' (or_intror Hr')) Hx1 ltac:(lia)
                (within_step j _ _ _ _ Hw Herr))
      as (m' & e' & Hx' & He' & Hw').
    exists m', e'. cbn [fold_left List.length]. rewrite Nat2Z.inj_succ.
    split; [exact Hx' | ]. split; [lia | ].
    replace (j + S (List.length l))%nat with (S j + List.length l)%nat by lia.
    exact Hw'.
Qed.

Lemma fold_zero (l : list nat) :
  forall (x : float) (s : bool),
    (forall r, In r l -> (r < 7)%nat) ->
    Prim2SF x = S754_zero s -> Prim2SF (fold_left op l x) = S754_zero s.
Proof.
  induction l as [ | r l IH]; intros x s Hl Hx; [exact Hx | ].
  cbn [fold_left]. apply IH; [intros r' Hr'; apply Hl; right; exact Hr' | ].
  apply op_zero; [apply Hl; left; reflexivity | exact Hx].
Qed.

End Walks.

Lemma factor_value_pos (r : nat) : (r < 7)%nat -> 0 < factor_value r.
Proof.
  intros Hr. destruct (factor_binary64_exponent r Hr) as (mf & ef & Hf & _).
  unfold factor_value, B2Q. rewrite Hf. cbn [SF2Q].
  pose proof (two_power_pos ef).
  assert (0 < inject_Z (Z.pos mf)) by (rewrite <- (Zlt_Qlt 0); lia).
  nra.
Qed.

Lemma mul_step (x : float) (r : nat) (s : bool) (m : positive) (e : Z) :
  (r < 7)%nat ->
  Prim2SF x = S754_finite s m e ->
  (-1060 <= e <= 959)%Z ->
  exists (m' : positive) (e' : Z),
    Prim2SF (nmul x (factor r)) = S754_finite s m' e'
    /\ (e - 11 <= e' <= e + 11)%Z
    /\ Qabs (B2Q (nmul x (factor r)) - B2Q x * factor_value r)
       <= unit_roundoff * Qabs (B2Q x * factor_value r).
Proof.
  intros Hr Hx He.
  destruct (factor_binary64_exponent r Hr) as (mf & ef & Hf & Hmf & Hef).
  pose proof (valid_normal x s m e Hx ltac:(lia)) as Hm.
  destruct (mul_error x (factor r) s m mf e ef Hx Hm Hf Hmf ltac:(lia))
    as (m' & e' & Hx' & _ & He' & Herr).
  exists m', e'. split; [exact Hx' | ]. split; [lia | exact Herr].
Qed.

Lemma div_step (x : float) (r : nat) (s : bool) (m : positive) (e : Z) :
  (r < 7)%nat ->
  Prim2SF x = S754_finite s m e ->
  (-1060 <= e <= 959)%Z ->
  exists (m' : positive) (e' : Z),
    Prim2SF (ndiv x (factor r)) = S754_finite s m' e'
    /\ (e - 11 <= e' <= e + 11)%Z
    /\ Qabs (B2Q (ndiv x (factor r)) - B2Q x * / factor_value r)
       <= unit_roundoff * Qabs (B2Q x * / factor_value r).
Proof.
  intros Hr Hx He.
  destruct (factor_binary64_exponent r Hr) as (mf & ef & Hf & Hmf & Hef).
  pose proof (valid_normal x s m e Hx ltac:(lia)) as Hm.
  destruct (div_error x (factor r) s m mf e ef Hx Hm Hf Hmf ltac:(lia))
    as (m' & e' & Hx' & _ & He' & Herr).
  exists m', e'. split; [exact Hx' | ]. split; [lia | exact Herr].
Qed.

Lemma mul_zero (x : float) (r : nat) (s : bool) :
  (r < 7)%nat -> Prim2SF x = S754_zero s ->
  Prim2SF (nmul x (factor r)) = S754_zero s.
Proof.
  intros Hr Hx.
  destruct (factor_binary64_exponent r Hr) as (mf & ef & Hf & _).
  change (nmul x (factor r)) with (x * factor r)%float.
  rewrite mul_spec, Hx, Hf. cbn. rewrite xorb_false_r. reflexivity.
Qed.

Lemma div_zero (x : float) (r : nat) (s : bool) :
  (r < 7)%nat -> Prim2SF x = S754_zero s ->
  Prim2SF (ndiv x (factor r)) = S754_zero s.
Proof.
  intros Hr Hx.
  destruct (factor_binary64_exponent r Hr) as (mf & ef & Hf & _).
  change (ndiv x (factor r)) with (x / factor r)%float.
  rewrite div_spec, Hx, Hf. cbn. rewrite xorb_false_r. reflexivity.
Qed.

Lemma value_product_cons (r : nat) (l : list nat) :
  value_product (r :: l) = factor_value r * value_product l.
Proof. reflexivity. Qed.

Lemma value_product_pos (l : list nat) :
  (forall r, In r l -> (r < 7)%nat) -> 0 < value_product l.
Proof.
  induction l as [ | r l IH]; intros Hl; [reflexivity | ].
  rewrite value_product_cons.
  pose proof (factor_value_pos r (Hl r (or_introl eq_refl))).
  pose proof (IH (fun r' Hr' => Hl r' (or_intror Hr'))) as Hp.
  nra.
Qed.

Lemma value_product_app (l1 l2 : list nat) :
  value_product (l1 ++ l2) == value_product l1 * value_product l2.
Proof.
  induction l1 as [ | r l1 IH]; cbn [app].
  - change (value_product []) with 1. ring.
  - rewrite !value_product_cons, IH. ring.
Qed.

Lemma value_product_rev (l : list nat) :
  value_product (rev l) == value_product l.
Proof.
  induction l as [ | r l IH]; cbn [rev]; [reflexivity | ].
  rewrite value_product_app, IH, !value_product_cons.
  change (value_product []) with 1. ring.
Qed.

Lemma shadow_times (l : list nat) (b : Q) :
  fold_left (fun q r => q * factor_value r) l b == b * value_product l.
Proof.
  revert b. induction l as [ | r l IH]; intros b; cbn [fold_left].
  - change (value_product []) with 1. ring.
  - rewrite IH, value_product_cons. ring.
Qed.

Lemma shadow_over (l : list nat) (b : Q) :
  (forall r, In r l -> (r < 7)%nat) ->
  fold_left (fun q r => q * / factor_value r) l b == b / value_product l.
Proof.
  revert b. induction l as [ | r l IH]; intros b Hl; cbn [fold_left].
  - change (value_product []) with 1. field.
  - pose proof (factor_value_pos r (Hl r (or_introl eq_refl))).
    pose proof (value_product_pos l (fun r' Hr' => Hl r' (or_intror Hr'))) as Hp.
    rewrite IH by (intros r' Hr'; apply Hl; right; exact Hr').
    rewrite value_product_cons. field. split; lra.
Qed.

Lemma within_proper (j : nat) (a b b' : Q) :
  b == b' -> within j a b -> within j a b'.
Proof. unfold within. intros <-. exact (fun H => H). Qed.

Lemma unit_length_pos (r : nat) : (r <= 7)%nat -> 0 < unit_length r.
Proof.
  intros Hr. apply value_product_pos. intros r' Hr'.
  apply in_seq in Hr'. lia.
Qed.

Lemma unit_length_split (a b : nat) :
  (a <= b)%nat ->
  unit_length b == unit_length a * value_product (seq a (b - a)).
Proof.
  intros Hab. unfold unit_length.
  replace b with (a + (b - a))%nat at 1 by lia.
  rewrite seq_app, value_product_app. reflexivity.
Qed.

(** One walk, with the error it adds and the exact value it aims at. *)
Lemma rescale_within (cu du : nat) (x : float) (b : Q) (j : nat) (s : bool)
    (m : positive) (e : Z) :
  (cu <= 7)%nat -> (du <= 7)%nat ->
  Prim2SF x = S754_finite s m e ->
  (-983 <= e <= 882)%Z ->
  within j (B2Q x) b ->
  exists (m' : positive) (e' : Z),
    Prim2SF (rescale cu du x) = S754_finite s m' e'
    /\ (e - 77 <= e' <= e + 77)%Z
    /\ within (j + 7) (B2Q (rescale cu du x))
         (b * (unit_length cu / unit_length du)).
Proof.
  intros Hcu Hdu Hx He Hw.
  pose proof (unit_length_pos cu Hcu) as Hpc.
  pose proof (unit_length_pos du Hdu) as Hpd.
  unfold rescale.
  destruct (Nat.ltb_spec du cu) as [Hlt | Hge].
  - unfold ranks_down. set (l := seq du (cu - du)).
    assert (Hl : forall r, In r l -> (r < 7)%nat)
      by (intros r Hr; apply in_seq in Hr; lia).
    assert (Hlen : (List.length (rev l) <= 7)%nat)
      by (subst l; rewrite length_rev, length_seq; lia).
    destruct (fold_error (fun a r => nmul a (factor r)) factor_value mul_step
                (rev l) x b j s m e
                (fun r Hr => Hl r (proj2 (in_rev l r) Hr)) Hx ltac:(lia) Hw)
      as (m' & e' & Hx' & He' & Hw').
    exists m', e'. split; [exact Hx' | ]. split; [lia | ].
    apply (within_mono (j + List.length (rev l))); [lia | ].
    apply (within_proper _ _ _ _ (shadow_times (rev l) b)) in Hw'.
    refine (within_proper _ _ _ _ _ Hw').
    rewrite value_product_rev, (unit_length_split du cu) by lia.
    fold l. field. lra.
  - destruct (Nat.ltb_spec cu du) as [Hlt | Hge'].
    + unfold ranks_up. set (l := seq cu (du - cu)).
      assert (Hl : forall r, In r l -> (r < 7)%nat)
        by (intros r Hr; apply in_seq in Hr; lia).
      assert (Hlen : (List.length l <= 7)%nat)
        by (subst l; rewrite length_seq; lia).
      destruct (fold_error (fun a r => ndiv a (factor r))
                  (fun r => / factor_value r) div_step l x b j s m e
                  Hl Hx ltac:(lia) Hw)
        as (m' & e' & Hx' & He' & Hw').
      exists m', e'. split; [exact Hx' | ]. split; [lia | ].
      apply (within_mono (j + List.length l)); [lia | ].
      apply (within_proper _ _ _ _ (shadow_over l b Hl)) in Hw'.
      refine (within_proper _ _ _ _ _ Hw').
      pose proof (value_product_pos l Hl) as Hp.
      rewrite (unit_length_split cu du) by lia. fold l. field. split; lra.
    + assert (cu = du) as -> by lia.
      exists m, e. split; [exact Hx | ]. split; [lia | ].
      apply (within_mono j); [lia | ].
      refine (within_proper _ _ _ _ _ Hw). field. lra.
Qed.

Lemma rescale_zero (cu du : nat) (x : float) (s : bool) :
  (cu <= 7)%nat -> (du <= 7)%nat ->
  Prim2SF x = S754_zero s -> Prim2SF (rescale cu du x) = S754_zero s.
Proof.
  intros Hcu Hdu Hx. unfold rescale.
  destruct (Nat.ltb du cu); [ | destruct (Nat.ltb cu du)].
  - apply (fold_zero _ mul_zero); [ | exact Hx].
    unfold ranks_down. intros r Hr. apply in_rev, in_seq in Hr. lia.
  - apply (fold_zero _ div_zero); [ | exact Hx].
    unfold ranks_up. intros r Hr. apply in_seq in Hr. lia.
  - exact Hx.
Qed.

Lemma slack_14 : slack 14 - 1 <= 15 * unit_roundoff.
Proof. apply Qle_bool_imp_le. vm_compute. reflexivity. Qed.

Lemma within_bound (j : nat) (a b : Q) :
  (j <= 14)%nat -> within j a b ->
  Qabs (a - b) <= 15 * unit_roundoff * Qabs b.
Proof.
  intros Hj Hw. apply (within_mono j 14 a b Hj) in Hw. unfold within in Hw.
  apply Qle_trans with (1 := Hw).
  apply Qmult_le_compat_r; [exact slack_14 | apply Qabs_nonneg].
Qed.

Lemma zero_value (x : float) (s : bool) : Prim2SF x = S754_zero s -> B2Q x = 0.
Proof. intros Hx. unfold B2Q. rewrite Hx. reflexivity. Qed.

(** There and back. *)
Lemma roundtrip_error (n : float) (r1 r2 : nat) :
  (r1 <= 7)%nat -> (r2 <= 7)%nat ->
  safe_magnitude (Prim2SF n) ->
  Qabs (B2Q (rescale r2 r1 (rescale r1 r2 n)) - B2Q n)
  <= (1 # 281474976710656) * Qabs (B2Q n).
Proof.
  intros Hr1 Hr2 Hsafe.
  destruct (Prim2SF n) as [s | s | | s m e] eqn:Hn; try contradiction Hsafe.
  - rewrite (zero_value _ s (rescale_zero r2 r1 _ s Hr2 Hr1
                               (rescale_zero r1 r2 n s Hr1 Hr2 Hn))).
    rewrite (zero_value n s Hn). discriminate.
  - cbn [safe_magnitude] in Hsafe.
    destruct (rescale_within r1 r2 n (B2Q n) 0 s m e Hr1 Hr2 Hn ltac:(lia)
                (within_refl _)) as (m1 & e1 & Hx1 & He1 & Hw1).
    destruct (rescale_within r2 r1 _ _ _ s m1 e1 Hr2 Hr1 Hx1 ltac:(lia) Hw1)
      as (m2 & e2 & Hx2 & He2 & Hw2).
    pose proof (unit_length_pos r1 Hr1). pose proof (unit_length_pos r2 Hr2).
    assert (Hback : B2Q n * (unit_length r1 / unit_length r2)
                    * (unit_length r2 / unit_length r1) == B2Q n)
      by (field; split; lra).
    apply (within_proper _ _ _ _ Hback) in Hw2.
    apply within_bound in Hw2; [ | lia].
    pose proof (Qabs_nonneg (B2Q n)). unfold unit_roundoff in Hw2.
    set (d := Qabs (B2Q (rescale r2 r1 (rescale r1 r2 n)) - B2Q n)) in *.
    set (a := Qabs (B2Q n)) in *. clearbody d a. lra.
Qed.

(** Two walks in a row against the direct one. *)
Lemma compose_error (n : float) (r1 r2 r3 : nat) :
  (r1 <= 7)%nat -> (r2 <= 7)%nat -> (r3 <= 7)%nat ->
  safe_magnitude (Prim2SF n) ->
  Qabs (B2Q (rescale r2 r3 (rescale r1 r2 n)) - B2Q (rescale r1 r3 n))
  <= (1 # 140737488355328) * Qabs (B2Q (rescale r1 r3 n)).
Proof.
  intros Hr1 Hr2 Hr3 Hsafe.
  destruct (Prim2SF n) as [s | s | | s m e] eqn:Hn; try contradiction Hsafe.
  - rewrite (zero_value _ s (rescale_zero r2 r3 _ s Hr2 Hr3
                               (rescale_zero r1 r2 n s Hr1 Hr2 Hn))).
    rewrite (zero_value _ s (rescale_zero r1 r3 n s Hr1 Hr3 Hn)). discriminate.
  - cbn [safe_magnitude] in Hsafe.
    destruct (rescale_within r1 r2 n (B2Q n) 0 s m e Hr1 Hr2 Hn ltac:(lia)
                (within_refl _)) as (m1 & e1 & Hx1 & He1 & Hw1).
    destruct (rescale_within r2 r3 _ _ _ s m1 e1 Hr2 Hr3 Hx1 ltac:(lia) Hw1)
      as (m2 & e2 & Hx2 & He2 & Hw2).
    destruct (rescale_within r1 r3 n (B2Q n) 0 s m e Hr1 Hr3 Hn ltac:(lia)
                (within_refl _)) as (m3 & e3 & Hx3 & He3 & Hw3).
    pose proof (unit_length_pos r1 Hr1). pose proof (unit_length_pos r2 Hr2).
    pose proof (unit_length_pos r3 Hr3).
    assert (Hsame : B2Q n * (unit_length r1 / unit_length r2)
                    * (unit_length r2 / unit_length r3)
                    == B2Q n * (unit_length r1 / unit_length r3))
      by (field; split; lra).
    apply (within_proper _ _ _ _ Hsame) in Hw2.
    apply within_bound in Hw2; [ | lia].
    apply within_bound in Hw3; [ | lia].
    set (S := B2Q n * (unit_length r1 / unit_length r3)) in *.
    set (a := B2Q (rescale r2 r3 (rescale r1 r2 n))) in *.
    set (b := B2Q (rescale r1 r3 n)) in *.
    assert (Htri : Qabs (a - b) <= Qabs (a - S) + Qabs (b - S)).
    { setoid_replace (a - b) with ((a - S) + - (b - S)) by ring.
      rewrite <- (Qabs_opp (b - S)). apply Qabs_triangle. }
    assert (HS : Qabs S <= Qabs b + Qabs (b - S)).
    { setoid_replace S with (b + - (b - S)) at 1 by ring.
      rewrite <- (Qabs_opp (b - S)). apply Qabs_triangle. }
    pose proof (Qabs_nonneg S). pose proof (Qabs_nonneg b).
    unfold unit_roundoff in *.
    set (x1 := Qabs (a - b)) in *. set (x2 := Qabs (a - S)) in *.
    set (x3 := Qabs (b - S)) in *. set (x4 := Qabs S) in *.
    set (x5 := Qabs b) in *. clearbody x1 x2 x3 x4 x5. lra.
Qed.

Lemma factor_value_ge_4 (r : nat) : (r < 7)%nat -> 4 <= factor_value r.
Proof.
  intros Hr.
  do 7 (destruct r as [ | r];
        [apply Qle_bool_imp_le; vm_compute; reflexivity | ]).
  lia.
Qed.

Lemma value_product_ge_1 (l : list nat) :
  (forall r, In r l -> (r < 7)%nat) -> 1 <= value_product l.
Proof.
  induction l as [ | r l IH]; intros Hl; [discriminate | ].
  rewrite value_product_cons.
  pose proof (factor_value_ge_4 r (Hl r (or_introl eq_refl))).
  pose proof (IH (fun r' Hr' => Hl r' (or_intror Hr'))). nra.
Qed.

Lemma unit_length_ratio (a b : nat) :
  (a < b)%nat -> (b <= 7)%nat -> 4 * unit_length a <= unit_length b.
Proof.
  intros Hab Hb. rewrite (unit_length_split a b) by lia.
  pose proof (unit_length_pos a ltac:(lia)).
  destruct (b - a)%nat as [ | k] eqn:Hk; [lia | ].
  cbn [seq]. rewrite value_product_cons.
  pose proof (factor_value_ge_4 a ltac:(lia)).
  assert (1 <= value_product (seq (S a) k)).
  { apply value_product_ge_1. intros r Hr. apply in_seq in Hr. lia. }
  assert (Hfp : 4 <= factor_value a * value_product (seq (S a) k)) by nra.
  set (fp := factor_value a * value_product (seq (S a) k)) in *.
  clearbody fp. nra.
Qed.

(** A walk to a finer unit multiplies the magnitude by 4 at least, before
    rounding. *)
Lemma rescale_direction (n : float) (r1 r2 : nat) :
  (r1 <= 7)%nat -> (r2 <= 7)%nat ->
  safe_magnitude (Prim2SF n) ->
  ((r2 <= r1)%nat -> Qabs (B2Q n) <= Qabs (B2Q (rescale r1 r2 n)))
  /\ ((r1 <= r2)%nat -> Qabs (B2Q (rescale r1 r2 n)) <= Qabs (B2Q n)).
Proof.
  intros Hr1 Hr2 Hsafe.
  destruct (Prim2SF n) as [s | s | | s m e] eqn:Hn; try contradiction Hsafe.
  - rewrite (zero_value _ s (rescale_zero r1 r2 n s Hr1 Hr2 Hn)).
    rewrite (zero_value n s Hn). split; intros _; discriminate.
  - cbn [safe_magnitude] in Hsafe.
    destruct (Nat.eq_dec r1 r2) as [-> | Hne].
    { rewrite rescale_same. split; intros _; apply Qle_refl. }
    destruct (rescale_within r1 r2 n (B2Q n) 0 s m e Hr1 Hr2 Hn ltac:(lia)
                (within_refl _)) as (m1 & e1 & Hx1 & He1 & Hw1).
    apply within_bound in Hw1; [ | lia].
    pose proof (unit_length_pos r1 Hr1) as Hp1.
    pose proof (unit_length_pos r2 Hr2) as Hp2.
    set (c := unit_length r1 / unit_length r2) in *.
    assert (Hc : 0 < c) by (apply Qlt_shift_div_l; lra).
    set (a := B2Q (rescale r1 r2 n)) in *. set (b := B2Q n) in *.
    assert (Hlow : Qabs (b * c) <= Qabs a + Qabs (a - b * c)).
    { setoid_replace (b * c) with (a + - (a - b * c)) at 1 by ring.
      rewrite <- (Qabs_opp (a - b * c)). apply Qabs_triangle. }
    assert (Hhigh : Qabs a <= Qabs (b * c) + Qabs (a - b * c)).
    { setoid_replace a with (b * c + (a - b * c)) at 1 by ring.
      apply Qabs_triangle. }
    rewrite Qabs_Qmult, (Qabs_pos c) in * by lra.
    pose proof (Qabs_nonneg b). unfold unit_roundoff in *.
    set (x1 := Qabs a) in *. set (x2 := Qabs b) in *.
    set (x3 := Qabs (a - b * c)) in *. clearbody x1 x2 x3.
    split; intros Hle.
    + assert (Hr : 4 <= c).
      { apply Qle_shift_div_l; [exact Hp2 | ].
        apply unit_length_ratio; lia. }
      nra.
    + assert (Hr : c <= 1 # 4).
      { apply Qle_shift_div_r; [exact Hp2 | ].
        pose proof (unit_length_ratio r1 r2 ltac:(lia) Hr2). lra. }
      nra.
Qed.

End RoundingError.

(** ** The search: where it lands, and that it ends *)

(** C2. For every magnitude [n] that is a number (in binary64: every value
    but NaN, so every finite non-negative one; in exact arithmetic: every
    rational) and every recognized unit, [concise] returns [n] expressed in
    a unit that is millisecond, or year, or one in which the value is at
    least 1 and below that unit's next factor.  In binary64,
    [concise(90, 'min')] is 1.5 hr, [concise(0.5, 'ms')] is 0.5 ms and
    [concise(400, 'yr')] is 400 yr. *)
Theorem concise_natural_range :
  (forall (n : float) (u : string) (p : value float) (r : nat),
      (n =? n)%float = true ->
      unit_rank u = Some r ->
      exists (d : Duration float) (r' : nat),
        Duration_concise 8 n (VStr u) p = Some (Ok d)
        /\ unit_rank (_unit d) = Some r'
        /\ _duration d = rescale r r' n
        /\ (_unit d = "ms"
            \/ _unit d = "yr"
            \/ ((1 <=? _duration d)%float = true
                /\ (_duration d <? factor r')%float = true)))
  /\ (forall (n : Q) (u : string) (p : value Q) (r : nat),
         unit_rank u = Some r ->
         exists (d : Duration Q) (r' : nat),
           Duration_concise 8 n (VStr u) p = Some (Ok d)
           /\ unit_rank (_unit d) = Some r'
           /\ _duration d = rescale r r' n
           /\ (_unit d = "ms"
               \/ _unit d = "yr"
               \/ (1 <= _duration d /\ _duration d < factor r')%Q))
  /\ Duration_concise 8 90%float (VStr "min") VUndefined
     = Some (Ok {| _duration := 1.5%float; _unit := "hr";
                   _precision := 2%float; _abbr := true |})
  /\ Duration_concise 8 0.5%float (VStr "ms") VUndefined
     = Some (Ok {| _duration := 0.5%float; _unit := "ms";
                   _precision := 2%float; _abbr := true |})
  /\ Duration_concise 8 400%float (VStr "yr") VUndefined
     = Some (Ok {| _duration := 400%float; _unit := "yr";
                   _precision := 2%float; _abbr := true |}).
Proof.
  split; [ | split; [ | repeat split; vm_compute; reflexivity]].
  - intros n u p r Hnum Hu. pose proof (unit_rank_le _ _ Hu) as Hr.
    destruct (search_outcome binary64_finer_stays_below
                binary64_coarser_stays_above n u p r Hu)
      as (k & d & r' & Hk & Htook & Hud & _ & Hdd & Hend).
    pose proof (unit_rank_le _ _ Hud) as Hr'.
    exists d, r'. split; [apply (took_fuel Htook); lia | ].
    split; [exact Hud | ]. split; [exact Hdd | ].
    destruct (Nat.eq_dec r' 0) as [-> | Hne0];
      [left; symmetry; exact (unit_name_rank _ _ Hud) | ].
    destruct (Nat.eq_dec r' 7) as [-> | Hne7];
      [right; left; symmetry; exact (unit_name_rank _ _ Hud) | ].
    destruct Hend as [-> | [-> | [Hlow Hhigh]]]; try contradiction.
    right; right.
    assert (Hd : is_number (Prim2SF (_duration d))).
    { rewrite Hdd. apply rescale_is_number; try assumption.
      apply eqb_refl_is_number, Hnum. }
    destruct (factor_binary64_normal r' ltac:(lia)) as (mf & ef & Hf & _).
    assert (Hfn : is_number (Prim2SF (factor (num := float) r')))
      by (rewrite Hf; exact I).
    split.
    + apply (ltb_false_leb (_duration d) 1%float Hd I Hlow).
    + apply (leb_false_ltb (factor r') (_duration d) Hfn Hd Hhigh).
  - intros n u p r Hu. pose proof (unit_rank_le _ _ Hu) as Hr.
    destruct (search_outcome exact_finer_stays_below
                exact_coarser_stays_above n u p r Hu)
      as (k & d & r' & Hk & Htook & Hud & _ & Hdd & Hend).
    exists d, r'. split; [apply (took_fuel Htook); lia | ].
    split; [exact Hud | ]. split; [exact Hdd | ].
    destruct Hend as [-> | [-> | [Hlow Hhigh]]].
    + left. symmetry. exact (unit_name_rank _ _ Hud).
    + right; left. symmetry. exact (unit_name_rank _ _ Hud).
    + right; right. split.
      * apply (proj1 (Qltb_ge (_duration d) 1) Hlow).
      * apply (proj1 (Qle_bool_lt (factor r') (_duration d)) Hhigh).
Qed.

Lemma concise_natural_range_witness :
  ((7200 =? 7200)%float = true
   /\ unit_rank "s" = Some 1
   /\ exists (d : Duration float) (r' : nat),
        Duration_concise 8 7200%float (VStr "s") VUndefined = Some (Ok d)
        /\ unit_rank (_unit d) = Some r'
        /\ _duration d = rescale 1 r' 7200%float
        /\ (_unit d = "ms"
            \/ _unit d = "yr"
            \/ ((1 <=? _duration d)%float = true
                /\ (_duration d <? factor r')%float = true)))
  /\ unit_rank "s" = Some 1
  /\ exists (d : Duration Q) (r' : nat),
       Duration_concise 8 (7200 # 1)%Q (VStr "s") VUndefined = Some (Ok d)
       /\ unit_rank (_unit d) = Some r'
       /\ _duration d = rescale 1 r' (7200 # 1)%Q
       /\ (_unit d = "ms"
           \/ _unit d = "yr"
           \/ (1 <= _duration d /\ _duration d < factor r')%Q).
Proof.
  split; [split; [reflexivity | split; [reflexivity | ]] | split; [reflexivity | ]].
  - exact (proj1 concise_natural_range 7200%float "s" VUndefined 1
                 eq_refl eq_refl).
  - exact (proj1 (proj2 concise_natural_range) (7200 # 1)%Q "s" VUndefined 1
                 eq_refl).
Defined.

(** C3. Every recursive call of [concise] on a recognized unit is made on
    the unit one rank finer or one rank coarser.  In binary64, on every
    value (every finite non-negative number, and also the negative ones,
    the infinities and NaN), as in exact arithmetic, the search returns
    after exactly [k] recursive calls for some [k <= 7], below the bound
    of 8, and ends [k] ranks finer or [k] ranks coarser than it started:
    it never turns back. *)
Theorem concise_terminates_within_table :
  (forall (num : Type) (N : JSNumber num) (n n' : num) (u : string)
          (p u' p' : value num) (r : nat),
      unit_rank u = Some r ->
      concise_step n (VStr u) p = Ok (Recurse n' u' p') ->
      exists r' : nat,
        u' = VStr (unit_name r') /\ r' <= 7 /\ (S r' = r \/ r' = S r))
  /\ (forall (n : float) (u : string) (p : value float) (r : nat),
         unit_rank u = Some r -> ends_one_way n u p r)
  /\ (forall (n : Q) (u : string) (p : value Q) (r : nat),
         unit_rank u = Some r -> ends_one_way n u p r).
Proof.
  split; [ | split].
  - intros num N n n' u p u' p' r Hu. pose proof (unit_rank_le _ _ Hu) as Hr.
    rewrite (concise_step_unit n u p r Hu). cbv zeta.
    destruct (nlt n (integer 1)).
    + destruct r as [ | r0]; [discriminate | ].
      intros [= _ <- _]. exists r0. repeat split; [lia | tauto].
    + destruct (nge n (factor r)); [ | discriminate].
      destruct (Nat.leb_spec 7 r) as [Hge | Hlt]; [discriminate | ].
      intros [= _ <- _]. exists (S r). repeat split; [lia | tauto].
  - intros n u p r.
    exact (search_ends_one_way binary64_finer_stays_below
             binary64_coarser_stays_above n u p r).
  - intros n u p r.
    exact (search_ends_one_way exact_finer_stays_below
             exact_coarser_stays_above n u p r).
Qed.

Lemma concise_terminates_within_table_witness :
  (unit_rank "min" = Some 2
   /\ concise_step 90%float (VStr "min") VUndefined
      = Ok (Recurse 1.5%float (VStr "hr") VUndefined)
   /\ exists r' : nat,
        VStr "hr" = VStr (num := float) (unit_name r')
        /\ r' <= 7 /\ (S r' = 2 \/ r' = 3))
  /\ (unit_rank "yr" = Some 7
      /\ ends_one_way 0x1p-1074%float "yr" VUndefined 7)
  /\ (unit_rank "yr" = Some 7
      /\ ends_one_way (1 # 1000000)%Q "yr" VUndefined 7).
Proof.
  split; [split; [reflexivity | split; [vm_compute; reflexivity | ]] | ].
  - apply (proj1 concise_terminates_within_table float binary64
                 90%float 1.5%float "min" VUndefined (VStr "hr") VUndefined 2).
    + reflexivity.
    + vm_compute. reflexivity.
  - split; (split; [reflexivity | ]).
    + exact (proj1 (proj2 concise_terminates_within_table) 0x1p-1074%float
                   "yr" VUndefined 7 eq_refl).
    + exact (proj2 (proj2 concise_terminates_within_table) (1 # 1000000)%Q
                   "yr" VUndefined 7 eq_refl).
Defined.

(** C10. For every negative magnitude, in binary64 (every value below 0,
    down to [-Infinity]) as in exact arithmetic, and every recognized unit
    of rank [r], [concise] makes exactly [r] recursive calls, one per rank
    down to millisecond, and returns in milliseconds [n] multiplied by the
    factors of the ranks [r-1], ..., [0] of the scale table, in this order:
    [n] converted all the way down to milliseconds. *)
Theorem concise_negative_reaches_ms :
  (forall (n : float) (u : string) (p : value float) (r : nat),
      (n <? 0)%float = true ->
      unit_rank u = Some r ->
      exists d : Duration float,
        Duration_concise 8 n (VStr u) p = Some (Ok d)
        /\ took r n u p d
        /\ _unit d = "ms"
        /\ _duration d
           = fold_left (fun a i => (a * factor i)%float) (rev (seq 0 r)) n)
  /\ (forall (n : Q) (u : string) (p : value Q) (r : nat),
         (n < 0)%Q ->
         unit_rank u = Some r ->
         exists d : Duration Q,
           Duration_concise 8 n (VStr u) p = Some (Ok d)
           /\ took r n u p d
           /\ _unit d = "ms"
           /\ _duration d
              = fold_left (fun a i => (a * factor i)%Q) (rev (seq 0 r)) n).
Proof.
  split.
  - exact search_negative_binary64.
  - exact search_negative_exact.
Qed.

Lemma concise_negative_reaches_ms_witness :
  ((-3 <? 0)%float = true
   /\ unit_rank "hr" = Some 3
   /\ exists d : Duration float,
        Duration_concise 8 (-3)%float (VStr "hr") (VNum 2%float) = Some (Ok d)
        /\ took 3 (-3)%float "hr" (VNum 2%float) d
        /\ _unit d = "ms"
        /\ _duration d = (-3 * 60 * 60 * 1000)%float)
  /\ ((-3 # 1 < 0)%Q
      /\ unit_rank "hr" = Some 3
      /\ exists d : Duration Q,
           Duration_concise 8 (-3 # 1)%Q (VStr "hr") (VNum (2 # 1)%Q)
           = Some (Ok d)
           /\ took 3 (-3 # 1)%Q "hr" (VNum (2 # 1)%Q) d
           /\ _unit d = "ms"
           /\ _duration d
              = fold_left (fun a i => (a * factor i)%Q) (rev (seq 0 3))
                  (-3 # 1)%Q).
Proof.
  split; (split; [reflexivity | split; [reflexivity | ]]).
  - exact (proj1 concise_negative_reaches_ms (-3)%float "hr" (VNum 2%float) 3
                 eq_refl eq_refl).
  - exact (proj2 concise_negative_reaches_ms (-3 # 1)%Q "hr" (VNum (2 # 1)%Q) 3
                 eq_refl eq_refl).
Defined.

(** ** Converting there and back *)

Section ExactRoundTrip.

Local Open Scope Q_scope.

Lemma factor_product_cons (r : nat) (l : list nat) :
  factor_product (r :: l) = factor r * factor_product l.
Proof. reflexivity. Qed.

Lemma factor_product_pos (l : list nat) :
  (forall r, In r l -> (r < 7)%nat) -> 0 < factor_product l.
Proof.
  induction l as [ | r l IH]; intros Hl.
  - reflexivity.
  - rewrite factor_product_cons. apply Qmult_lt_0_compat.
    + apply factor_exact_pos, Hl. left. reflexivity.
    + apply IH. intros r' Hr'. apply Hl. right. exact Hr'.
Qed.

Lemma factor_product_app (l1 l2 : list nat) :
  factor_product (l1 ++ l2) == factor_product l1 * factor_product l2.
Proof.
  induction l1 as [ | r l1 IH].
  - change (factor_product []) with 1. cbn [app]. ring.
  - cbn [app]. rewrite !factor_product_cons, IH. ring.
Qed.

Lemma factor_product_rev (l : list nat) :
  factor_product (rev l) == factor_product l.
Proof.
  induction l as [ | r l IH]; cbn [rev]; [reflexivity | ].
  rewrite factor_product_app, IH, !factor_product_cons.
  change (factor_product []) with 1. ring.
Qed.

Lemma fold_times (l : list nat) (n : Q) :
  fold_left (fun a r => nmul a (factor r)) l n == n * factor_product l.
Proof.
  revert n. induction l as [ | r l IH]; intros n; cbn [fold_left].
  - change (factor_product []) with 1. ring.
  - rewrite IH, factor_product_cons. cbn [nmul exact]. ring.
Qed.

Lemma fold_over (l : list nat) (n : Q) :
  (forall r, In r l -> (r < 7)%nat) ->
  fold_left (fun a r => ndiv a (factor r)) l n == n / factor_product l.
Proof.
  revert n. induction l as [ | r l IH]; intros n Hl; cbn [fold_left].
  - change (factor_product []) with 1. field.
  - assert (Hr : 0 < factor (num := Q) r)
      by (apply factor_exact_pos, Hl; left; reflexivity).
    assert (Hp : 0 < factor_product l).
    { apply factor_product_pos. intros r' Hr'. apply Hl. right. exact Hr'. }
    rewrite IH by (intros r' Hr'; apply Hl; right; exact Hr').
    rewrite factor_product_cons. cbn [ndiv exact].
    field. split; apply Qnot_eq_sym, Qlt_not_eq; assumption.
Qed.

Lemma seq_below (lo len r : nat) :
  (lo + len <= 7)%nat -> In r (seq lo len) -> (r < 7)%nat.
Proof. intros Hb Hin. apply in_seq in Hin. lia. Qed.

(** Rescaling from [r1] to [r2] and back gives the magnitude again. *)
Lemma rescale_there_and_back (r1 r2 : nat) (n : Q) :
  (r1 <= 7)%nat -> (r2 <= 7)%nat -> rescale r2 r1 (rescale r1 r2 n) == n.
Proof.
  intros H1 H2. unfold rescale.
  destruct (Nat.ltb_spec r2 r1) as [Hlt | Hge].
  - replace (Nat.ltb r1 r2) with false by (symmetry; apply Nat.ltb_ge; lia).
    unfold ranks_up, ranks_down.
    assert (Hp : 0 < factor_product (seq r2 (r1 - r2)))
      by (apply factor_product_pos; intros r; apply seq_below; lia).
    rewrite fold_over by (intros r; apply seq_below; lia).
    rewrite fold_times, factor_product_rev.
    field. apply Qnot_eq_sym, Qlt_not_eq. exact Hp.
  - destruct (Nat.ltb_spec r1 r2) as [Hlt | Hge'].
    + replace (Nat.ltb r2 r1) with false by (symmetry; apply Nat.ltb_ge; lia).
      unfold ranks_up, ranks_down.
      assert (Hp : 0 < factor_product (seq r1 (r2 - r1)))
        by (apply factor_product_pos; intros r; apply seq_below; lia).
      rewrite fold_times, factor_product_rev.
      rewrite fold_over by (intros r; apply seq_below; lia).
      field. apply Qnot_eq_sym, Qlt_not_eq. exact Hp.
    + replace (Nat.ltb r2 r1) with false by (symmetry; apply Nat.ltb_ge; lia).
      reflexivity.
Qed.

End ExactRoundTrip.

(** C4, as the code has it.  In binary64, for all recognized units and
    every magnitude [n] that is zero or lies between [2^-848] and [2^853],
    converting [n] from [u1] to [u2] and back returns a double within the
    relative error [2^-48] of [n]: the bound is proportional to the
    magnitude of [n] and does not depend on the precision.  So the result
    is within 10^-2 of [n] as long as [|n| <= 2^41].  In exact arithmetic
    the round trip returns [n] itself: the difference is rounding only. *)
Theorem convert_roundtrip_relative_error :
  (forall (n : float) (u1 u2 : string) (p : value float) (r1 r2 : nat),
      unit_rank u1 = Some r1 ->
      unit_rank u2 = Some r2 ->
      safe_magnitude (Prim2SF n) ->
      exists back : float,
        roundtrip n (VStr u1) (VStr u2) p = Ok back
        /\ (Qabs (B2Q back - B2Q n)
            <= (1 # 281474976710656) * Qabs (B2Q n))%Q
        /\ ((Qabs (B2Q n) <= 2199023255552 # 1)%Q ->
            (Qabs (B2Q back - B2Q n) <= 1 # 100)%Q))
  /\ (forall (n : Q) (u1 u2 : string) (p : value Q) (r1 r2 : nat),
         unit_rank u1 = Some r1 ->
         unit_rank u2 = Some r2 ->
         exists back : Q,
           roundtrip n (VStr u1) (VStr u2) p = Ok back /\ (back == n)%Q).
Proof.
  split.
  - intros n u1 u2 p r1 r2 H1 H2 Hsafe.
    pose proof (unit_rank_le _ _ H1) as Hr1.
    pose proof (unit_rank_le _ _ H2) as Hr2.
    exists (rescale r2 r1 (rescale r1 r2 n)).
    split.
    { unfold roundtrip.
      rewrite (convert_units n u1 u2 p r1 r2 H1 H2). cbn [bind].
      unfold Duration_prototype_duration at 1. cbn [_duration].
      rewrite (convert_units _ u2 u1 p r2 r1 H2 H1). reflexivity. }
    pose proof (roundtrip_error n r1 r2 Hr1 Hr2 Hsafe) as Hrel.
    split; [exact Hrel | ].
    intros Hsmall. lra.
  - intros n u1 u2 p r1 r2 H1 H2. unfold roundtrip.
    rewrite (convert_units n u1 u2 p r1 r2 H1 H2). cbn [bind].
    unfold Duration_prototype_duration at 1. cbn [_duration].
    rewrite (convert_units _ u2 u1 p r2 r1 H2 H1). cbn [bind].
    eexists. split; [reflexivity | ].
    unfold Duration_prototype_duration. cbn [_duration].
    apply rescale_there_and_back; eauto using unit_rank_le.
Qed.

Lemma convert_roundtrip_relative_error_witness :
  (unit_rank "wk" = Some 5 /\ unit_rank "mo" = Some 6
   /\ safe_magnitude (Prim2SF 3%float)
   /\ exists back : float,
        roundtrip 3%float (VStr "wk") (VStr "mo") VUndefined = Ok back
        /\ (Qabs (B2Q back - B2Q 3%float)
            <= (1 # 281474976710656) * Qabs (B2Q 3%float))%Q
        /\ ((Qabs (B2Q 3%float) <= 2199023255552 # 1)%Q ->
            (Qabs (B2Q back - B2Q 3%float) <= 1 # 100)%Q))
  /\ (unit_rank "wk" = Some 5 /\ unit_rank "mo" = Some 6
      /\ exists back : Q,
           roundtrip (3 # 1)%Q (VStr "wk") (VStr "mo") VUndefined = Ok back
           /\ (back == 3 # 1)%Q).
Proof.
  split; (split; [reflexivity | split; [reflexivity | ]]).
  - split; [vm_compute; split; discriminate | ].
    apply (proj1 convert_roundtrip_relative_error 3%float "wk" "mo"
                 VUndefined 5 6 eq_refl eq_refl).
    vm_compute. split; discriminate.
  - exact (proj2 convert_roundtrip_relative_error (3 # 1)%Q "wk" "mo"
                 VUndefined 5 6 eq_refl eq_refl).
Defined.

(** C4, as stated, fails in binary64: 1e15 ms converted to years and back
    comes out 0.125 ms short, further from the start than 10^-2. *)
Lemma convert_roundtrip_binary64_drifts :
  roundtrip 1e15%float (VStr "ms") (VStr "yr") VUndefined
  = Ok 999999999999999.875%float
  /\ PrimFloat.leb
       (PrimFloat.abs (PrimFloat.sub 999999999999999.875%float 1e15%float))
       (decimal 1 2)
     = false.
Proof. split; vm_compute; reflexivity. Qed.

(** ** Precision *)

Section PrecisionFacts.

Context {num : Type} `{JSNumber num}.

Lemma recorded_precision_default (p : value num) :
  match (if ToBoolean p then p else VNum (integer 2)) with
  | VNum x => x
  | _ => options_precision
  end = recorded_precision p.
Proof.
  unfold recorded_precision, ToBoolean, options_precision.
  destruct p as [ | | b | x | t]; try reflexivity.
  - destruct b; reflexivity.
  - destruct (truthy x); reflexivity.
  - destruct (negb (t =? "")); reflexivity.
Qed.

(** Whatever the units, a [Duration] that [convert] returns carries
    [recorded_precision] of the precision argument. *)
Lemma convert_precision (n : num) (from to p : value num) (d : Duration num) :
  Duration_convert n from to p = Ok d -> _precision d = recorded_precision p.
Proof.
  unfold Duration_convert.
  destruct (rank_of from) as [cu | ]; [cbn [bind] | discriminate].
  destruct (rank_of to) as [du | ]; [cbn [bind] | discriminate].
  destruct (walk cu du n) as [n' | ]; [cbn [bind] | discriminate].
  destruct (unitRefs_at du) as [e | ]; [cbn [bind] | discriminate].
  intros [= <-]. unfold new_Duration, precision_only.
  cbn [_precision opts_precision]. apply recorded_precision_default.
Qed.

End PrecisionFacts.

(** C6, as the code has it. The [Duration] returned by [convert] carries
    the precision argument when that is a truthy number and the default 2
    otherwise; 0 is falsy in both number models, so an explicit precision
    of 0 is replaced by 2, as an absent or non-numeric one is. *)
Theorem convert_precision_fallback :
  (forall (num : Type) (N : JSNumber num) (n : num) (from to p : value num)
          (d : Duration num),
      Duration_convert n from to p = Ok d ->
      _precision d
      = match p with
        | VNum x => if truthy x then x else integer 2
        | _ => integer 2
        end)
  /\ truthy (integer 0 : float) = false
  /\ truthy (integer 0 : Q) = false.
Proof.
  split; [ | split; reflexivity].
  intros num N n from to p d Hd. exact (convert_precision n from to p d Hd).
Qed.

Lemma convert_precision_fallback_witness :
  Duration_convert 2.5%float (VStr "hr") (VStr "hr") (VNum 0%float)
  = Ok {| _duration := 2.5%float; _unit := "hr";
          _precision := 2%float; _abbr := true |}
  /\ _precision {| _duration := 2.5%float; _unit := "hr";
                   _precision := 2%float; _abbr := true |}
     = if truthy 0%float then 0%float else integer 2.
Proof.
  split; [vm_compute; reflexivity | ].
  exact (proj1 convert_precision_fallback float binary64 2.5%float
               (VStr "hr") (VStr "hr") (VNum 0%float) _ eq_refl).
Defined.

(** C6, as stated, fails: with precision 0, [convert] leaves 2.5 hours as
    2.5, which is not what rounding to the nearest integer gives (3), and
    records precision 2. *)
Lemma convert_precision_zero_unrounded :
  exists d : Duration float,
    Duration_convert 2.5%float (VStr "hr") (VStr "hr") (VNum 0%float) = Ok d
    /\ _precision d = 2%float
    /\ _duration d = 2.5%float
    /\ decimalRound 2.5%float 0%float = 3%float
    /\ _duration d <> decimalRound 2.5%float 0%float.
Proof.
  eexists. split; [vm_compute; reflexivity | ]. split; [reflexivity | ].
  split; [reflexivity | ]. split; [vm_compute; reflexivity | ].
  cbn [_duration]. intros Heq. apply (f_equal Prim2SF) in Heq.
  vm_compute in Heq. discriminate.
Qed.

(** C5: the code at a failing input. [concise(90, 'min', 5)] moves to a
    coarser unit and returns a [Duration] of precision 2; [concise(0.5,
    'hr', 5)] moves to a finer unit and keeps precision 5. *)
Theorem concise_coarsening_drops_precision :
  Duration_concise 8 90%float (VStr "min") (VNum 5%float)
  = Some (Ok {| _duration := 1.5%float; _unit := "hr";
                _precision := 2%float; _abbr := true |})
  /\ Duration_concise 8 0.5%float (VStr "hr") (VNum 5%float)
     = Some (Ok {| _duration := 30%float; _unit := "min";
                   _precision := 5%float; _abbr := true |}).
Proof. split; vm_compute; reflexivity. Qed.

(** ** Unit arguments that are not unit identifiers *)

Section Fallback.

Context {num : Type} `{JSNumber num}.

Lemma rank_of_fallback (u : value num) :
  names_property u = false -> rank_of u = rank_of (VStr "hr" : value num).
Proof.
  destruct u as [ | | b | x | k]; try reflexivity.
  cbn [names_property rank_of]. intros ->. reflexivity.
Qed.

Lemma unit_or_hr_fallback (u : value num) :
  names_property u = false -> unit_or_hr u = "hr".
Proof.
  destruct u as [ | | b | x | k]; try reflexivity.
  cbn [names_property unit_or_hr]. intros ->. reflexivity.
Qed.

(** A [from] argument that names no property of [units] is read as ['hr']. *)
Lemma convert_fallback_from (n : num) (from to p : value num) :
  names_property from = false ->
  Duration_convert n from to p = Duration_convert n (VStr "hr") to p.
Proof.
  intros Hf. unfold Duration_convert. rewrite (rank_of_fallback from Hf).
  reflexivity.
Qed.

(** So is a [to] argument. *)
Lemma convert_fallback_to (n : num) (from to p : value num) :
  names_property to = false ->
  Duration_convert n from to p = Duration_convert n from (VStr "hr") p.
Proof.
  intros Ht. unfold Duration_convert. rewrite (rank_of_fallback to Ht).
  reflexivity.
Qed.

Lemma concise_step_fallback (n : num) (u p : value num) :
  names_property u = false ->
  concise_step n u p = concise_step n (VStr "hr") p.
Proof.
  intros Hu. unfold concise_step, new_Duration.
  rewrite (rank_of_fallback u Hu), (unit_or_hr_fallback u Hu).
  change (unit_or_hr (VStr "hr" : value num)) with "hr".
  destruct (rank_of (VStr "hr" : value num)) as [r | ]; [cbn [bind] | reflexivity].
  destruct (unitRefs_at r) as [e | ]; [cbn [bind] | reflexivity].
  destruct (nlt n (integer 1)).
  - destruct (rank_le r (Some 0)); [reflexivity | ].
    destruct (unitRefs_at (option_map Nat.pred r)) as [e' | ];
      [cbn [bind] | reflexivity].
    rewrite (convert_fallback_from n u _ p Hu). reflexivity.
  - destruct (nge n (ToNumber (next e))); [ | reflexivity].
    destruct (rank_le (Some (List.length unitRefs - 1)) r); [reflexivity | ].
    destruct (unitRefs_at (option_map S r)) as [e' | ];
      [cbn [bind] | reflexivity].
    rewrite (convert_fallback_from n u _ p Hu). reflexivity.
Qed.

(** The search reads such a unit argument as ['hr'] too. *)
Lemma concise_fallback (fuel : nat) (n : num) (u p : value num) :
  names_property u = false ->
  Duration_concise fuel n u p = Duration_concise fuel n (VStr "hr") p.
Proof.
  intros Hu. destruct fuel as [ | fuel]; [reflexivity | ].
  cbn [Duration_concise]. rewrite (concise_step_fallback n u p Hu).
  reflexivity.
Qed.

End Fallback.

(** C7: the code at failing inputs. ['constructor'] is not a unit
    identifier, yet [units] inherits a property of that name: as [from] it
    yields an undefined rank, so 5 is returned unscaled where 5 hours are
    300 minutes; as [to], and as the unit of [concise], it makes the call
    throw.  An identifier that names no property at all, such as
    ['bogus-unit'], is read as ['hr']. *)
Theorem convert_inherited_name_not_hour :
  Duration_convert 5%float (VStr "constructor") (VStr "min") VUndefined
  = Ok {| _duration := 5%float; _unit := "min";
          _precision := 2%float; _abbr := true |}
  /\ Duration_convert 5%float (VStr "hr") (VStr "min") VUndefined
     = Ok {| _duration := 300%float; _unit := "min";
             _precision := 2%float; _abbr := true |}
  /\ Duration_convert 5%float (VStr "hr") (VStr "constructor") VUndefined
     = TypeError
  /\ Duration_concise 8 5%float (VStr "constructor") VUndefined
     = Some TypeError
  /\ Duration_convert 5%float (VStr "bogus-unit") (VStr "min") VUndefined
     = Duration_convert 5%float (VStr "hr") (VStr "min") VUndefined.
Proof. repeat split; vm_compute; reflexivity. Qed.

(** ** Rounding to a number of decimals *)







(** ** Rendering *)

Lemma rev_head_app {A : Type} (l : list A) (x : A) :
  l <> [] -> exists y l', rev l = y :: l' /\ rev (x :: l) = y :: l' ++ [x].
Proof.
  intros Hl. destruct (rev l) as [ | y l'] eqn:Hrev.
  - apply (f_equal (@rev A)) in Hrev. rewrite rev_involutive in Hrev.
    contradiction.
  - exists y, l'. split; [reflexivity | ]. cbn [rev]. rewrite Hrev. reflexivity.
Qed.

(** [substr(-1)] is the last character. *)
Lemma substr_last_rev (t : string) :
  substr_last t
  = match rev (list_ascii_of_string t) with
    | c :: _ => String c EmptyString
    | [] => EmptyString
    end.
Proof.
  induction t as [ | c t IH]; [reflexivity | ].
  destruct t as [ | c' t'] eqn:Ht; [reflexivity | ].
  change (substr_last (String c (String c' t')))
    with (substr_last (String c' t')).
  rewrite IH. cbn [list_ascii_of_string].
  destruct (rev_head_app (c' :: list_ascii_of_string t') c) as (y & l' & H1 & H2);
    [discriminate | ].
  rewrite H1, H2. reflexivity.
Qed.

(** [pluralize] appends an ["s"] unless the string ends in one. *)
Lemma pluralize_ends_in_s (t : string) :
  pluralize t = if ends_in_s t then t else t ++ "s".
Proof.
  unfold pluralize, ends_in_s. rewrite substr_last_rev.
  destruct (rev (list_ascii_of_string t)) as [ | c l]; [reflexivity | ].
  cbn [String.eqb]. destruct (Ascii.eqb c "s"); reflexivity.
Qed.

(** On a [Duration] whose unit is one of the table's, [toString] is the
    magnitude's string, the separator (a space unless a string is given),
    and the abbreviated or full unit name with an ["s"] appended unless it
    ends in one, whatever the magnitude. *)
Lemma toString_on_table_unit :
  forall (num : Type) (N : JSNumber num) (NumberToString : num -> string)
         (d : Duration num) (sep : value num) (info : unit_info),
    assoc (_unit d) units = Some info ->
    Duration_prototype_toString NumberToString d sep
    = Ok (NumberToString (_duration d)
          ++ match sep with VStr t => t | _ => " " end
          ++ (let name := if _abbr d then abbr info else full info in
              if ends_in_s name then name else name ++ "s")).
Proof.
  intros num N NumberToString d sep info Hu.
  unfold Duration_prototype_toString, units_get. rewrite Hu.
  rewrite pluralize_ends_in_s. reflexivity.
Qed.

(** C9: the code at failing inputs.  ['valueOf'] and ['constructor'] are
    not units, yet [units] inherits properties of these names, so the
    constructor and the setter [unit(s)] store them; on the instances they
    build, [toString] throws for every separator and however numbers
    print, where the claim has it render the magnitude, the separator and
    a pluralized unit name.  On instances that hold a unit of the table it
    renders as claimed, with numbers printed by Number::toString: one day
    converted to hours is ["24 hrs"], one hour is ["1 hrs"], and minus one
    week, spelled out and without a separator, is ["-1weeks"]. *)
Theorem toString_throws_on_inherited_unit :
  (forall (NumberToString : float -> string) (sep : value float),
      Duration_prototype_toString NumberToString
        (new_Duration (VNum 5%float) (VStr "valueOf") None) sep
      = TypeError)
  /\ (forall (NumberToString : float -> string) (sep : value float),
         Duration_prototype_toString NumberToString
           (fst (Duration_prototype_unit_call
                   (new_Duration (VNum 1%float) (VStr "day") None)
                   (VStr "constructor"))) sep
         = TypeError)
  /\ (d <- Duration_prototype_to
             (new_Duration (VNum 1%float) (VStr "day") None) (VStr "hr") ;;
      Duration_prototype_toString Number_toString d VUndefined)
     = Ok "24 hrs"
  /\ Duration_prototype_toString Number_toString
       (new_Duration (VNum 1%float) (VStr "hr") None) VUndefined
     = Ok "1 hrs"
  /\ Duration_prototype_toString Number_toString
       {| _duration := (-1)%float; _unit := "wk";
          _precision := 2%float; _abbr := false |} (VStr "")
     = Ok "-1weeks".
Proof.
  split; [intros NumberToString sep; reflexivity | ].
  split; [intros NumberToString sep; reflexivity | ].
  repeat split; vm_compute; reflexivity.
Qed.

(** * Further properties of the code *)

(** ** When the static functions throw, and the unit of what they return *)

Section UnitArguments.

Context {num : Type} `{JSNumber num}.

Lemma unit_rank_inherited (k : string) (r : nat) :
  unit_rank k = Some r -> inherited_name (VStr k : value num) = false.
Proof.
  unfold unit_rank, inherited_name, units_get.
  destruct (assoc k units); [reflexivity | discriminate].
Qed.

Lemma unit_or_default_unit (k : string) (r : nat) :
  unit_rank k = Some r -> unit_or_default (VStr k : value num) = k.
Proof.
  unfold unit_rank, unit_or_default.
  destruct (assoc k units); [reflexivity | discriminate].
Qed.

(** A unit argument either names an inherited property, or stands for a
    unit of the table; if it is not that unit's identifier, it names no
    property. *)
Lemma unit_argument_cases (u : value num) :
  inherited_name u = true
  \/ (inherited_name u = false
      /\ (exists r : nat, unit_rank (unit_or_default u) = Some r)
      /\ (u = VStr (unit_or_default u) \/ names_property u = false)).
Proof.
  destruct u as [ | | b | x | k];
    try (right; split; [reflexivity | ];
         split; [exists 3; reflexivity | right; reflexivity]).
  unfold inherited_name, unit_or_default, names_property, in_units, units_get,
    unit_rank.
  destruct (assoc k units) as [info | ] eqn:Hk.
  - right. split; [reflexivity | ]. rewrite Hk.
    split; [exists (ref info); reflexivity | left; reflexivity].
  - destruct (existsb (String.eqb k) Object_prototype).
    + left. reflexivity.
    + right. split; [reflexivity | ].
      split; [exists 3; reflexivity | right; reflexivity].
Qed.

Lemma rank_of_inherited (u : value num) :
  inherited_name u = true -> rank_of u = Ok None.
Proof.
  destruct u as [ | | b | x | k]; try discriminate.
  unfold inherited_name, rank_of, in_units, unitRef.
  destruct (units_get k); try discriminate. reflexivity.
Qed.

Lemma rank_of_default (u : value num) :
  inherited_name u = false ->
  rank_of u = rank_of (VStr (unit_or_default u) : value num).
Proof.
  intros Hu. destruct (unit_argument_cases u) as [Hi | (_ & _ & [He | Hn])].
  - congruence.
  - rewrite <- He. reflexivity.
  - rewrite (rank_of_fallback u Hn).
    destruct u as [ | | b | x | k]; try reflexivity.
    unfold unit_or_default. unfold names_property, in_units, units_get in Hn.
    destruct (assoc k units); [discriminate | reflexivity].
Qed.

Lemma unit_or_hr_default (u : value num) :
  inherited_name u = false -> unit_or_hr u = unit_or_default u.
Proof.
  intros Hu. destruct (unit_argument_cases u) as [Hi | (_ & [r Hr] & [He | Hn])].
  - congruence.
  - rewrite He at 1. apply (unit_or_hr_unit _ _ Hr).
  - rewrite (unit_or_hr_fallback u Hn).
    destruct u as [ | | b | x | k]; try reflexivity.
    unfold unit_or_default. unfold names_property, in_units, units_get in Hn.
    destruct (assoc k units); [discriminate | reflexivity].
Qed.

Lemma walk_returns (cu : rank) (n : num) (d : nat) :
  (forall c : nat, cu = Some c -> c <= 7) -> d <= 7 ->
  exists n' : num, walk cu (Some d) n = Ok n'.
Proof.
  intros Hc Hd. destruct cu as [c | ].
  - exists (rescale c d n). apply walk_rescale; [apply Hc; reflexivity | exact Hd].
  - exists n. reflexivity.
Qed.

(** What [convert] does with any arguments: it throws when [to] names an
    inherited property, and otherwise returns a [Duration] in the unit
    that [to] stands for. *)
Lemma convert_cases (n : num) (from to p : value num) :
  (inherited_name to = true /\ Duration_convert n from to p = TypeError)
  \/ (inherited_name to = false
      /\ exists n' : num,
           Duration_convert n from to p
           = Ok {| _duration := n'; _unit := unit_or_default to;
                   _precision := recorded_precision p; _abbr := true |}).
Proof.
  assert (Hfrom : exists cu : rank,
             rank_of from = Ok cu /\ forall c, cu = Some c -> c <= 7).
  { destruct (unit_argument_cases from) as [Hi | (Hi & [r Hr] & _)].
    - exists None. split; [apply rank_of_inherited, Hi | discriminate].
    - exists (Some r). split.
      + rewrite (rank_of_default from Hi). apply (rank_of_unit _ _ Hr).
      + intros c [= <-]. apply (unit_rank_le _ _ Hr). }
  destruct Hfrom as (cu & Hcu & Hc).
  unfold Duration_convert. rewrite Hcu. cbn [bind].
  destruct (unit_argument_cases to) as [Hi | (Hi & [r Hr] & _)].
  - left. split; [exact Hi | ]. rewrite (rank_of_inherited to Hi). cbn [bind].
    destruct cu; reflexivity.
  - right. split; [exact Hi | ].
    rewrite (rank_of_default to Hi), (rank_of_unit _ _ Hr). cbn [bind].
    destruct (walk_returns cu n r Hc (unit_rank_le _ _ Hr)) as [n' Hn'].
    exists n'. rewrite Hn'. cbn [bind].
    destruct (unitRefs_at_unit (num := num) _ _ Hr) as (e & He & Hue).
    unfold unitRefs_at. rewrite He. cbn [bind]. rewrite Hue.
    unfold new_Duration, precision_only.
    cbn [opts_precision opts_abbr].
    rewrite (unit_or_hr_unit _ _ Hr), recorded_precision_default.
    reflexivity.
Qed.

Lemma concise_step_inherited (n : num) (u p : value num) :
  inherited_name u = true -> concise_step n u p = TypeError.
Proof.
  intros Hu. unfold concise_step. rewrite (rank_of_inherited u Hu). reflexivity.
Qed.

Lemma concise_step_default (n : num) (u p : value num) :
  inherited_name u = false ->
  concise_step n u p = concise_step n (VStr (unit_or_default u)) p.
Proof.
  intros Hu. destruct (unit_argument_cases u) as [Hi | (_ & _ & [He | Hn])].
  - congruence.
  - rewrite <- He. reflexivity.
  - rewrite (concise_step_fallback n u p Hn).
    destruct u as [ | | b | x | k]; try reflexivity.
    unfold unit_or_default. unfold names_property, in_units, units_get in Hn.
    destruct (assoc k units); [discriminate | reflexivity].
Qed.

(** One activation of [concise] on a unit argument that is not an inherited
    name returns in the unit the argument stands for, or calls itself on an
    identifier of the table. *)
Lemma concise_step_cases (n : num) (u p : value num) :
  inherited_name u = false ->
  (concise_step n u p
   = Ok (Return {| _duration := n; _unit := unit_or_default u;
                   _precision := constructed_precision p; _abbr := true |}))
  \/ (exists (n' : num) (r' : nat) (p' : value num),
         r' <= 7
         /\ concise_step n u p = Ok (Recurse n' (VStr (unit_name r')) p')).
Proof.
  intros Hu. rewrite (concise_step_default n u p Hu).
  destruct (unit_argument_cases u) as [Hi | (_ & [r Hr] & _)]; [congruence | ].
  pose proof (unit_rank_le _ _ Hr) as Hle.
  rewrite (concise_step_unit n _ p r Hr). cbv zeta.
  destruct (nlt n (integer 1)).
  - destruct r as [ | r']; [left; reflexivity | ].
    right. exists (nmul n (factor r')), r', p. split; [lia | reflexivity].
  - destruct (nge n (factor r)); [ | left; reflexivity].
    destruct (Nat.leb_spec 7 r) as [Hge | Hlt]; [left; reflexivity | ].
    right. exists (ndiv n (factor r)), (S r), VUndefined.
    split; [lia | reflexivity].
Qed.

(** A [Duration] that an activation returns makes the next activation
    return at once, with the same [Duration]. *)
Lemma concise_step_fixed (n : num) (u p : value num) (d : Duration num) :
  concise_step n u p = Ok (Return d) ->
  concise_step (_duration d) (VStr (_unit d)) (VNum (_precision d))
  = Ok (Return d).
Proof.
  destruct (inherited_name u) eqn:Hu;
    [rewrite (concise_step_inherited n u p Hu); discriminate | ].
  rewrite (concise_step_default n u p Hu).
  destruct (unit_argument_cases u) as [Hi | (_ & [r Hr] & _)]; [congruence | ].
  rewrite (concise_step_unit n _ p r Hr). cbv zeta.
  destruct (nlt n (integer 1)) eqn:Hlt.
  - destruct r as [ | r']; [ | discriminate].
    intros [= <-]. cbn [_duration _unit _precision].
    rewrite (concise_step_unit n _ _ 0 Hr). cbv zeta. rewrite Hlt. reflexivity.
  - destruct (nge n (factor r)) eqn:Hge.
    + destruct (Nat.leb 7 r) eqn:Hlast; [ | discriminate].
      intros [= <-]. cbn [_duration _unit _precision].
      rewrite (concise_step_unit n _ _ r Hr). cbv zeta.
      rewrite Hlt, Hge, Hlast. reflexivity.
    + intros [= <-]. cbn [_duration _unit _precision].
      rewrite (concise_step_unit n _ _ r Hr). cbv zeta.
      rewrite Hlt, Hge. reflexivity.
Qed.

Lemma concise_not_inherited (fuel : nat) :
  forall (n : num) (u p : value num),
    inherited_name u = false ->
    Duration_concise fuel n u p <> Some TypeError.
Proof.
  induction fuel as [ | fuel IH]; intros n u p Hu; [discriminate | ].
  cbn [Duration_concise].
  destruct (concise_step_cases n u p Hu) as [-> | (n' & r' & p' & Hr' & ->)];
    [discriminate | ].
  apply IH. apply (unit_rank_inherited _ r'), unit_rank_name, Hr'.
Qed.

Lemma concise_unit (fuel : nat) :
  forall (n : num) (u p : value num) (d : Duration num),
    Duration_concise fuel n u p = Some (Ok d) ->
    exists r : nat, unit_rank (_unit d) = Some r.
Proof.
  induction fuel as [ | fuel IH]; intros n u p d; [discriminate | ].
  cbn [Duration_concise].
  destruct (inherited_name u) eqn:Hu;
    [rewrite (concise_step_inherited n u p Hu); discriminate | ].
  destruct (concise_step_cases n u p Hu) as [-> | (n' & r' & p' & Hr' & ->)].
  - intros [= <-]. cbn [_unit].
    destruct (unit_argument_cases u) as [Hi | (_ & Hr & _)]; [congruence | ].
    exact Hr.
  - apply IH.
Qed.

Lemma concise_fixed (fuel : nat) :
  forall (n : num) (u p : value num) (d : Duration num),
    Duration_concise fuel n u p = Some (Ok d) ->
    Duration_concise 1 (_duration d) (VStr (_unit d)) (VNum (_precision d))
    = Some (Ok d).
Proof.
  induction fuel as [ | fuel IH]; intros n u p d; [discriminate | ].
  cbn [Duration_concise].
  destruct (concise_step n u p) as [[d' | n' u' p'] | ] eqn:Hstep;
    [ | apply IH | discriminate].
  intros [= <-]. rewrite (concise_step_fixed n u p d' Hstep). reflexivity.
Qed.

End UnitArguments.

(** X1. [convert] throws exactly when [to] is a string naming a property
    that [units] inherits (such as ['constructor']); whatever [n], [from]
    and the precision are, no other call throws. *)
Theorem convert_throws_iff_inherited_target :
  forall (num : Type) (N : JSNumber num) (n : num) (from to p : value num),
    Duration_convert n from to p = TypeError <-> inherited_name to = true.
Proof.
  intros num N n from to p.
  destruct (convert_cases n from to p) as [[Hi ->] | (Hi & n' & ->)].
  - split; intros _; [exact Hi | reflexivity].
  - split; [discriminate | congruence].
Qed.

(** X2. A [Duration] that [convert] returns is in the unit [to] when that
    is one of the eight identifiers of the table and in ['hr'] otherwise:
    its unit is always a unit of the table, and its abbreviation flag is
    the default. *)
Theorem convert_returns_target_unit :
  forall (num : Type) (N : JSNumber num) (n : num) (from to p : value num)
         (d : Duration num),
    Duration_convert n from to p = Ok d ->
    _unit d = unit_or_default to
    /\ (exists r : nat, unit_rank (_unit d) = Some r)
    /\ _abbr d = true.
Proof.
  intros num N n from to p d.
  destruct (convert_cases n from to p) as [[Hi ->] | (Hi & n' & ->)];
    [discriminate | ].
  intros [= <-]. cbn [_unit _abbr]. split; [reflexivity | ].
  split; [ | reflexivity].
  destruct (unit_argument_cases to) as [Hi' | (_ & Hr & _)];
    [congruence | exact Hr].
Qed.

Lemma convert_returns_target_unit_witness :
  Duration_convert 5%float (VStr "constructor") (VNum 7%float) VNull
  = Ok {| _duration := 5%float; _unit := "hr";
          _precision := 2%float; _abbr := true |}
  /\ "hr" = unit_or_default (VNum 7%float)
  /\ (exists r : nat, unit_rank "hr" = Some r)
  /\ true = true.
Proof.
  split; [vm_compute; reflexivity | ].
  exact (convert_returns_target_unit float binary64 5%float
           (VStr "constructor") (VNum 7%float) VNull
           {| _duration := 5%float; _unit := "hr";
              _precision := 2%float; _abbr := true |} eq_refl).
Defined.

(** X3. [concise] throws exactly when its unit argument is a string naming
    a property that [units] inherits; the error is raised by the first
    activation, and no recursive call ever throws. *)
Theorem concise_throws_iff_inherited_unit :
  forall (num : Type) (N : JSNumber num) (fuel : nat) (n : num)
         (u p : value num),
    Duration_concise (S fuel) n u p = Some TypeError
    <-> inherited_name u = true.
Proof.
  intros num N fuel n u p. split.
  - intros Hthrow. destruct (inherited_name u) eqn:Hu; [reflexivity | ].
    exfalso. exact (concise_not_inherited (S fuel) n u p Hu Hthrow).
  - intros Hu. cbn [Duration_concise].
    rewrite (concise_step_inherited n u p Hu). reflexivity.
Qed.

(** X4. A [Duration] that [concise] returns is always in a unit of the
    table, whatever the unit argument was. *)
Theorem concise_returns_table_unit :
  forall (num : Type) (N : JSNumber num) (fuel : nat) (n : num)
         (u p : value num) (d : Duration num),
    Duration_concise fuel n u p = Some (Ok d) ->
    exists r : nat, unit_rank (_unit d) = Some r.
Proof.
  intros num N fuel n u p d. apply concise_unit.
Qed.

Lemma concise_returns_table_unit_witness :
  Duration_concise 8 (3 # 1)%Q (VStr "fortnight") VUndefined
  = Some (Ok {| _duration := (3 # 1)%Q; _unit := "hr";
                _precision := (2 # 1)%Q; _abbr := true |})
  /\ exists r : nat, unit_rank "hr" = Some r.
Proof.
  split; [vm_compute; reflexivity | ].
  exact (concise_returns_table_unit Q exact 8 (3 # 1)%Q (VStr "fortnight")
           VUndefined
           {| _duration := (3 # 1)%Q; _unit := "hr";
              _precision := (2 # 1)%Q; _abbr := true |} eq_refl).
Defined.

(** X5. What [concise] returns is a fixed point of it: called on the
    magnitude, unit and precision of its result, the static [concise]
    returns that very [Duration] without a recursive call, and so does the
    instance method [concise()] called on its own result. *)
Theorem concise_result_is_fixed_point :
  forall (num : Type) (N : JSNumber num),
    (forall (fuel : nat) (n : num) (u p : value num) (d : Duration num),
        Duration_concise fuel n u p = Some (Ok d) ->
        Duration_concise 1 (_duration d) (VStr (_unit d)) (VNum (_precision d))
        = Some (Ok d))
    /\ (forall (fuel : nat) (this c : Duration num),
           Duration_prototype_concise fuel this = Some (Ok c) ->
           Duration_prototype_concise 1 c = Some (Ok c)).
Proof.
  intros num N. split.
  - intros fuel. apply concise_fixed.
  - intros fuel this c. unfold Duration_prototype_concise.
    destruct (Duration_concise fuel (_duration this) (VStr (_unit this))
                (VNum (_precision this))) as [[d | ] | ] eqn:Hd;
      try discriminate.
    intros [= <-]. unfold Duration_prototype_abbr at 1 2 3.
    cbn [_duration _unit _precision].
    rewrite (concise_fixed fuel _ _ _ d Hd).
    unfold Duration_prototype_abbr. cbn [_abbr].
    rewrite !negb_involutive. reflexivity.
Qed.

Lemma concise_result_is_fixed_point_witness :
  (Duration_concise 8 90%float (VStr "min") (VNum 5%float)
   = Some (Ok {| _duration := 1.5%float; _unit := "hr";
                 _precision := 2%float; _abbr := true |})
   /\ Duration_concise 1 1.5%float (VStr "hr") (VNum 2%float)
      = Some (Ok {| _duration := 1.5%float; _unit := "hr";
                    _precision := 2%float; _abbr := true |}))
  /\ (Duration_prototype_concise 8
        {| _duration := 90%float; _unit := "min";
           _precision := 5%float; _abbr := false |}
      = Some (Ok {| _duration := 1.5%float; _unit := "hr";
                    _precision := 2%float; _abbr := false |})
      /\ Duration_prototype_concise 1
           {| _duration := 1.5%float; _unit := "hr";
              _precision := 2%float; _abbr := false |}
         = Some (Ok {| _duration := 1.5%float; _unit := "hr";
                       _precision := 2%float; _abbr := false |})).
Proof.
  split; (split; [vm_compute; reflexivity | ]).
  - exact (proj1 (concise_result_is_fixed_point float binary64) 8 90%float
                 (VStr "min") (VNum 5%float)
                 {| _duration := 1.5%float; _unit := "hr";
                    _precision := 2%float; _abbr := true |} eq_refl).
  - exact (proj2 (concise_result_is_fixed_point float binary64) 8
                 {| _duration := 90%float; _unit := "min";
                    _precision := 5%float; _abbr := false |}
                 {| _duration := 1.5%float; _unit := "hr";
                    _precision := 2%float; _abbr := false |} eq_refl).
Defined.

(** ** The instance methods [to] and [convert] *)

(** X6. On a [Duration] in a unit of the table, [to(u)] for a recognized
    [u] returns the magnitude rescaled to [u], in unit [u], with the
    abbreviation flag of [this] and with its precision (2 when that
    precision is falsy); the instance method [convert(u)] returns the same;
    and [to] the unit [this] is in, with a truthy precision, returns a
    [Duration] equal to [this]. *)
Theorem to_rescales_and_carries_flag :
  forall (num : Type) (N : JSNumber num) (this : Duration num) (u : string)
         (r1 r2 : nat),
    unit_rank (_unit this) = Some r1 ->
    unit_rank u = Some r2 ->
    Duration_prototype_to this (VStr u)
    = Ok {| _duration := rescale r1 r2 (_duration this);
            _unit := u;
            _precision := if truthy (_precision this) then _precision this
                          else integer 2;
            _abbr := _abbr this |}
    /\ Duration_prototype_convert this (VStr u)
       = Duration_prototype_to this (VStr u)
    /\ (u = _unit this -> truthy (_precision this) = true ->
        Duration_prototype_to this (VStr u) = Ok this).
Proof.
  intros num N this u r1 r2 H1 H2.
  assert (Hto : Duration_prototype_to this (VStr u)
                = Ok {| _duration := rescale r1 r2 (_duration this);
                        _unit := u;
                        _precision := if truthy (_precision this)
                                      then _precision this else integer 2;
                        _abbr := _abbr this |}).
  { unfold Duration_prototype_to.
    rewrite (convert_units _ _ u _ r1 r2 H1 H2). cbn [bind].
    unfold Duration_prototype_abbr, recorded_precision.
    cbn [_duration _unit _precision]. rewrite negb_involutive. reflexivity. }
  split; [exact Hto | ]. split; [reflexivity | ].
  intros -> Hp. rewrite Hto, Hp.
  assert (r2 = r1) as -> by congruence.
  rewrite rescale_same. destruct this; reflexivity.
Qed.

Lemma to_rescales_and_carries_flag_witness :
  unit_rank "day" = Some 4 /\ unit_rank "hr" = Some 3
  /\ Duration_prototype_to
       {| _duration := 2%float; _unit := "day";
          _precision := 0%float; _abbr := false |} (VStr "hr")
     = Ok {| _duration := 48%float; _unit := "hr";
             _precision := 2%float; _abbr := false |}
  /\ unit_rank "wk" = Some 5
  /\ Duration_prototype_to
       {| _duration := 2%float; _unit := "wk";
          _precision := 3%float; _abbr := false |} (VStr "wk")
     = Ok {| _duration := 2%float; _unit := "wk";
             _precision := 3%float; _abbr := false |}.
Proof.
  split; [reflexivity | ]. split; [reflexivity | ].
  split.
  - exact (proj1 (to_rescales_and_carries_flag float binary64
                    {| _duration := 2%float; _unit := "day";
                       _precision := 0%float; _abbr := false |} "hr" 4 3
                    eq_refl eq_refl)).
  - split; [reflexivity | ].
    exact (proj2 (proj2 (to_rescales_and_carries_flag float binary64
                           {| _duration := 2%float; _unit := "wk";
                              _precision := 3%float; _abbr := false |}
                           "wk" 5 5 eq_refl eq_refl))
                 eq_refl eq_refl).
Defined.

(** ** The unit a [Duration] holds *)

Section HeldUnit.

Context {num : Type} `{JSNumber num}.

Lemma inherited_name_cases (k : string) :
  inherited_name (VStr k : value num) = true ->
  In k Object_prototype /\ assoc k units = None.
Proof.
  unfold inherited_name, units_get.
  destruct (assoc k units); [discriminate | ].
  destruct (existsb (String.eqb k) Object_prototype) eqn:Hin; [ | discriminate].
  intros _. split; [ | reflexivity].
  apply existsb_exists in Hin. destruct Hin as (x & Hx & Hkx).
  apply String.eqb_eq in Hkx. subst x. exact Hx.
Qed.

Lemma inherited_name_truthy (k : string) :
  inherited_name (VStr k : value num) = true ->
  ToBoolean (VStr k : value num) = true /\ in_units k = true.
Proof.
  intros Hk. split.
  - destruct (inherited_name_cases k Hk) as [Hin _].
    cbn [ToBoolean]. destruct (String.eqb_spec k "") as [-> | _]; [ | reflexivity].
    cbn in Hin. repeat (destruct Hin as [Hin | Hin]; [discriminate | ]).
    contradiction.
  - unfold inherited_name in Hk. unfold in_units.
    destruct (units_get k); try discriminate. reflexivity.
Qed.

Lemma unit_or_hr_inherited (k : string) :
  inherited_name (VStr k : value num) = true ->
  unit_or_hr (VStr k : value num) = k.
Proof.
  intros Hk. cbn [unit_or_hr].
  rewrite (proj2 (inherited_name_truthy k Hk)). reflexivity.
Qed.

(** With an inherited name as [from], both ranks compare as unequal in
    neither direction, so no loop runs. *)
Lemma convert_from_inherited (n : num) (from : value num) (to : string)
    (p : value num) (r : nat) :
  inherited_name from = true -> unit_rank to = Some r ->
  Duration_convert n from (VStr to) p
  = Ok {| _duration := n; _unit := to;
          _precision := recorded_precision p; _abbr := true |}.
Proof.
  intros Hfrom Hto. unfold Duration_convert.
  rewrite (rank_of_inherited from Hfrom), (rank_of_unit _ _ Hto). cbn [bind].
  change (walk None (Some r) n) with (Ok n). cbn [bind].
  destruct (unitRefs_at_unit (num := num) _ _ Hto) as (e & He & Hue).
  unfold unitRefs_at. rewrite He. cbn [bind]. rewrite Hue.
  unfold new_Duration, precision_only. cbn [opts_precision opts_abbr].
  rewrite (unit_or_hr_unit _ _ Hto), recorded_precision_default. reflexivity.
Qed.

Lemma toString_inherited (NumberToString : num -> string) (d : Duration num)
    (sep : value num) :
  inherited_name (VStr (_unit d) : value num) = true ->
  Duration_prototype_toString NumberToString d sep = TypeError.
Proof.
  unfold inherited_name, Duration_prototype_toString.
  destruct (units_get (_unit d)); try discriminate. reflexivity.
Qed.

End HeldUnit.

(** X7. A name that [units] inherits, such as ['constructor'], is accepted
    as a unit by the constructor and by the setter [unit(s)].  On the
    [Duration] that then holds it, [toString] throws, and [to(u)] returns
    the magnitude unchanged in unit [u]. *)
Theorem inherited_name_held_as_unit :
  forall (num : Type) (N : JSNumber num) (NumberToString : num -> string)
         (this : Duration num) (k : string),
    inherited_name (VStr k : value num) = true ->
    (forall (n : value num) (o : option (opts num)),
        _unit (new_Duration n (VStr k) o) = k)
    /\ Duration_prototype_unit_call this (VStr k)
       = ({| _duration := _duration this; _unit := k;
             _precision := _precision this; _abbr := _abbr this |}, This)
    /\ (forall held : Duration num,
           _unit held = k ->
           (forall sep : value num,
               Duration_prototype_toString NumberToString held sep = TypeError)
           /\ (forall (u : string) (r : nat),
                  unit_rank u = Some r ->
                  exists c : Duration num,
                    Duration_prototype_to held (VStr u) = Ok c
                    /\ _duration c = _duration held /\ _unit c = u)).
Proof.
  intros num N NumberToString this k Hk.
  destruct (inherited_name_truthy k Hk) as [Htruthy Hin].
  split; [intros n o; apply (unit_or_hr_inherited k Hk) | ].
  split.
  - unfold Duration_prototype_unit_call. rewrite Htruthy, Hin. reflexivity.
  - intros held Hheld. split.
    + intros sep. apply toString_inherited. rewrite Hheld. exact Hk.
    + intros u r Hu. unfold Duration_prototype_to. rewrite Hheld.
      rewrite (convert_from_inherited _ (VStr k) u _ r Hk Hu). cbn [bind].
      eexists. split; [reflexivity | ]. split; reflexivity.
Qed.

Lemma inherited_name_held_as_unit_witness :
  inherited_name (VStr "valueOf" : value float) = true
  /\ Duration_prototype_unit_call
       {| _duration := 5%float; _unit := "hr";
          _precision := 2%float; _abbr := true |} (VStr "valueOf")
     = ({| _duration := 5%float; _unit := "valueOf";
           _precision := 2%float; _abbr := true |}, This)
  /\ Duration_prototype_toString NumberToString_integral
       {| _duration := 5%float; _unit := "valueOf";
          _precision := 2%float; _abbr := true |} VUndefined
     = TypeError
  /\ unit_rank "min" = Some 2
  /\ exists c : Duration float,
       Duration_prototype_to
         {| _duration := 5%float; _unit := "valueOf";
            _precision := 2%float; _abbr := true |} (VStr "min") = Ok c
       /\ _duration c = 5%float /\ _unit c = "min".
Proof.
  pose proof (inherited_name_held_as_unit float binary64
                NumberToString_integral
                {| _duration := 5%float; _unit := "hr";
                   _precision := 2%float; _abbr := true |}
                "valueOf" eq_refl) as (_ & Hset & Hheld).
  split; [reflexivity | ]. split; [exact Hset | ].
  destruct (Hheld {| _duration := 5%float; _unit := "valueOf";
                     _precision := 2%float; _abbr := true |} eq_refl)
    as [Hstr Hto].
  split; [apply Hstr | ]. split; [reflexivity | ].
  exact (Hto "min" 2 eq_refl).
Defined.

(** X8. As long as no argument is an inherited name, the unit a [Duration]
    holds is a unit of the table: the constructor stores one whatever it
    is given, the setter [unit(s)] replaces it by one or leaves it, the
    setters [duration(d)] and [abbr(o)] leave it; and on such a [Duration]
    [toString] returns a string. *)
Theorem held_unit_stays_in_table :
  forall (num : Type) (N : JSNumber num) (NumberToString : num -> string),
    (forall (n b : value num) (o : option (opts num)),
        inherited_name b = false ->
        exists r : nat, unit_rank (_unit (new_Duration n b o)) = Some r)
    /\ (forall (this : Duration num) (s : value num) (r : nat),
           unit_rank (_unit this) = Some r ->
           inherited_name s = false ->
           exists r' : nat,
             unit_rank (_unit (fst (Duration_prototype_unit_call this s)))
             = Some r')
    /\ (forall (this : Duration num) (v : value num),
           _unit (fst (Duration_prototype_duration_call this v)) = _unit this
           /\ _unit (fst (Duration_prototype_abbr_call this v)) = _unit this)
    /\ (forall (this : Duration num) (sep : value num) (r : nat),
           unit_rank (_unit this) = Some r ->
           exists t : string,
             Duration_prototype_toString NumberToString this sep = Ok t).
Proof.
  intros num N NumberToString. split; [ | split; [ | split]].
  - intros n b o Hb. cbn [new_Duration _unit].
    rewrite (unit_or_hr_default b Hb).
    destruct (unit_argument_cases b) as [Hi | (_ & Hr & _)];
      [congruence | exact Hr].
  - intros this s r Hr Hs. unfold Duration_prototype_unit_call.
    destruct (negb (ToBoolean s)); [exists r; exact Hr | ].
    destruct s as [ | | b | x | k]; try (exists r; exact Hr).
    destruct (in_units k) eqn:Hin; [ | exists r; exact Hr].
    cbn [fst _unit].
    destruct (unit_argument_cases (VStr k : value num))
      as [Hi | (_ & [r' Hr'] & [He | Hn])].
    + congruence.
    + exists r'. injection He as He. rewrite He at 1. exact Hr'.
    + cbn [names_property] in Hn. congruence.
  - intros this v. split; destruct v; reflexivity.
  - intros this sep r Hr. unfold Duration_prototype_toString, units_get.
    unfold unit_rank in Hr.
    destruct (assoc (_unit this) units); [ | discriminate].
    eexists. reflexivity.
Qed.

Lemma held_unit_stays_in_table_witness :
  (inherited_name (VBool true : value float) = false
   /\ exists r : nat,
        unit_rank (_unit (new_Duration (VNum 3%float) (VBool true) None))
        = Some r)
  /\ (unit_rank "day" = Some 4
      /\ inherited_name (VStr "wk" : value float) = false
      /\ exists r' : nat,
           unit_rank
             (_unit (fst (Duration_prototype_unit_call
                            {| _duration := 3%float; _unit := "day";
                               _precision := 2%float; _abbr := true |}
                            (VStr "wk"))))
           = Some r')
  /\ (unit_rank "day" = Some 4
      /\ exists t : string,
           Duration_prototype_toString NumberToString_integral
             {| _duration := 3%float; _unit := "day";
                _precision := 2%float; _abbr := true |} (VStr ", ")
           = Ok t).
Proof.
  pose proof (held_unit_stays_in_table float binary64 NumberToString_integral)
    as (Hnew & Hset & _ & Hstr).
  split; [split; [reflexivity | apply Hnew; reflexivity] | ].
  split.
  - split; [reflexivity | ]. split; [reflexivity | ].
    apply (Hset _ _ 4); reflexivity.
  - split; [reflexivity | ]. apply (Hstr _ _ 4). reflexivity.
Defined.

(** ** Reading and writing through the accessors *)

(** X9. When an accessor call is a read: [unit(s)] reads on every falsy
    [s] ([undefined], [null], [false], [0], [NaN], the empty string), while
    [duration(d)] and [abbr(o)] read on [undefined] only; every other call
    returns [this].  A read never changes the object. *)
Theorem accessors_read_when :
  forall (num : Type) (N : JSNumber num) (this : Duration num) (v : value num),
    (Duration_prototype_unit_call this v = (this, Got (_unit this))
     <-> ToBoolean v = false)
    /\ (snd (Duration_prototype_unit_call this v) = This
        <-> ToBoolean v = true)
    /\ (Duration_prototype_duration_call this v = (this, Got (_duration this))
        <-> v = VUndefined)
    /\ (snd (Duration_prototype_duration_call this v) = This
        <-> v <> VUndefined)
    /\ (Duration_prototype_abbr_call this v = (this, Got (_abbr this))
        <-> v = VUndefined)
    /\ (snd (Duration_prototype_abbr_call this v) = This
        <-> v <> VUndefined).
Proof.
  intros num N this v.
  assert (Hunit : snd (Duration_prototype_unit_call this v)
                  = if ToBoolean v then This else Got (_unit this)).
  { unfold Duration_prototype_unit_call.
    destruct (ToBoolean v); cbn [negb]; [ | reflexivity].
    destruct v as [ | | b | x | k]; try reflexivity.
    destruct (in_units k); reflexivity. }
  split; [ | split].
  - split.
    + intros Hcall. rewrite Hcall in Hunit. cbn [snd] in Hunit.
      destruct (ToBoolean v); [discriminate | reflexivity].
    + intros Hv. unfold Duration_prototype_unit_call. rewrite Hv. reflexivity.
  - rewrite Hunit. destruct (ToBoolean v); split; congruence.
  - repeat split; try (intros ->; reflexivity);
      destruct v; cbn; congruence.
Qed.

Section WriteThenRead.

Context {num : Type} `{JSNumber num}.

Lemma unit_accepted (k : string) (r : nat) :
  unit_rank k = Some r ->
  ToBoolean (VStr k : value num) = true /\ in_units k = true.
Proof.
  intros Hk. apply unit_rank_cases in Hk. cbn in Hk.
  repeat (destruct Hk as [[= <- <-] | Hk]; [split; reflexivity | ]).
  contradiction.
Qed.

End WriteThenRead.

(** X10. Writing through an accessor and reading back: [duration(x)] for a
    number [x] stores [x], [unit(k)] for an identifier of the table stores
    [k], [abbr(o)] for any [o] but [undefined] stores the truth value of
    [o]; each returns [this], and the matching read then returns what was
    stored.  [duration(d)] for a [d] that is neither a number nor
    [undefined], and [unit(s)] for a truthy [s] that names no property of
    [units], change nothing. *)
Theorem accessors_write_then_read :
  forall (num : Type) (N : JSNumber num) (this : Duration num),
    (forall x : num,
        exists this' : Duration num,
          Duration_prototype_duration_call this (VNum x) = (this', This)
          /\ Duration_prototype_duration_call this' VUndefined
             = (this', Got x)
          /\ _unit this' = _unit this /\ _precision this' = _precision this
          /\ _abbr this' = _abbr this)
    /\ (forall (k : string) (r : nat),
           unit_rank k = Some r ->
           exists this' : Duration num,
             Duration_prototype_unit_call this (VStr k) = (this', This)
             /\ Duration_prototype_unit_call this' VUndefined = (this', Got k)
             /\ _duration this' = _duration this
             /\ _precision this' = _precision this
             /\ _abbr this' = _abbr this)
    /\ (forall o : value num,
           o <> VUndefined ->
           exists this' : Duration num,
             Duration_prototype_abbr_call this o = (this', This)
             /\ Duration_prototype_abbr_call this' VUndefined
                = (this', Got (ToBoolean o))
             /\ _duration this' = _duration this /\ _unit this' = _unit this
             /\ _precision this' = _precision this)
    /\ (forall d : value num,
           d <> VUndefined -> (forall x : num, d <> VNum x) ->
           Duration_prototype_duration_call this d = (this, This))
    /\ (forall s : value num,
           ToBoolean s = true -> names_property s = false ->
           Duration_prototype_unit_call this s = (this, This)).
Proof.
  intros num N this. repeat split.
  - intros x. eexists. repeat split.
  - intros k r Hk. destruct (unit_accepted (num := num) k r Hk) as [Ht Hin].
    eexists. unfold Duration_prototype_unit_call at 1. rewrite Ht, Hin.
    repeat split.
  - intros o Ho. eexists. split; [destruct o; [contradiction | ..]; reflexivity | ].
    cbn [Duration_prototype_abbr_call _abbr _duration _unit _precision].
    rewrite negb_involutive. repeat split.
  - intros d Hd Hx. destruct d as [ | | b | x | t]; try reflexivity;
      [contradiction | exfalso; exact (Hx x eq_refl)].
  - intros s Hs Hn. unfold Duration_prototype_unit_call. rewrite Hs.
    destruct s as [ | | b | x | k]; try reflexivity.
    cbn [names_property] in Hn. rewrite Hn. reflexivity.
Qed.

Lemma accessors_write_then_read_witness :
  (unit_rank "mo" = Some 6
   /\ exists this' : Duration float,
        Duration_prototype_unit_call
          {| _duration := 3%float; _unit := "day";
             _precision := 2%float; _abbr := true |} (VStr "mo")
        = (this', This)
        /\ Duration_prototype_unit_call this' VUndefined = (this', Got "mo")
        /\ _duration this' = 3%float
        /\ _precision this' = 2%float
        /\ _abbr this' = true)
  /\ ((VNull : value float) <> VUndefined
      /\ exists this' : Duration float,
           Duration_prototype_abbr_call
             {| _duration := 3%float; _unit := "day";
                _precision := 2%float; _abbr := true |} VNull
           = (this', This)
           /\ Duration_prototype_abbr_call this' VUndefined
              = (this', Got false)
           /\ _duration this' = 3%float /\ _unit this' = "day"
           /\ _precision this' = 2%float)
  /\ (ToBoolean (VStr "fortnight" : value float) = true
      /\ names_property (VStr "fortnight" : value float) = false
      /\ Duration_prototype_unit_call
           {| _duration := 3%float; _unit := "day";
              _precision := 2%float; _abbr := true |} (VStr "fortnight")
         = ({| _duration := 3%float; _unit := "day";
               _precision := 2%float; _abbr := true |}, This)).
Proof.
  pose proof (accessors_write_then_read float binary64
                {| _duration := 3%float; _unit := "day";
                   _precision := 2%float; _abbr := true |})
    as (_ & Hunit & Habbr & _ & Hignored).
  split; [split; [reflexivity | exact (Hunit "mo" 6 eq_refl)] | ].
  split.
  - split; [discriminate | ]. apply (Habbr VNull). discriminate.
  - split; [reflexivity | ]. split; [reflexivity | ].
    apply Hignored; reflexivity.
Defined.

(** ** [pluralize] *)

Lemma list_ascii_of_string_app (t1 t2 : string) :
  list_ascii_of_string (t1 ++ t2)
  = (list_ascii_of_string t1 ++ list_ascii_of_string t2)%list.
Proof.
  induction t1 as [ | c t1 IH]; [reflexivity | ].
  cbn [append list_ascii_of_string]. rewrite IH. reflexivity.
Qed.

Lemma ends_in_s_appended (t : string) : ends_in_s (t ++ "s") = true.
Proof.
  unfold ends_in_s. rewrite list_ascii_of_string_app.
  cbn [list_ascii_of_string]. rewrite rev_unit. reflexivity.
Qed.

(** X11. [pluralize] returns its argument or its argument followed by one
    ["s"]; the result always ends in ["s"] (the empty string becomes
    ["s"]), and pluralizing twice is pluralizing once. *)
Theorem pluralize_idempotent :
  forall t : string,
    (pluralize t = t \/ pluralize t = t ++ "s")
    /\ ends_in_s (pluralize t) = true
    /\ pluralize (pluralize t) = pluralize t
    /\ pluralize "" = "s".
Proof.
  intros t.
  assert (Hends : ends_in_s (pluralize t) = true).
  { rewrite pluralize_ends_in_s. destruct (ends_in_s t) eqn:Ht;
      [exact Ht | apply ends_in_s_appended]. }
  split; [ | split; [exact Hends | split; [ | reflexivity]]].
  - rewrite pluralize_ends_in_s. destruct (ends_in_s t); [left | right]; reflexivity.
  - rewrite (pluralize_ends_in_s (pluralize t)), Hends. reflexivity.
Qed.

(** ** Signs and NaN in binary64 *)

Section Binary64Sign.

Local Open Scope Z_scope.

Lemma xorb_false_sign (b : bool) : xorb b false = b.
Proof. destruct b; reflexivity. Qed.

Lemma round_sign_bit (s : bool) (mx ex : Z) (lx : location) :
  0 <= mx ->
  sign_bit (binary_round_aux prec emax (xorb s false) mx ex lx) = Some s.
Proof.
  intros Hm.
  pose proof (binary_round_aux_sign (xorb s false) mx ex lx Hm) as Hs.
  destruct (binary_round_aux prec emax (xorb s false) mx ex lx);
    try contradiction Hs; cbn [sign_bit]; rewrite Hs, xorb_false_sign;
    reflexivity.
Qed.

Lemma mul_sign_bit (x f : float) (mf : positive) (ef : Z) (b : bool) :
  Prim2SF f = S754_finite false mf ef ->
  sign_bit (Prim2SF x) = Some b -> sign_bit (Prim2SF (x * f)) = Some b.
Proof.
  intros Hf Hx. rewrite mul_spec, Hf. unfold SF64mul.
  destruct (Prim2SF x) as [s | s | | s m e]; cbn [sign_bit] in Hx;
    try discriminate; injection Hx as ->; cbn [SFmul];
    try (cbn [sign_bit]; rewrite xorb_false_sign; reflexivity).
  apply round_sign_bit. lia.
Qed.

Lemma div_sign_bit (x f : float) (mf : positive) (ef : Z) (b : bool) :
  Prim2SF f = S754_finite false mf ef ->
  sign_bit (Prim2SF x) = Some b -> sign_bit (Prim2SF (x / f)) = Some b.
Proof.
  intros Hf Hx. rewrite div_spec, Hf. unfold SF64div.
  destruct (Prim2SF x) as [s | s | | s m e]; cbn [sign_bit] in Hx;
    try discriminate; injection Hx as ->; cbn [SFdiv];
    try (cbn [sign_bit]; rewrite xorb_false_sign; reflexivity).
  unfold SFdiv_core_binary.
  set (e' := Z.min _ _).
  set (m' := match e - ef - e' with
             | 0 => Z.pos m
             | Z.pos _ => _
             | Z.neg _ => 0
             end).
  assert (Hm' : 0 <= m').
  { subst m'. destruct (e - ef - e') as [ | q | q]; try lia.
    change (0 <= Z.shiftl (Z.pos m) (Z.pos q)).
    rewrite Z.shiftl_mul_pow2 by lia.
    assert (0 < 2 ^ Z.pos q) by (apply Z.pow_pos_nonneg; lia). lia. }
  change (IntDef.Z.div_eucl m' (Z.pos mf)) with (Z.div_eucl m' (Z.pos mf)).
  pose proof (Z_div_mod m' (Z.pos mf) ltac:(lia)) as Hdm.
  destruct (Z.div_eucl m' (Z.pos mf)) as [q r]. destruct Hdm as [Hq Hr].
  apply round_sign_bit. nia.
Qed.

(** The factors are positive and finite, so a walk keeps the sign bit of
    every number. *)
Lemma rescale_sign_bit (cu du : nat) (n : float) (b : bool) :
  (cu <= 7)%nat -> (du <= 7)%nat ->
  sign_bit (Prim2SF n) = Some b ->
  sign_bit (Prim2SF (rescale cu du n)) = Some b.
Proof.
  intros Hcu Hdu. unfold rescale.
  assert (Hdown : forall (l : list nat) (x : float),
             (forall r, In r l -> (r < 7)%nat) ->
             sign_bit (Prim2SF x) = Some b ->
             sign_bit (Prim2SF (fold_left (fun a r => nmul a (factor r)) l x))
             = Some b).
  { induction l as [ | r l IH]; intros x Hl Hx; [exact Hx | ].
    cbn [fold_left]. apply IH; [intros r' Hr'; apply Hl; right; exact Hr' | ].
    destruct (factor_binary64_normal r (Hl r (or_introl eq_refl)))
      as (mf & ef & Hf & _).
    exact (mul_sign_bit x _ mf ef b Hf Hx). }
  assert (Hup : forall (l : list nat) (x : float),
             (forall r, In r l -> (r < 7)%nat) ->
             sign_bit (Prim2SF x) = Some b ->
             sign_bit (Prim2SF (fold_left (fun a r => ndiv a (factor r)) l x))
             = Some b).
  { induction l as [ | r l IH]; intros x Hl Hx; [exact Hx | ].
    cbn [fold_left]. apply IH; [intros r' Hr'; apply Hl; right; exact Hr' | ].
    destruct (factor_binary64_normal r (Hl r (or_introl eq_refl)))
      as (mf & ef & Hf & _).
    exact (div_sign_bit x _ mf ef b Hf Hx). }
  intros Hn. destruct (Nat.ltb du cu); [ | destruct (Nat.ltb cu du)].
  - apply Hdown; [ | exact Hn]. unfold ranks_down. intros r Hin.
    apply in_rev, in_seq in Hin. lia.
  - apply Hup; [ | exact Hn]. unfold ranks_up. intros r Hin.
    apply in_seq in Hin. lia.
  - exact Hn.
Qed.

Lemma nan_unique (x : float) : Prim2SF x = S754_nan -> x = nan.
Proof. intros Hx. apply Prim2SF_inj. rewrite Hx. reflexivity. Qed.

Lemma mul_nan (f : float) : (nan * f)%float = nan.
Proof. apply nan_unique. rewrite mul_spec. reflexivity. Qed.

Lemma div_nan (f : float) : (nan / f)%float = nan.
Proof. apply nan_unique. rewrite div_spec. reflexivity. Qed.

Lemma rescale_nan (cu du : nat) : rescale cu du nan = nan.
Proof.
  unfold rescale.
  assert (Hdown : forall l : list nat,
             fold_left (fun a r => nmul a (factor r)) l nan = nan).
  { induction l as [ | r l IH]; [reflexivity | ].
    cbn [fold_left]. change (nmul nan (factor r)) with (nan * factor r)%float.
    rewrite mul_nan. exact IH. }
  assert (Hup : forall l : list nat,
             fold_left (fun a r => ndiv a (factor r)) l nan = nan).
  { induction l as [ | r l IH]; [reflexivity | ].
    cbn [fold_left]. change (ndiv nan (factor r)) with (nan / factor r)%float.
    rewrite div_nan. exact IH. }
  destruct (Nat.ltb du cu); [apply Hdown | ].
  destruct (Nat.ltb cu du); [apply Hup | reflexivity].
Qed.

Lemma leb_nan (x : float) : (x <=? nan)%float = false.
Proof.
  rewrite leb_spec. change (Prim2SF nan) with S754_nan.
  destruct (Prim2SF x) as [[ | ] | [ | ] | | [ | ] m e]; reflexivity.
Qed.

End Binary64Sign.

(** X14. In binary64, [convert] between recognized units never changes the
    sign of a number and never turns one into NaN: the magnitude returned
    has the sign bit of [n], for zeros and infinities as well; and so has
    the magnitude that [concise] returns. *)
Theorem convert_keeps_sign_binary64 :
  forall (n : float) (b : bool),
    sign_bit (Prim2SF n) = Some b ->
    (forall (u1 u2 : string) (p : value float) (r1 r2 : nat),
        unit_rank u1 = Some r1 ->
        unit_rank u2 = Some r2 ->
        exists d : Duration float,
          Duration_convert n (VStr u1) (VStr u2) p = Ok d
          /\ sign_bit (Prim2SF (_duration d)) = Some b)
    /\ (forall (u : string) (p : value float) (r : nat),
           unit_rank u = Some r ->
           exists d : Duration float,
             Duration_concise 8 n (VStr u) p = Some (Ok d)
             /\ sign_bit (Prim2SF (_duration d)) = Some b).
Proof.
  intros n b Hn. split.
  - intros u1 u2 p r1 r2 H1 H2. eexists.
    split; [apply (convert_units n u1 u2 p r1 r2 H1 H2) | ].
    cbn [_duration].
    apply rescale_sign_bit; eauto using unit_rank_le.
  - intros u p r Hu.
    destruct (search_outcome binary64_finer_stays_below
                binary64_coarser_stays_above n u p r Hu)
      as (k & d & r' & Hk & Htook & Hud & _ & Hdd & _).
    exists d. split; [apply (took_fuel Htook); lia | ].
    rewrite Hdd. apply rescale_sign_bit; eauto using unit_rank_le.
Qed.

Lemma convert_keeps_sign_binary64_witness :
  sign_bit (Prim2SF (-0)%float) = Some true
  /\ (unit_rank "yr" = Some 7 /\ unit_rank "ms" = Some 0
      /\ exists d : Duration float,
           Duration_convert (-0)%float (VStr "yr") (VStr "ms") VUndefined = Ok d
           /\ sign_bit (Prim2SF (_duration d)) = Some true)
  /\ (unit_rank "yr" = Some 7
      /\ exists d : Duration float,
           Duration_concise 8 (-0)%float (VStr "yr") VUndefined = Some (Ok d)
           /\ sign_bit (Prim2SF (_duration d)) = Some true).
Proof.
  pose proof (convert_keeps_sign_binary64 (-0)%float true eq_refl)
    as [Hconvert Hconcise].
  split; [reflexivity | ]. split.
  - split; [reflexivity | ]. split; [reflexivity | ].
    exact (Hconvert "yr" "ms" VUndefined 7 0 eq_refl eq_refl).
  - split; [reflexivity | ].
    exact (Hconcise "yr" VUndefined 7 eq_refl).
Defined.

(** X15. In binary64, NaN passes through: [convert] between recognized
    units returns NaN for NaN, and [concise] returns NaN in the unit it was
    given, without a recursive call. *)
Theorem nan_passes_through :
  (forall (u1 u2 : string) (p : value float) (r1 r2 : nat),
      unit_rank u1 = Some r1 ->
      unit_rank u2 = Some r2 ->
      Duration_convert nan (VStr u1) (VStr u2) p
      = Ok {| _duration := nan; _unit := u2;
              _precision := recorded_precision p; _abbr := true |})
  /\ (forall (u : string) (p : value float) (r : nat),
         unit_rank u = Some r ->
         Duration_concise 1 nan (VStr u) p
         = Some (Ok {| _duration := nan; _unit := u;
                       _precision := constructed_precision p;
                       _abbr := true |})).
Proof.
  split.
  - intros u1 u2 p r1 r2 H1 H2.
    rewrite (convert_units nan u1 u2 p r1 r2 H1 H2), rescale_nan. reflexivity.
  - intros u p r Hu. cbn [Duration_concise].
    rewrite (concise_step_unit nan u p r Hu). cbv zeta.
    change (nlt nan (integer 1)) with false.
    change (nge nan (factor r)) with (factor r <=? nan)%float.
    rewrite leb_nan. reflexivity.
Qed.

Lemma nan_passes_through_witness :
  (unit_rank "wk" = Some 5 /\ unit_rank "mo" = Some 6
   /\ Duration_convert nan (VStr "wk") (VStr "mo") (VNum 4%float)
      = Ok {| _duration := nan; _unit := "mo";
              _precision := 4%float; _abbr := true |})
  /\ (unit_rank "wk" = Some 5
      /\ Duration_concise 1 nan (VStr "wk") (VNum 4%float)
         = Some (Ok {| _duration := nan; _unit := "wk";
                       _precision := 4%float; _abbr := true |})).
Proof.
  split.
  - split; [reflexivity | ]. split; [reflexivity | ].
    exact (proj1 nan_passes_through "wk" "mo" (VNum 4%float) 5 6
                 eq_refl eq_refl).
  - split; [reflexivity | ].
    exact (proj2 nan_passes_through "wk" (VNum 4%float) 5 eq_refl).
Defined.

(** ** The precision that [concise] returns *)

Section SearchPrecision.

Context {num : Type} `{JSNumber num}.

Hypothesis finer_stays_below :
  forall (x : num) (r : nat),
    r < 7 -> nlt x (integer 1) = true ->
    nge (nmul x (factor r)) (factor r) = false.

Hypothesis coarser_stays_above :
  forall (x : num) (r : nat),
    r < 7 -> nge x (factor r) = true ->
    nlt (ndiv x (factor r)) (integer 1) = false.

Lemma concise_precision (n : num) (u : string) (p : value num) (r : nat) :
  unit_rank u = Some r ->
  exists d : Duration num,
    Duration_concise 8 n (VStr u) p = Some (Ok d)
    /\ _precision d
       = if negb (nlt n (integer 1)) && nge n (factor r) && Nat.ltb r 7
         then integer 2
         else constructed_precision p.
Proof.
  intros Hu.
  destruct (nlt n (integer 1)) eqn:Hlt; cbn [negb andb].
  - exact (concise_precision_finer finer_stays_below n u p r Hu Hlt).
  - destruct (nge n (factor r)) eqn:Hge; cbn [andb].
    + destruct (Nat.ltb_spec r 7) as [Hr | Hr].
      * exact (concise_precision_coarser coarser_stays_above n u p r Hu Hr
                 Hlt Hge).
      * eexists. cbn [Duration_concise].
        rewrite (concise_step_unit n u p r Hu). cbv zeta. rewrite Hlt, Hge.
        replace (Nat.leb 7 r) with true by (symmetry; apply Nat.leb_le; lia).
        split; reflexivity.
    + eexists. cbn [Duration_concise].
      rewrite (concise_step_unit n u p r Hu). cbv zeta. rewrite Hlt, Hge.
      split; reflexivity.
Qed.

End SearchPrecision.

(** X16. The precision of what [concise] returns, in binary64 and in exact
    arithmetic, for every magnitude and recognized unit: it is 2, whatever
    [p] is, when the search moves to a coarser unit (the magnitude is not
    below 1, is at least the factor of the unit, and the unit is not the
    last); otherwise it is [p] when [p] is a number, and 2 when it is not. *)
Theorem concise_precision_by_direction :
  (forall (n : float) (u : string) (p : value float) (r : nat),
      unit_rank u = Some r ->
      exists d : Duration float,
        Duration_concise 8 n (VStr u) p = Some (Ok d)
        /\ _precision d
           = if negb (nlt n (integer 1)) && nge n (factor r) && Nat.ltb r 7
             then integer 2
             else match p with VNum x => x | _ => integer 2 end)
  /\ (forall (n : Q) (u : string) (p : value Q) (r : nat),
         unit_rank u = Some r ->
         exists d : Duration Q,
           Duration_concise 8 n (VStr u) p = Some (Ok d)
           /\ _precision d
              = if negb (nlt n (integer 1)) && nge n (factor r) && Nat.ltb r 7
                then integer 2
                else match p with VNum x => x | _ => integer 2 end).
Proof.
  split.
  - intros n u p r.
    exact (concise_precision binary64_finer_stays_below
             binary64_coarser_stays_above n u p r).
  - intros n u p r.
    exact (concise_precision exact_finer_stays_below
             exact_coarser_stays_above n u p r).
Qed.

Lemma concise_precision_by_direction_witness :
  (unit_rank "s" = Some 1
   /\ exists d : Duration float,
        Duration_concise 8 7200%float (VStr "s") (VNum 5%float) = Some (Ok d)
        /\ _precision d = 2%float)
  /\ (unit_rank "hr" = Some 3
      /\ exists d : Duration Q,
           Duration_concise 8 (1 # 100)%Q (VStr "hr") (VNum (5 # 1)%Q)
           = Some (Ok d)
           /\ _precision d = (5 # 1)%Q).
Proof.
  split; (split; [reflexivity | ]).
  - exact (proj1 concise_precision_by_direction 7200%float "s"
                 (VNum 5%float) 1 eq_refl).
  - exact (proj2 concise_precision_by_direction (1 # 100)%Q "hr"
                 (VNum (5 # 1)%Q) 3 eq_refl).
Defined.

(** ** Where the search lands, sharply *)

Section SearchLanding.

Context {num : Type} `{JSNumber num}.

Hypothesis finer_stays_below :
  forall (x : num) (r : nat),
    r < 7 -> nlt x (integer 1) = true ->
    nge (nmul x (factor r)) (factor r) = false.

Hypothesis coarser_stays_above :
  forall (x : num) (r : nat),
    r < 7 -> nge x (factor r) = true ->
    nlt (ndiv x (factor r)) (integer 1) = false.

Lemma search_lands (n : num) (u : string) (p : value num) (r : nat) :
  unit_rank u = Some r ->
  exists (d : Duration num) (r' : nat),
    Duration_concise 8 n (VStr u) p = Some (Ok d)
    /\ unit_rank (_unit d) = Some r'
    /\ _duration d = rescale r r' n
    /\ ((r' = 0 /\ nlt (_duration d) (integer 1) = true)
        \/ (nlt (_duration d) (integer 1) = false
            /\ (r' < 7 -> nge (_duration d) (factor r') = false))).
Proof.
  intros Hu. pose proof (unit_rank_le _ _ Hu) as Hr.
  destruct (nlt n (integer 1)) eqn:Hn.
  - destruct (search_finer finer_stays_below r u n p Hu Hn)
      as (k & d & Hk & Htook & Hud & Hdd & _ & Hend).
    exists d, (r - k). split; [apply (took_fuel Htook); lia | ].
    split; [rewrite Hud; apply unit_rank_name; lia | ].
    split; [exact Hdd | ].
    destruct Hend as [[-> Hd] | [Hlow Hhigh]].
    + left. split; [lia | exact Hd].
    + right. split; [exact Hlow | intros _; exact Hhigh].
  - destruct (search_coarser coarser_stays_above (7 - r) r u n p
                ltac:(lia) Hu Hn)
      as (k & d & Hk & Htook & Hud & Hdd & _ & Hlow & Hbound).
    exists d, (r + k). split; [apply (took_fuel Htook); lia | ].
    split; [rewrite Hud; apply unit_rank_name; lia | ].
    split; [exact Hdd | ].
    right. split; [exact Hlow | exact Hbound].
Qed.

End SearchLanding.

(** X19. What [concise] never returns, in binary64 (for every magnitude
    but NaN) and in exact arithmetic: a magnitude below 1 in a unit other
    than millisecond, or a magnitude that reaches the unit's factor in a
    unit other than year.  Either the result is below 1 in milliseconds, or
    it is at least 1 and, unless in years, below the factor of its unit. *)
Theorem concise_below_one_only_in_ms :
  (forall (n : float) (u : string) (p : value float) (r : nat),
      (n =? n)%float = true ->
      unit_rank u = Some r ->
      exists (d : Duration float) (r' : nat),
        Duration_concise 8 n (VStr u) p = Some (Ok d)
        /\ unit_rank (_unit d) = Some r'
        /\ ((r' = 0 /\ (_duration d <? 1)%float = true)
            \/ ((1 <=? _duration d)%float = true
                /\ (r' < 7 -> (_duration d <? factor r')%float = true))))
  /\ (forall (n : Q) (u : string) (p : value Q) (r : nat),
         unit_rank u = Some r ->
         exists (d : Duration Q) (r' : nat),
           Duration_concise 8 n (VStr u) p = Some (Ok d)
           /\ unit_rank (_unit d) = Some r'
           /\ ((r' = 0 /\ (_duration d < 1)%Q)
               \/ ((1 <= _duration d)%Q
                   /\ (r' < 7 -> (_duration d < factor r')%Q)))).
Proof.
  split.
  - intros n u p r Hnum Hu. pose proof (unit_rank_le _ _ Hu) as Hr.
    destruct (search_lands binary64_finer_stays_below
                binary64_coarser_stays_above n u p r Hu)
      as (d & r' & Hrun & Hud & Hdd & Hend).
    pose proof (unit_rank_le _ _ Hud) as Hr'.
    exists d, r'. split; [exact Hrun | ]. split; [exact Hud | ].
    destruct Hend as [[-> Hd] | [Hlow Hhigh]];
      [left; split; [reflexivity | exact Hd] | right].
    assert (Hd : is_number (Prim2SF (_duration d))).
    { rewrite Hdd. apply rescale_is_number; try assumption.
      apply eqb_refl_is_number, Hnum. }
    split; [apply (ltb_false_leb (_duration d) 1%float Hd I Hlow) | ].
    intros Hlt.
    destruct (factor_binary64_normal r' Hlt) as (mf & ef & Hf & _).
    assert (Hfn : is_number (Prim2SF (factor (num := float) r')))
      by (rewrite Hf; exact I).
    apply (leb_false_ltb (factor r') (_duration d) Hfn Hd (Hhigh Hlt)).
  - intros n u p r Hu.
    destruct (search_lands exact_finer_stays_below
                exact_coarser_stays_above n u p r Hu)
      as (d & r' & Hrun & Hud & Hdd & Hend).
    exists d, r'. split; [exact Hrun | ]. split; [exact Hud | ].
    destruct Hend as [[-> Hd] | [Hlow Hhigh]].
    + left. split; [reflexivity | ].
      apply (proj1 (Qltb_lt (_duration d) 1) Hd).
    + right. split; [apply (proj1 (Qltb_ge (_duration d) 1) Hlow) | ].
      intros Hlt.
      apply (proj1 (Qle_bool_lt (factor r') (_duration d)) (Hhigh Hlt)).
Qed.

Lemma concise_below_one_only_in_ms_witness :
  ((0x1p1000 =? 0x1p1000)%float = true
   /\ unit_rank "ms" = Some 0
   /\ exists (d : Duration float) (r' : nat),
        Duration_concise 8 0x1p1000%float (VStr "ms") VUndefined = Some (Ok d)
        /\ unit_rank (_unit d) = Some r'
        /\ ((r' = 0 /\ (_duration d <? 1)%float = true)
            \/ ((1 <=? _duration d)%float = true
                /\ (r' < 7 -> (_duration d <? factor r')%float = true))))
  /\ (unit_rank "yr" = Some 7
      /\ exists (d : Duration Q) (r' : nat),
           Duration_concise 8 (1 # 3)%Q (VStr "yr") VUndefined = Some (Ok d)
           /\ unit_rank (_unit d) = Some r'
           /\ ((r' = 0 /\ (_duration d < 1)%Q)
               \/ ((1 <= _duration d)%Q
                   /\ (r' < 7 -> (_duration d < factor r')%Q)))).
Proof.
  split.
  - split; [reflexivity | ]. split; [reflexivity | ].
    exact (proj1 concise_below_one_only_in_ms 0x1p1000%float "ms" VUndefined 0
                 eq_refl eq_refl).
  - split; [reflexivity | ].
    exact (proj2 concise_below_one_only_in_ms (1 # 3)%Q "yr" VUndefined 7
                 eq_refl).
Defined.

(** ** The precision that [convert] records *)

(** X21. In binary64 and in exact arithmetic, the precision of a
    [Duration] that [convert] returns is never falsy: it is never 0 (nor
    NaN), whatever precision was passed; and it is the precision passed
    whenever that is a truthy number. *)
Theorem convert_precision_never_falsy :
  (forall (n : float) (from to p : value float) (d : Duration float),
      Duration_convert n from to p = Ok d ->
      truthy (_precision d) = true
      /\ (forall x : float, p = VNum x -> truthy x = true -> _precision d = x))
  /\ (forall (n : Q) (from to p : value Q) (d : Duration Q),
         Duration_convert n from to p = Ok d ->
         truthy (_precision d) = true
         /\ (forall x : Q, p = VNum x -> truthy x = true -> _precision d = x)).
Proof.
  split; intros n from to p d Hd;
    rewrite (convert_precision n from to p d Hd);
    (split; [ | intros x -> Hx; cbn [recorded_precision]; rewrite Hx;
                reflexivity]);
    destruct p as [ | | b | x | t]; try reflexivity;
    cbn [recorded_precision]; destruct (truthy x) eqn:Hx;
    [exact Hx | reflexivity | exact Hx | reflexivity].
Qed.

Lemma convert_precision_never_falsy_witness :
  (Duration_convert 3%float (VStr "hr") (VStr "min") (VNum nan)
   = Ok {| _duration := 180%float; _unit := "min";
           _precision := 2%float; _abbr := true |}
   /\ truthy 2%float = true)
  /\ (Duration_convert (3 # 1)%Q (VStr "hr") (VStr "min") (VNum (4 # 1)%Q)
      = Ok {| _duration := rescale 3 2 (3 # 1)%Q; _unit := "min";
              _precision := (4 # 1)%Q; _abbr := true |}
      /\ (truthy (4 # 1)%Q = true -> (4 # 1)%Q = (4 # 1)%Q)).
Proof.
  split.
  - split; [vm_compute; reflexivity | ].
    exact (proj1 (proj1 convert_precision_never_falsy 3%float (VStr "hr")
                        (VStr "min") (VNum nan)
                        {| _duration := 180%float; _unit := "min";
                           _precision := 2%float; _abbr := true |} eq_refl)).
  - split; [reflexivity | ].
    exact (proj2 (proj2 convert_precision_never_falsy (3 # 1)%Q (VStr "hr")
                        (VStr "min") (VNum (4 # 1)%Q)
                        {| _duration := rescale 3 2 (3 # 1)%Q; _unit := "min";
                           _precision := (4 # 1)%Q; _abbr := true |} eq_refl)
                 (4 # 1)%Q eq_refl).
Defined.

(** ** Conversion in binary64, up to rounding *)

(** X12. In binary64, converting through an intermediate unit agrees with
    converting directly up to rounding: for all recognized units and every
    magnitude [n] that is zero or lies between [2^-848] and [2^853],
    [convert(convert(n, u1, u2).duration(), u2, u3)] has the unit and the
    precision of [convert(n, u1, u3)], and a magnitude within the relative
    error [2^-47] of it. *)
Theorem convert_composes_binary64 :
  forall (n : float) (u1 u2 u3 : string) (p : value float) (r1 r2 r3 : nat),
    unit_rank u1 = Some r1 ->
    unit_rank u2 = Some r2 ->
    unit_rank u3 = Some r3 ->
    safe_magnitude (Prim2SF n) ->
    exists d12 d23 d13 : Duration float,
      Duration_convert n (VStr u1) (VStr u2) p = Ok d12
      /\ Duration_convert (Duration_prototype_duration d12) (VStr u2) (VStr u3) p
         = Ok d23
      /\ Duration_convert n (VStr u1) (VStr u3) p = Ok d13
      /\ _unit d23 = _unit d13
      /\ _precision d23 = _precision d13
      /\ (Qabs (B2Q (_duration d23) - B2Q (_duration d13))
          <= (1 # 140737488355328) * Qabs (B2Q (_duration d13)))%Q.
Proof.
  intros n u1 u2 u3 p r1 r2 r3 H1 H2 H3 Hsafe.
  pose proof (unit_rank_le _ _ H1) as Hr1.
  pose proof (unit_rank_le _ _ H2) as Hr2.
  pose proof (unit_rank_le _ _ H3) as Hr3.
  do 3 eexists.
  split; [apply (convert_units n u1 u2 p r1 r2 H1 H2) | ].
  split; [apply (convert_units _ u2 u3 p r2 r3 H2 H3) | ].
  split; [apply (convert_units n u1 u3 p r1 r3 H1 H3) | ].
  split; [reflexivity | ]. split; [reflexivity | ].
  unfold Duration_prototype_duration. cbn [_duration].
  exact (compose_error n r1 r2 r3 Hr1 Hr2 Hr3 Hsafe).
Qed.

Lemma convert_composes_binary64_witness :
  unit_rank "s" = Some 1 /\ unit_rank "yr" = Some 7 /\ unit_rank "s" = Some 1
  /\ safe_magnitude (Prim2SF 1%float)
  /\ exists d12 d23 d13 : Duration float,
       Duration_convert 1%float (VStr "s") (VStr "yr") VUndefined = Ok d12
       /\ Duration_convert (Duration_prototype_duration d12) (VStr "yr")
            (VStr "s") VUndefined = Ok d23
       /\ Duration_convert 1%float (VStr "s") (VStr "s") VUndefined = Ok d13
       /\ _unit d23 = _unit d13
       /\ _precision d23 = _precision d13
       /\ (Qabs (B2Q (_duration d23) - B2Q (_duration d13))
           <= (1 # 140737488355328) * Qabs (B2Q (_duration d13)))%Q.
Proof.
  split; [reflexivity | ]. split; [reflexivity | ]. split; [reflexivity | ].
  split; [vm_compute; split; discriminate | ].
  apply (convert_composes_binary64 1%float "s" "yr" "s" VUndefined 1 7 1
           eq_refl eq_refl eq_refl).
  vm_compute. split; discriminate.
Defined.

(** X13. In binary64, for all recognized units and every magnitude [n]
    that is zero or lies between [2^-848] and [2^853], [convert] to a
    finer unit (or to the same one) never returns a magnitude smaller in
    absolute value than [n], and [convert] to a coarser unit (or to the
    same one) never returns a larger one. *)
Theorem convert_scale_direction_binary64 :
  forall (n : float) (u1 u2 : string) (p : value float) (r1 r2 : nat),
    unit_rank u1 = Some r1 ->
    unit_rank u2 = Some r2 ->
    safe_magnitude (Prim2SF n) ->
    exists d : Duration float,
      Duration_convert n (VStr u1) (VStr u2) p = Ok d
      /\ (r2 <= r1 -> (Qabs (B2Q n) <= Qabs (B2Q (_duration d)))%Q)
      /\ (r1 <= r2 -> (Qabs (B2Q (_duration d)) <= Qabs (B2Q n))%Q).
Proof.
  intros n u1 u2 p r1 r2 H1 H2 Hsafe.
  pose proof (unit_rank_le _ _ H1) as Hr1.
  pose proof (unit_rank_le _ _ H2) as Hr2.
  eexists. split; [apply (convert_units n u1 u2 p r1 r2 H1 H2) | ].
  cbn [_duration]. exact (rescale_direction n r1 r2 Hr1 Hr2 Hsafe).
Qed.

Lemma convert_scale_direction_binary64_witness :
  unit_rank "wk" = Some 5 /\ unit_rank "mo" = Some 6
  /\ safe_magnitude (Prim2SF (-3)%float)
  /\ exists d : Duration float,
       Duration_convert (-3)%float (VStr "wk") (VStr "mo") VUndefined = Ok d
       /\ (6 <= 5 -> (Qabs (B2Q (-3)%float) <= Qabs (B2Q (_duration d)))%Q)
       /\ (5 <= 6 -> (Qabs (B2Q (_duration d)) <= Qabs (B2Q (-3)%float))%Q).
Proof.
  split; [reflexivity | ]. split; [reflexivity | ].
  split; [vm_compute; split; discriminate | ].
  apply (convert_scale_direction_binary64 (-3)%float "wk" "mo" VUndefined 5 6
           eq_refl eq_refl).
  vm_compute. split; discriminate.
Defined.
